(** * Pathfinity: the roadmap resolution pipeline

    A shallow embedding of the server action that builds a student's
    roadmap (template matching, course-code extraction, catalog lookup,
    model-assisted synthesis with response normalisation, merge and
    persist), and the properties its specification states about it.

    - Strings are sequences of UTF-16 code units in the source.  Here they
      are [string]s of 8-bit characters, read as the code units U+0000 to
      U+00FF; the string primitives below are the ECMAScript ones on that
      range.
    - The three regular expressions of the source are run by a small
      backtracking matcher.
    - What the model answers is a [value]: the data [JSON.parse] builds,
      with the ECMAScript rules for property reads and writes, truthiness
      and [String(...)] on such data.
    - The asynchronous functions are state-passing computations over a
      [World] (the three tables, a counter of store operations, the log of
      model calls) that may [throw]; the environment [Env] says which store
      operations fail, what time it is, what the catalog file holds, what
      the model answers and what [JSON.parse] returns. *)

From Stdlib Require Import List String Ascii Bool Arith ZArith Lia Permutation.
From Stdlib Require Import DecimalString.
Import ListNotations.
Open Scope string_scope.
Open Scope nat_scope.

(* ================================================================== *)
(** ** ECMAScript string primitives *)

Module Js.

(** [WhiteSpace] and [LineTerminator] of ECMAScript below U+0100: TAB, LF,
    VT, FF, CR, SP and NBSP.  The same set is the regular expression
    class [\s] and what [trim] strips. *)
Definition isWhiteSpace (c : ascii) : bool :=
  let n := nat_of_ascii c in
  ((9 <=? n) && (n <=? 13)) || (n =? 32) || (n =? 160).

(** [[A-Z]] *)
Definition isUpper (c : ascii) : bool :=
  let n := nat_of_ascii c in (65 <=? n) && (n <=? 90).

(** [\d] *)
Definition isDigit (c : ascii) : bool :=
  let n := nat_of_ascii c in (48 <=? n) && (n <=? 57).

(** Lower-casing of one code unit below U+0100: the letters A-Z, and the
    Latin-1 capitals U+00C0-U+00DE except the multiplication sign. *)
Definition lowerChar (c : ascii) : ascii :=
  let n := nat_of_ascii c in
  if isUpper c || ((192 <=? n) && (n <=? 222) && negb (n =? 215))
  then ascii_of_nat (n + 32) else c.

Fixpoint toLowerCase (s : string) : string :=
  match s with
  | EmptyString => EmptyString
  | String c s' => String (lowerChar c) (toLowerCase s')
  end.

Fixpoint trimStart (s : string) : string :=
  match s with
  | EmptyString => EmptyString
  | String c s' => if isWhiteSpace c then trimStart s' else s
  end.

Fixpoint trimEnd (s : string) : string :=
  match s with
  | EmptyString => EmptyString
  | String c s' =>
      match trimEnd s' with
      | EmptyString => if isWhiteSpace c then EmptyString else String c EmptyString
      | t => String c t
      end
  end.

Definition trim (s : string) : string := trimEnd (trimStart s).

(** [s.includes(t)]: [t] occurs in [s] at some index. *)
Fixpoint includes (s t : string) : bool :=
  String.prefix t s ||
  match s with
  | EmptyString => false
  | String _ s' => includes s' t
  end.

(** [xs.join(sep)] on an array of strings. *)
Fixpoint join (sep : string) (xs : list string) : string :=
  match xs with
  | [] => ""
  | [x] => x
  | x :: rest => x ++ sep ++ join sep rest
  end.

End Js.

(* ================================================================== *)
(** ** Regular expressions of the source

    The three patterns of the source are sequences of character classes
    under [+] or [*], single characters and [$].  [matchAt] is the
    backtracking matcher of ECMAScript on such sequences: a quantified
    class first takes as many characters as it can and gives them back one
    at a time while the rest of the pattern fails. *)

Module Regex.

Inductive atom : Type :=
| One (cls : ascii -> bool)
| Plus (cls : ascii -> bool)
| Star (cls : ascii -> bool)
| End.

Definition regex := list atom.

Fixpoint greedy {A : Type} (cls : ascii -> bool) (k : string -> option A)
         (s : string) : option (string * A) :=
  match s with
  | String a s' =>
      if cls a then
        match greedy cls k s' with
        | Some (p, r) => Some (String a p, r)
        | None => option_map (pair "") (k s)
        end
      else option_map (pair "") (k s)
  | EmptyString => option_map (pair "") (k "")
  end.

(** A match of [r] starting at the head of [s]: the text each atom took,
    and what is left of [s]. *)
Fixpoint matchAt (r : regex) (s : string) : option (list string * string) :=
  match r with
  | [] => Some ([], s)
  | One cls :: r' =>
      match s with
      | String a s' =>
          if cls a
          then option_map (fun '(ps, rest) => (String a "" :: ps, rest)) (matchAt r' s')
          else None
      | EmptyString => None
      end
  | Plus cls :: r' =>
      match s with
      | String a s' =>
          if cls a
          then option_map (fun '(p, (ps, rest)) => (String a p :: ps, rest))
                          (greedy cls (matchAt r') s')
          else None
      | EmptyString => None
      end
  | Star cls :: r' =>
      option_map (fun '(p, (ps, rest)) => (p :: ps, rest)) (greedy cls (matchAt r') s)
  | End :: r' =>
      match s with
      | EmptyString => option_map (fun '(ps, rest) => ("" :: ps, rest)) (matchAt r' "")
      | _ => None
      end
  end.

Definition matched (ps : list string) : string := String.concat "" ps.

(** [s.match(r)] without the [g] flag: the leftmost match, as
    (text before it, the atoms' texts, text after it). *)
Fixpoint search (r : regex) (s : string) : option (string * list string * string) :=
  match matchAt r s with
  | Some (ps, rest) => Some ("", ps, rest)
  | None =>
      match s with
      | EmptyString => None
      | String a s' =>
          option_map (fun '(pre, ps, rest) => (String a pre, ps, rest)) (search r s')
      end
  end.

(** [s.match(r)] with the [g] flag: every match, left to right, each
    search resuming where the previous match ended (one character further
    after an empty match).  [skip] counts the characters of [s] still
    covered by the previous match.  The empty list stands for [null]. *)
Fixpoint scan (r : regex) (s : string) (skip : nat) : list string :=
  match s with
  | EmptyString =>
      match skip, matchAt r "" with
      | 0, Some (ps, _) => [matched ps]
      | _, _ => []
      end
  | String _ s' =>
      match skip with
      | S k => scan r s' k
      | 0 =>
          match matchAt r s with
          | Some (ps, _) =>
              let m := matched ps in m :: scan r s' (String.length m - 1)
          | None => scan r s' 0
          end
      end
  end.

Definition matchAll (r : regex) (s : string) : list string := scan r s 0.

End Regex.

(* ================================================================== *)
(** ** Pathway templates *)

Inductive SemesterName : Type := fall_semester | spring_semester | summer_semester.

Record CourseSlot : Type := { name : string; credits : Z }.

Record Semester : Type :=
  { semester_name : SemesterName; semester_credits : Z; courses : list CourseSlot }.

Record Year : Type := { year_number : Z; semesters : list Semester }.

Record PathwayTemplate : Type :=
  { program_name : string; institution : string; total_credits : Z; years : list Year }.

(** *** Template matcher *)

Definition findMatchingPathway (programName : string) (templates : list PathwayTemplate)
  : option PathwayTemplate :=
  let normalized := Js.trim (Js.toLowerCase programName) in
  (* exact match first *)
  match find (fun template =>
                String.eqb (Js.trim (Js.toLowerCase (program_name template))) normalized)
             templates with
  | Some template => Some template
  | None =>
      (* partial match: the template name contains the program name *)
      match find (fun template =>
                    let templateName := Js.toLowerCase (program_name template) in
                    Js.includes templateName normalized)
                 templates with
      | Some template => Some template
      | None =>
          (* reverse: the program name contains the template name *)
          find (fun template =>
                  let templateName := Js.toLowerCase (program_name template) in
                  Js.includes normalized templateName)
               templates
      end
  end.

(** *** Course-code extraction *)

(** The pattern of [extractPathwayCourses], matched with the [g] flag: one
    or more of A-Z, one or more white-space characters, one or more digits
    and then any number of A-Z. *)
Definition courseCodeRe : Regex.regex :=
  [Regex.Plus Js.isUpper; Regex.Plus Js.isWhiteSpace; Regex.Plus Js.isDigit; Regex.Star Js.isUpper].

(** [Set.prototype.add] on a set kept in insertion order. *)
Definition setAdd (x : string) (s : list string) : list string :=
  if existsb (String.eqb x) s then s else s ++ [x].

Definition extractPathwayCourses (pathwayTemplate : PathwayTemplate) : list string :=
  fold_left (fun courseCodes year =>
    fold_left (fun courseCodes semester =>
      fold_left (fun courseCodes course =>
        let matches := Regex.matchAll courseCodeRe (name course) in
        fold_left (fun courseCodes m => setAdd (Js.trim m) courseCodes) matches courseCodes)
        (courses semester) courseCodes)
      (semesters year) courseCodes)
    (years pathwayTemplate) [].

(* ================================================================== *)
(** ** Values of the model's response

    What [JSON.parse] returns, and [undefined] for what a property read
    may give.  Numbers are the integers among the JSON numbers (those that
    a double holds exactly and prints in plain decimal).  An object is its
    own properties in insertion order, each key once; nothing below
    depends on the order in which ECMAScript enumerates keys that look
    like indices. *)

#[local] Set Warnings "-register-all".

Inductive value : Type :=
| VUndefined
| VNull
| VBool (b : bool)
| VNum (n : Z)
| VStr (s : string)
| VArr (items : list value)
| VObj (fields : list (string * value)).

Inductive error : Type :=
| NotFound (what : string)
| MissingFields
| NoJsonFound
| SyntaxError
| TypeError
| StoreFault
| ModelFault
| FileFault.

Inductive result (A : Type) : Type :=
| Ok (a : A)
| Throw (e : error).
Arguments Ok {A} a.
Arguments Throw {A} e.

Module Val.

(** [ToBoolean] *)
Definition truthy (v : value) : bool :=
  match v with
  | VUndefined | VNull => false
  | VBool b => b
  | VNum n => negb (n =? 0)%Z
  | VStr s => negb (s =? "")%string
  | VArr _ | VObj _ => true
  end.

(** [a || b] *)
Definition or (a b : value) : value := if truthy a then a else b.

Fixpoint assoc {A : Type} (k : string) (fields : list (string * A)) : option A :=
  match fields with
  | [] => None
  | (k', v) :: rest => if (k' =? k)%string then Some v else assoc k rest
  end.

(** Writing property [k] of an object: an existing key keeps its place. *)
Fixpoint put {A : Type} (k : string) (v : A) (fields : list (string * A))
  : list (string * A) :=
  match fields with
  | [] => [(k, v)]
  | (k', v') :: rest =>
      if (k' =? k)%string then (k', v) :: rest else (k', v') :: put k v rest
  end.

Definition remove {A : Type} (k : string) (fields : list (string * A))
  : list (string * A) :=
  filter (fun kv => negb (fst kv =? k)%string) fields.

(** [v.k] for a key [k] that no prototype defines and that is no index
    and not [length] (every key the source reads is such a key): the own
    property, [undefined] when there is none, a [TypeError] on [null] and
    [undefined]. *)
Definition get (v : value) (k : string) : result value :=
  match v with
  | VUndefined | VNull => Throw TypeError
  | VObj fields =>
      match assoc k fields with
      | Some x => Ok x
      | None => Ok VUndefined
      end
  | _ => Ok VUndefined
  end.

(** [v.k = x] in strict mode (the source is an ES module), as the
    document that results: an object gets the property; a primitive
    raises a [TypeError]; an array takes [k] as a named property, which
    is no part of the array as a JSON document. *)
Definition set (v : value) (k : string) (x : value) : result value :=
  match v with
  | VObj fields => Ok (VObj (put k x fields))
  | VArr items => Ok (VArr items)
  | _ => Throw TypeError
  end.

Definition ofNat (n : nat) : string := NilEmpty.string_of_uint (Nat.to_uint n).
Definition ofZ (n : Z) : string := NilEmpty.string_of_int (Z.to_int n).

Fixpoint chars (s : string) : list value :=
  match s with
  | EmptyString => []
  | String c s' => VStr (String c "") :: chars s'
  end.

Fixpoint indexed {A : Type} (i : nat) (xs : list A) : list (string * A) :=
  match xs with
  | [] => []
  | x :: rest => (ofNat i, x) :: indexed (S i) rest
  end.

(** The own enumerable properties of [v], as [{...v}] and a rest pattern
    copy them; [None] where destructuring raises a [TypeError]. *)
Definition ownProperties (v : value) : option (list (string * value)) :=
  match v with
  | VUndefined | VNull => None
  | VBool _ | VNum _ => Some []
  | VStr s => Some (indexed 0 (chars s))
  | VArr items => Some (indexed 0 items)
  | VObj fields => Some fields
  end.

(** [String(v)]; [None] where it raises a [TypeError].  An array prints
    its entries separated by commas, [null] and [undefined] as nothing.
    An object without an own [toString] prints through
    [Object.prototype.toString].  An object with an own [toString] has no
    string form: the property is not callable (nothing parsed from JSON
    is), so the conversion goes on to [valueOf], which is either an own
    property, not callable as well, or the inherited one, which returns the
    object itself; no primitive is produced and a [TypeError] is raised. *)
Fixpoint toString (v : value) : option string :=
  match v with
  | VUndefined => Some "undefined"
  | VNull => Some "null"
  | VBool true => Some "true"
  | VBool false => Some "false"
  | VNum n => Some (ofZ n)
  | VStr s => Some s
  | VArr items =>
      (fix joinItems (xs : list value) : option string :=
         match xs with
         | [] => Some ""
         | x :: rest =>
             let sx := match x with
                       | VUndefined | VNull => Some ""
                       | _ => toString x
                       end in
             match sx, rest with
             | None, _ => None
             | Some a, [] => Some a
             | Some a, _ :: _ =>
                 match joinItems rest with
                 | Some b => Some (a ++ "," ++ b)
                 | None => None
                 end
             end
         end) items
  | VObj fields =>
      match assoc "toString" fields with
      | Some _ => None
      | None => Some "[object Object]"
      end
  end.

End Val.

(* ================================================================== *)
(** ** The store, the catalog file and the model

    The schema module that declares the tables is not among the sources;
    each row below carries the columns the pipeline reads or writes. *)

Module profile.
(** Modelled from the spec: the [profile] table of the missing schema
    module (Student Profile: college, program, career, interests, skills,
    the roadmap field and the modification timestamp). *)
Record row : Type :=
  { id : Z;
    college : option string;
    program : option string;
    career : option string;
    interests : option (list string);
    skills : option (list string);
    roadmap : option value;
    updatedAt : Z }.
End profile.

Module campus.
(** Modelled from the spec: the [campus] table of the missing schema
    module (Campus: id, name, aliases); [aliases] is [None] when the column
    holds no array. *)
Record row : Type :=
  { id : string; name : string; aliases : option (list string) }.
End campus.

Module course.
(** Modelled from the spec: the [course] table of the missing schema
    module (Course Catalog Entry: campus, prefix, number, title,
    description, unit count), with the column names the source reads. *)
Record row : Type :=
  { campusId : string;
    coursePrefix : string;
    courseNumber : string;
    courseTitle : string;
    courseDesc : option string;
    numUnits : string }.
End course.

(** A value of the map [getPathwayCoursesFromDB] builds. *)
Record CourseInfo : Type :=
  { code : string; title : string; description : option string; units : string }.

Definition CourseMap : Type := list (string * CourseInfo).

(** What [processPathwayWithAI] interpolates into its prompt; the fixed
    text of the instructions is left out. *)
Record Prompt : Type :=
  { prompt_program : string;
    prompt_career : string;
    prompt_interests : string;
    prompt_skills : string;
    prompt_courses : string;
    prompt_template : PathwayTemplate }.

(** What a run can change or leave a trace in: the tables, the number of
    store operations issued so far and the model calls made so far. *)
Record World : Type :=
  { profiles : list profile.row;
    campuses : list campus.row;
    courseTable : list course.row;
    storeOps : nat;
    modelCalls : list Prompt }.

(** What a run only reads: which store operations fail (by their number),
    the clock, the decoded catalog file ([None] when it cannot be read or
    decoded), the model and [JSON.parse]. *)
Record Env : Type :=
  { storeFault : nat -> bool;
    now : Z;
    pathwayFile : option (list PathwayTemplate);
    generateText : Prompt -> result string;
    JSON_parse : string -> option value }.

(** *** Computations: state passing, with [throw] *)

Definition M (A : Type) : Type := World -> result A * World.

Definition ret {A : Type} (a : A) : M A := fun w => (Ok a, w).
Definition throw {A : Type} (e : error) : M A := fun w => (Throw e, w).
Definition bind {A B : Type} (m : M A) (k : A -> M B) : M B :=
  fun w => match m w with
           | (Ok a, w') => k a w'
           | (Throw e, w') => (Throw e, w')
           end.
Definition lift {A : Type} (r : result A) : M A := fun w => (r, w).

(** [try { m } catch (error) { h error }] *)
Definition tryCatch {A : Type} (m : M A) (h : error -> M A) : M A :=
  fun w => match m w with
           | (Ok a, w') => (Ok a, w')
           | (Throw e, w') => h e w'
           end.

Notation "x <- c1 ;; c2" := (bind c1 (fun x => c2))
  (at level 61, c1 at next level, right associativity).

Definition rbind {A B : Type} (r : result A) (k : A -> result B) : result B :=
  match r with
  | Ok a => k a
  | Throw e => Throw e
  end.

Notation "x <~ c1 ;; c2" := (rbind c1 (fun x => c2))
  (at level 61, c1 at next level, right associativity).

Fixpoint mapR {A B : Type} (f : A -> result B) (xs : list A) : result (list B) :=
  match xs with
  | [] => Ok []
  | x :: rest =>
      y <~ f x ;;
      ys <~ mapR f rest ;;
      Ok (y :: ys)
  end.

Section Pipeline.

Variable env : Env.

(** Every store operation counts, and fails when the environment says so. *)
Definition tick (w : World) : World :=
  {| profiles := profiles w; campuses := campuses w; courseTable := courseTable w;
     storeOps := S (storeOps w); modelCalls := modelCalls w |}.

Definition storeOp : M unit :=
  fun w => if storeFault env (storeOps w) then (Throw StoreFault, tick w) else (Ok tt, tick w).

Definition selectProfile (profileId : Z) : M (list profile.row) :=
  _ <- storeOp ;;
  fun w => (Ok (firstn 1 (filter (fun r => (profile.id r =? profileId)%Z) (profiles w))), w).

Definition selectCampusById (campusId : string) : M (list campus.row) :=
  _ <- storeOp ;;
  fun w => (Ok (firstn 1 (filter (fun c => (campus.id c =? campusId)%string) (campuses w))), w).

Definition selectAllCampuses : M (list campus.row) :=
  _ <- storeOp ;;
  fun w => (Ok (campuses w), w).

Definition selectCourses (campusId : string) : M (list course.row) :=
  _ <- storeOp ;;
  fun w => (Ok (firstn 1000 (filter (fun c => (course.campusId c =? campusId)%string)
                                    (courseTable w))), w).

Definition setRoadmap (newRoadmap : option value) (r : profile.row) : profile.row :=
  {| profile.id := profile.id r;
     profile.college := profile.college r;
     profile.program := profile.program r;
     profile.career := profile.career r;
     profile.interests := profile.interests r;
     profile.skills := profile.skills r;
     profile.roadmap := newRoadmap;
     profile.updatedAt := now env |}.

Definition writeRoadmap (profileId : Z) (newRoadmap : option value)
           (rows : list profile.row) : list profile.row :=
  map (fun r => if (profile.id r =? profileId)%Z then setRoadmap newRoadmap r else r) rows.

(** [db.update(profile).set({ roadmap, updatedAt: new Date() })
      .where(eq(profile.id, profileId))] *)
Definition updateProfile (profileId : Z) (newRoadmap : option value) : M unit :=
  _ <- storeOp ;;
  fun w =>
    (Ok tt,
     {| profiles := writeRoadmap profileId newRoadmap (profiles w);
        campuses := campuses w; courseTable := courseTable w;
        storeOps := storeOps w; modelCalls := modelCalls w |}).

Definition loadPathwayTemplates : M (list PathwayTemplate) :=
  match pathwayFile env with
  | Some templates => ret templates
  | None => throw FileFault
  end.

Definition callModel (prompt : Prompt) : M string :=
  fun w =>
    (generateText env prompt,
     {| profiles := profiles w; campuses := campuses w; courseTable := courseTable w;
        storeOps := storeOps w; modelCalls := prompt :: modelCalls w |}).

(** *** Catalog lookup *)

(** The anchored pattern of [getPathwayCoursesFromDB]: the whole code is
    one or more of A-Z, white space, and digits followed by any number of
    A-Z; the two groups are the prefix and the number. *)
Definition courseQueryRe : Regex.regex :=
  [Regex.Plus Js.isUpper; Regex.Plus Js.isWhiteSpace; Regex.Plus Js.isDigit;
   Regex.Star Js.isUpper; Regex.End].

Definition parseCourseCode (code : string) : option (string * string) :=
  match Regex.matchAt courseQueryRe code with
  | Some ([pre; _; digits; letters; _], _) => Some (pre, digits ++ letters)
  | _ => None
  end.

Fixpoint filterMap {A B : Type} (f : A -> option B) (xs : list A) : list B :=
  match xs with
  | [] => []
  | x :: rest =>
      match f x with
      | Some y => y :: filterMap f rest
      | None => filterMap f rest
      end
  end.

Definition courseKey (c : course.row) : string :=
  course.coursePrefix c ++ " " ++ course.courseNumber c.

Definition courseInfo (c : course.row) : CourseInfo :=
  {| code := courseKey c;
     title := course.courseTitle c;
     description := course.courseDesc c;
     units := course.numUnits c |}.

Definition matchingCourses (query : string * string) (rows : list course.row)
  : list course.row :=
  filter (fun c => (course.coursePrefix c =? fst query)%string
                   && (course.courseNumber c =? snd query)%string) rows.

Definition addCourses (courseMap : CourseMap) (rows : list course.row) : CourseMap :=
  fold_left (fun m c => Val.put (courseKey c) (courseInfo c) m) rows courseMap.

Fixpoint lookupCourses (courseQueries : list (string * string)) (campusId : string)
         (courseMap : CourseMap) : M CourseMap :=
  match courseQueries with
  | [] => ret courseMap
  | query :: rest =>
      courseMap' <- tryCatch
                      (rows <- selectCourses campusId ;;
                       ret (addCourses courseMap (matchingCourses query rows)))
                      (fun _ => ret courseMap) ;;
      lookupCourses rest campusId courseMap'
  end.

Definition getPathwayCoursesFromDB (courseCodes : list string) (campusId : string)
  : M CourseMap :=
  if List.length courseCodes =? 0 then ret []
  else
    let courseQueries := filterMap parseCourseCode courseCodes in
    if List.length courseQueries =? 0 then ret []
    else lookupCourses courseQueries campusId [].

(** *** Synthesis *)

Definition newline : string := String "010"%char "".

Definition formatCourse (c : CourseInfo) : string :=
  let desc := match description c with
              | Some d => if (d =? "")%string then ""
                          else newline ++ "  Description: " ++ d
              | None => ""
              end in
  code c ++ ": " ++ title c ++ desc.

(** A nullable text column read as a string ([null] reads as empty where
    only its truthiness or a default matters). *)
Definition orEmpty (s : option string) : string :=
  match s with
  | Some x => x
  | None => ""
  end.

Definition orElse (s dflt : string) : string :=
  if (s =? "")%string then dflt else s.

Definition optJoin (xs : option (list string)) : string :=
  match xs with
  | Some l => Js.join ", " l
  | None => ""
  end.

Definition buildPrompt (pathwayTemplate : PathwayTemplate) (courseData : CourseMap)
           (profileData : profile.row) : Prompt :=
  let courseList := Js.join (newline ++ newline) (map (fun kv => formatCourse (snd kv)) courseData) in
  {| prompt_program := orElse (orEmpty (profile.program profileData)) "Not specified";
     prompt_career := orElse (orEmpty (profile.career profileData)) "Not specified";
     prompt_interests := orElse (optJoin (profile.interests profileData)) "Not specified";
     prompt_skills := orElse (optJoin (profile.skills profileData)) "Not specified";
     prompt_courses := orElse courseList "No course data available";
     prompt_template := pathwayTemplate |}.

Definition isOpenBrace (c : ascii) : bool := Ascii.eqb c "{".
Definition isCloseBrace (c : ascii) : bool := Ascii.eqb c "}".

(** The pattern of [processPathwayWithAI]: an opening brace, any number of
    characters of any kind, a closing brace. *)
Definition jsonRe : Regex.regex :=
  [Regex.One isOpenBrace; Regex.Star (fun _ => true); Regex.One isCloseBrace].

(** [text.match(jsonRe)], as the matched text [jsonMatch[0]]. *)
Definition jsonMatch (text : string) : option string :=
  match Regex.search jsonRe text with
  | Some (_, ps, _) => Some (Regex.matched ps)
  | None => None
  end.

(** One entry of an [activities] or [milestones] array as a string;
    [None] where [String(it)] raises. *)
Definition entryText (it : value) : option string :=
  match it with
  | VStr s => Some s
  | VObj fields =>
      match Val.assoc "text" fields with
      | Some (VStr t) => Some t
      | _ => Val.toString it
      end
  | _ => Val.toString it
  end.

Fixpoint mapO {A B : Type} (f : A -> option B) (xs : list A) : option (list B) :=
  match xs with
  | [] => Some []
  | x :: rest =>
      match f x, mapO f rest with
      | Some y, Some ys => Some (y :: ys)
      | _, _ => None
      end
  end.

Definition nonBlank (s : string) : bool := 0 <? String.length (Js.trim s).

(** [None] is [undefined]: a falsy argument, or an exception caught (the
    argument has no [map], or an entry has no string form). *)
Definition normalizeStringArray (arr : value) : option (list string) :=
  if negb (Val.truthy arr) then None
  else match arr with
       | VArr items =>
           match mapO entryText items with
           | Some strings => Some (filter nonBlank strings)
           | None => None
           end
       | _ => None
       end.

(** [normalizeStringArray(x) || []] as a value. *)
Definition normalizedField (x : value) : value :=
  VArr (map VStr (match normalizeStringArray x with
                  | Some strings => strings
                  | None => []
                  end)).

Definition normalizeSemester (s : value) : result value :=
  a <~ Val.get s "activities" ;;
  s1 <~ Val.set s "activities" (normalizedField a) ;;
  m <~ Val.get s1 "milestones" ;;
  Val.set s1 "milestones" (normalizedField m).

(** The body of [for (const y of parsed.years)]: [y] after the loop over
    [y.semesters || []].  A string is iterated by its characters; a
    number, [true] or an object is not iterable. *)
Definition normalizeYear (y : value) : result value :=
  sems <~ Val.get y "semesters" ;;
  match Val.or sems (VArr []) with
  | VArr ss =>
      ss' <~ mapR normalizeSemester ss ;;
      if Val.truthy sems then Val.set y "semesters" (VArr ss') else Ok y
  | VStr str =>
      _ <~ mapR normalizeSemester (Val.chars str) ;;
      Ok y
  | _ => Throw TypeError
  end.

Definition normalizeParsed (parsed : value) : result value :=
  if Val.truthy parsed then
    years <~ Val.get parsed "years" ;;
    match years with
    | VArr ys =>
        ys' <~ mapR normalizeYear ys ;;
        Val.set parsed "years" (VArr ys')
    | _ => Ok parsed
    end
  else Ok parsed.

Definition processPathwayWithAI (pathwayTemplate : PathwayTemplate)
           (courseData : CourseMap) (profileData : profile.row) : M value :=
  text <- callModel (buildPrompt pathwayTemplate courseData profileData) ;;
  match jsonMatch text with
  | None => throw NoJsonFound
  | Some json =>
      match JSON_parse env json with
      | None => throw SyntaxError
      | Some parsed => lift (normalizeParsed parsed)
      end
  end.

(** *** Campus lookup *)

Definition campusMatches (campusNameOrId : string) (c : campus.row) : bool :=
  let nameMatch := (Js.toLowerCase (campus.name c) =? Js.toLowerCase campusNameOrId)%string in
  let aliases := match campus.aliases c with Some l => l | None => [] end in
  let aliasMatch :=
    existsb (fun alias => (Js.toLowerCase alias =? Js.toLowerCase campusNameOrId)%string)
            aliases in
  nameMatch || aliasMatch.

Definition getCampusInfo (campusNameOrId : string) : M campus.row :=
  byId <- selectCampusById campusNameOrId ;;
  found <- (if List.length byId =? 0
            then (allCampuses <- selectAllCampuses ;;
                  ret (filter (campusMatches campusNameOrId) allCampuses))
            else ret byId) ;;
  match found with
  | [] => throw (NotFound "campus")
  | c :: _ => ret c
  end.

(** *** The entry operation *)

Definition optStr (s : option string) : value :=
  match s with
  | Some x => Val.or (VStr x) VUndefined
  | None => VUndefined
  end.

Definition optList (l : option (list string)) : value :=
  match l with
  | Some xs => VArr (map VStr xs)
  | None => VUndefined
  end.

Definition falsyStr (s : option string) : bool :=
  match s with
  | Some x => (x =? "")%string
  | None => true
  end.

(** The object literal [finalRoadmap], after the destructuring of the
    processed roadmap (a [TypeError] on [null]).  The spread of the
    remaining own properties comes after the six properties of the literal
    and overrides them.  A property whose value is [undefined] is written
    here as such; the JSON document the store keeps has no such property,
    and [Val.get] reads [undefined] either way. *)
Definition finalRoadmap (processedRoadmap : value) (matchingPathway : PathwayTemplate)
           (campusInfo : campus.row) (profileData : profile.row) : result value :=
  match Val.ownProperties processedRoadmap with
  | None => Throw TypeError
  | Some own =>
      years <~ Val.get processedRoadmap "years" ;;
      let otherFields := Val.remove "years" own in
      pn <~ Val.get processedRoadmap "program_name" ;;
      inst <~ Val.get processedRoadmap "institution" ;;
      tc <~ Val.get processedRoadmap "total_credits" ;;
      let literal :=
        [ ("program_name", Val.or pn (VStr (program_name matchingPathway)));
          ("institution", Val.or inst (VStr (campus.name campusInfo)));
          ("total_credits", Val.or tc (VNum (total_credits matchingPathway)));
          ("career_goal", optStr (profile.career profileData));
          ("interests", optList (profile.interests profileData));
          ("skills", optList (profile.skills profileData)) ] in
      let spread := fold_left (fun o kv => Val.put (fst kv) (snd kv) o) otherFields literal in
      Ok (VObj (Val.put "years" (Val.or years (VArr [])) spread))
  end.

Definition generateAndSaveRoadmap (profileId : Z) : M unit :=
  found <- selectProfile profileId ;;
  match found with
  | [] => throw (NotFound "profile")
  | profileData :: _ =>
      if falsyStr (profile.college profileData) || falsyStr (profile.program profileData)
      then throw MissingFields
      else
        let college := orEmpty (profile.college profileData) in
        let program := orEmpty (profile.program profileData) in
        campusInfo <- getCampusInfo college ;;
        if negb (campus.id campusInfo =? "uh_manoa")%string
        then updateProfile profileId None
        else
          pathwayTemplates <- loadPathwayTemplates ;;
          match findMatchingPathway program pathwayTemplates with
          | None => updateProfile profileId None
          | Some matchingPathway =>
              let pathwayCourses := extractPathwayCourses matchingPathway in
              courseData <- getPathwayCoursesFromDB pathwayCourses (campus.id campusInfo) ;;
              processedRoadmap <- processPathwayWithAI matchingPathway courseData profileData ;;
              roadmap <- lift (finalRoadmap processedRoadmap matchingPathway campusInfo profileData) ;;
              updateProfile profileId (Some roadmap)
          end
  end.

End Pipeline.

(* ================================================================== *)
(** ** A JSON reader

    The theorems below hold for every [JSON_parse].  To run the pipeline on
    concrete responses, [Json.parse] reads the JSON texts whose numbers are
    integers and whose [\u] escapes stay below U+0100, as [JSON.parse]
    does; other texts are not given to it. *)

Module Json.

Definition isWs (c : ascii) : bool :=
  let n := nat_of_ascii c in (n =? 32) || (n =? 9) || (n =? 10) || (n =? 13).

Fixpoint skipWs (s : string) : string :=
  match s with
  | String c s' => if isWs c then skipWs s' else s
  | EmptyString => EmptyString
  end.

Fixpoint stripPrefix (p s : string) : option string :=
  match p, s with
  | EmptyString, _ => Some s
  | String a p', String b s' => if Ascii.eqb a b then stripPrefix p' s' else None
  | _, _ => None
  end.

Definition hexDigit (c : ascii) : option nat :=
  let n := nat_of_ascii c in
  if Js.isDigit c then Some (n - 48)
  else if (97 <=? n) && (n <=? 102) then Some (n - 87)
  else if (65 <=? n) && (n <=? 70) then Some (n - 55)
  else None.

Definition simpleEscape (e : ascii) : option ascii :=
  if Ascii.eqb e "034" then Some "034"%char
  else if Ascii.eqb e "\" then Some "\"%char
  else if Ascii.eqb e "/" then Some "/"%char
  else if Ascii.eqb e "b" then Some "008"%char
  else if Ascii.eqb e "f" then Some "012"%char
  else if Ascii.eqb e "n" then Some "010"%char
  else if Ascii.eqb e "r" then Some "013"%char
  else if Ascii.eqb e "t" then Some "009"%char
  else None.

(** The characters of a string literal after its opening quote, and the
    text after its closing quote. *)
Fixpoint stringBody (s : string) : option (string * string) :=
  match s with
  | EmptyString => None
  | String c s' =>
      if Ascii.eqb c "034" then Some ("", s')
      else if Ascii.eqb c "\" then
        match s' with
        | String "u" (String h1 (String h2 (String h3 (String h4 s'')))) =>
            match hexDigit h1, hexDigit h2, hexDigit h3, hexDigit h4 with
            | Some 0, Some 0, Some c, Some d =>
                option_map (fun '(body, rest) => (String (ascii_of_nat (16 * c + d)) body, rest))
                           (stringBody s'')
            | _, _, _, _ => None
            end
        | String e s'' =>
            match simpleEscape e with
            | Some x => option_map (fun '(body, rest) => (String x body, rest)) (stringBody s'')
            | None => None
            end
        | EmptyString => None
        end
      else if nat_of_ascii c <? 32 then None
      else option_map (fun '(body, rest) => (String c body, rest)) (stringBody s')
  end.

Fixpoint digits (s : string) (acc : Z) : Z * string :=
  match s with
  | String c s' =>
      if Js.isDigit c then digits s' (10 * acc + Z.of_nat (nat_of_ascii c - 48))%Z
      else (acc, s)
  | EmptyString => (acc, s)
  end.

Definition startsFraction (s : string) : bool :=
  match s with
  | String c _ => Ascii.eqb c "." || Ascii.eqb c "e" || Ascii.eqb c "E"
  | EmptyString => false
  end.

(** An integer literal: no leading zero, no fraction and no exponent. *)
Definition natural (s : string) : option (Z * string) :=
  match s with
  | String c s' =>
      if Ascii.eqb c "0" then
        match s' with
        | String d _ => if Js.isDigit d || startsFraction s' then None else Some (0%Z, s')
        | EmptyString => Some (0%Z, s')
        end
      else if Js.isDigit c then
        let '(n, rest) := digits s 0%Z in
        if startsFraction rest then None else Some (n, rest)
      else None
  | EmptyString => None
  end.

(** The first character of [s] is [c]: what follows it. *)
Definition after (c : ascii) (s : string) : option string :=
  match s with
  | String d rest => if Ascii.eqb d c then Some rest else None
  | EmptyString => None
  end.

Definition literal (s : string) : option (value * string) :=
  match stripPrefix "true" s, stripPrefix "false" s, stripPrefix "null" s with
  | Some rest, _, _ => Some (VBool true, rest)
  | _, Some rest, _ => Some (VBool false, rest)
  | _, _, Some rest => Some (VNull, rest)
  | _, _, _ => None
  end.

Fixpoint element (fuel : nat) (s : string) : option (value * string) :=
  match fuel with
  | 0 => None
  | S fuel' =>
      let t := skipWs s in
      match after "{" t, after "[" t, after "034" t, after "-" t with
      | Some r, _, _, _ =>
          match after "}" (skipWs r) with
          | Some r' => Some (VObj [], r')
          | None => option_map (fun '(fs, rest) => (VObj fs, rest)) (members fuel' r [])
          end
      | _, Some r, _, _ =>
          match after "]" (skipWs r) with
          | Some r' => Some (VArr [], r')
          | None => option_map (fun '(xs, rest) => (VArr xs, rest)) (elements fuel' r)
          end
      | _, _, Some r, _ => option_map (fun '(body, rest) => (VStr body, rest)) (stringBody r)
      | _, _, _, Some r => option_map (fun '(n, rest) => (VNum (- n), rest)) (natural r)
      | None, None, None, None =>
          match natural t with
          | Some (n, rest) => Some (VNum n, rest)
          | None => literal t
          end
      end
  end
with elements (fuel : nat) (s : string) : option (list value * string) :=
  match fuel with
  | 0 => None
  | S fuel' =>
      match element fuel' s with
      | Some (x, rest) =>
          match after "," (skipWs rest), after "]" (skipWs rest) with
          | Some r, _ => option_map (fun '(xs, rest') => (x :: xs, rest')) (elements fuel' r)
          | _, Some r => Some ([x], r)
          | None, None => None
          end
      | None => None
      end
  end
with members (fuel : nat) (s : string) (acc : list (string * value))
     : option (list (string * value) * string) :=
  match fuel with
  | 0 => None
  | S fuel' =>
      match after "034" (skipWs s) with
      | Some r =>
          match stringBody r with
          | Some (key, rest) =>
              match after ":" (skipWs rest) with
              | Some r' =>
                  match element fuel' r' with
                  | Some (x, rest') =>
                      let acc' := Val.put key x acc in
                      match after "," (skipWs rest'), after "}" (skipWs rest') with
                      | Some r'', _ => members fuel' r'' acc'
                      | _, Some r'' => Some (acc', r'')
                      | None, None => None
                      end
                  | None => None
                  end
              | None => None
              end
          | None => None
          end
      | None => None
      end
  end.

Definition parse (s : string) : option value :=
  match element (S (String.length s)) s with
  | Some (v, rest) =>
      match skipWs rest with
      | EmptyString => Some v
      | _ => None
      end
  | None => None
  end.

(** Test texts are written with an apostrophe for each double quote. *)
Fixpoint q (s : string) : string :=
  match s with
  | EmptyString => EmptyString
  | String c s' => String (if Ascii.eqb c "'" then "034"%char else c) (q s')
  end.

End Json.

(* ================================================================== *)
(** ** Vocabulary of the properties *)

(** The slot names of a template, in document order. *)
Definition slotNames (t : PathwayTemplate) : list string :=
  flat_map (fun y => flat_map (fun s => map name (courses s)) (semesters y)) (years t).

(** The codes one slot name contributes to the extraction. *)
Definition codesOf (slot : string) : list string :=
  map Js.trim (Regex.matchAll courseCodeRe slot).

(** What one slot name adds to the set built so far. *)
Definition addCodes (courseCodes : list string) (slot : string) : list string :=
  fold_left (fun acc m => setAdd (Js.trim m) acc)
            (Regex.matchAll courseCodeRe slot) courseCodes.

(** Lower-casing and trimming, the normal form of the matcher's specification. *)
Definition normalize (s : string) : string := Js.trim (Js.toLowerCase s).

(** The match policy as the specification words it: all three tiers
    compare the normalized program name with the normalized template name. *)
Definition specTier (tier : nat) (programName : string) (t : PathwayTemplate) : bool :=
  let p := normalize programName in
  let n := normalize (program_name t) in
  match tier with
  | 1 => (n =? p)%string
  | 2 => Js.includes n p
  | _ => Js.includes p n
  end.

(** The tiers as the code tests them: only the first trims the template name. *)
Definition codeTier (tier : nat) (programName : string) (t : PathwayTemplate) : bool :=
  let p := normalize programName in
  match tier with
  | 1 => (normalize (program_name t) =? p)%string
  | 2 => Js.includes (Js.toLowerCase (program_name t)) p
  | _ => Js.includes p (Js.toLowerCase (program_name t))
  end.

(** The first character, if any, is no white space. *)
Definition startsBlack (p : string) : Prop :=
  match p with
  | String c _ => Js.isWhiteSpace c = false
  | EmptyString => True
  end.

(** The first row a filtered [select ... limit 1] returns. *)
Definition lookupProfile (rows : list profile.row) (profileId : Z) : option profile.row :=
  hd_error (filter (fun r => (profile.id r =? profileId)%Z) rows).

(** The campus a college reference resolves to: by identifier first, then
    by name or alias without regard to case. *)
Definition resolveCampus (rows : list campus.row) (campusNameOrId : string)
  : option campus.row :=
  match filter (fun c => (campus.id c =? campusNameOrId)%string) rows with
  | c :: _ => Some c
  | [] => hd_error (filter (campusMatches campusNameOrId) rows)
  end.

(** What the store holds as the roadmap of a profile: [Some None] is a
    stored [null]. *)
Definition storedRoadmap (w : World) (profileId : Z) : option (option value) :=
  option_map profile.roadmap (lookupProfile (profiles w) profileId).

Definition storedUpdatedAt (w : World) (profileId : Z) : option Z :=
  option_map profile.updatedAt (lookupProfile (profiles w) profileId).

(** A property read that cannot raise. *)
Definition field (v : value) (k : string) : value :=
  match Val.get v k with
  | Ok x => x
  | Throw _ => VUndefined
  end.

Definition orDefault (x : option value) (dflt : value) : value :=
  match x with
  | Some v => v
  | None => dflt
  end.

(** The courses of a document, by year and semester: [None] unless
    [years], every [semesters] and every [courses] is an array. *)
Definition semesterCourses (s : value) : option (list value) :=
  match field s "courses" with
  | VArr cs => Some cs
  | _ => None
  end.

Definition yearCourses (y : value) : option (list (list value)) :=
  match field y "semesters" with
  | VArr ss => mapO semesterCourses ss
  | _ => None
  end.

Definition docCourses (doc : value) : option (list (list (list value))) :=
  match field doc "years" with
  | VArr ys => mapO yearCourses ys
  | _ => None
  end.

(** How many years, semesters per year and slots per semester. *)
Definition shapeOf {A : Type} (tree : list (list (list A))) : list (list nat) :=
  map (map (@List.length A)) tree.

Definition templateCourses (t : PathwayTemplate) : list (list (list CourseSlot)) :=
  map (fun y => map courses (semesters y)) (years t).

Definition docShape (doc : value) : option (list (list nat)) :=
  option_map shapeOf (docCourses doc).

(** The first balanced-brace substring of a text, as the specification
    words the extraction: from an opening brace to the closing brace that
    brings the nesting depth back to zero. *)
Fixpoint balancedFrom (s : string) (depth : nat) : option string :=
  match s with
  | EmptyString => None
  | String c s' =>
      if Ascii.eqb c "{" then option_map (String c) (balancedFrom s' (S depth))
      else if Ascii.eqb c "}" then
        match depth with
        | 0 => None
        | 1 => Some (String c "")
        | S d => option_map (String c) (balancedFrom s' d)
        end
      else option_map (String c) (balancedFrom s' depth)
  end.

Fixpoint firstBalancedObject (text : string) : option string :=
  match text with
  | EmptyString => None
  | String c rest =>
      if Ascii.eqb c "{" then
        match balancedFrom text 0 with
        | Some m => Some m
        | None => firstBalancedObject rest
        end
      else firstBalancedObject rest
  end.

Fixpoint hasChar (c : ascii) (s : string) : bool :=
  match s with
  | EmptyString => false
  | String a s' => Ascii.eqb a c || hasChar c s'
  end.

(** The queries whose store operation does not fail, when the first of
    them is operation number [n]. *)
Fixpoint survivors {A : Type} (fault : nat -> bool) (n : nat) (queries : list A) : list A :=
  match queries with
  | [] => []
  | query :: rest =>
      if fault n then survivors fault (S n) rest
      else query :: survivors fault (S n) rest
  end.

(** The enrichment of a list of queries against the rows of a campus. *)
Definition enrich (queries : list (string * string)) (rows : list course.row) : CourseMap :=
  fold_left (fun m query => addCourses m (matchingCourses query rows)) queries [].

Definition campusRows (w : World) (campusId : string) : list course.row :=
  firstn 1000 (filter (fun c => (course.campusId c =? campusId)%string) (courseTable w)).

(** Nothing but the operation counter differs between two worlds. *)
Definition sameData (w w' : World) : Prop :=
  profiles w' = profiles w /\ campuses w' = campuses w /\
  courseTable w' = courseTable w /\ modelCalls w' = modelCalls w.

Definition noFaults (env : Env) : Prop := forall n, storeFault env n = false.

(** *** Normalisation of activities and milestones, as relations *)

(** The string an entry stands for: a bare string is itself, an object
    with a string [text] is that text, anything else is its [String(...)]
    form when it has one. *)
Inductive EntryText : value -> string -> Prop :=
| ET_string (s : string) : EntryText (VStr s) s
| ET_text (fields : list (string * value)) (t : string) :
    Val.assoc "text" fields = Some (VStr t) ->
    EntryText (VObj fields) t
| ET_other (it : value) (s : string) :
    (forall x, it <> VStr x) ->
    (forall fields t, it = VObj fields -> Val.assoc "text" fields <> Some (VStr t)) ->
    Val.toString it = Some s ->
    EntryText it s.

(** The list a field is replaced by: the non-blank texts of its entries
    when it is an array all of whose entries have a text; the empty list
    when some entry has none, and when the field is no array at all
    (absent, [null], a string, a number, an object). *)
Inductive FieldNormalized : value -> list string -> Prop :=
| FN_entries (items : list value) (texts : list string) :
    Forall2 EntryText items texts ->
    FieldNormalized (VArr items) (filter nonBlank texts)
| FN_no_text (items : list value) :
    Exists (fun it => forall s, ~ EntryText it s) items ->
    FieldNormalized (VArr items) []
| FN_not_array (x : value) :
    (forall items, x <> VArr items) ->
    FieldNormalized x [].

Inductive SemesterNormalized : value -> value -> Prop :=
| SN_object (sf : list (string * value)) (acts miles : list string) :
    FieldNormalized (field (VObj sf) "activities") acts ->
    FieldNormalized (field (VObj sf) "milestones") miles ->
    SemesterNormalized
      (VObj sf)
      (VObj (Val.put "milestones" (VArr (map VStr miles))
                     (Val.put "activities" (VArr (map VStr acts)) sf)))
| SN_array (items : list value) :
    SemesterNormalized (VArr items) (VArr items).

Inductive YearNormalized : value -> value -> Prop :=
| YN_semesters (yf : list (string * value)) (ss ss' : list value) :
    Val.assoc "semesters" yf = Some (VArr ss) ->
    Forall2 SemesterNormalized ss ss' ->
    YearNormalized (VObj yf) (VObj (Val.put "semesters" (VArr ss') yf))
| YN_untouched (y : value) :
    Val.truthy (field y "semesters") = false ->
    YearNormalized y y.

(** *** Outcomes of the entry operation *)

(** The model's response to [prompt], parsed and normalised. *)
Definition respond (env : Env) (prompt : Prompt) : result value :=
  text <~ generateText env prompt ;;
  match jsonMatch text with
  | None => Throw NoJsonFound
  | Some json =>
      match JSON_parse env json with
      | None => Throw SyntaxError
      | Some parsed => normalizeParsed parsed
      end
  end.

(** The document synthesis hands to the store. *)
Definition synthesize (env : Env) (t : PathwayTemplate) (c : campus.row) (p : profile.row)
           (prompt : Prompt) : result value :=
  v <~ respond env prompt ;;
  finalRoadmap v t c p.

(** The profile is found, has a college and a program, and its college
    resolves to campus [c]. *)
Definition Resolved (w : World) (profileId : Z) (p : profile.row) (c : campus.row) : Prop :=
  lookupProfile (profiles w) profileId = Some p /\
  falsyStr (profile.college p) = false /\
  falsyStr (profile.program p) = false /\
  resolveCampus (campuses w) (orEmpty (profile.college p)) = Some c.

(** The two short circuits: a campus other than the supported one, or no
    template for the program. *)
Definition ShortCircuit (env : Env) (p : profile.row) (c : campus.row) : Prop :=
  campus.id c <> "uh_manoa" \/
  exists T, pathwayFile env = Some T /\
            findMatchingPathway (orEmpty (profile.program p)) T = None.

Definition Matched (env : Env) (p : profile.row) (c : campus.row) (t : PathwayTemplate) : Prop :=
  campus.id c = "uh_manoa" /\
  exists T, pathwayFile env = Some T /\
            findMatchingPathway (orEmpty (profile.program p)) T = Some t.

(** Why a run can end before synthesis without having written. *)
Definition EarlyCause (env : Env) (w : World) (profileId : Z) : Prop :=
  (exists n, storeFault env n = true) \/
  lookupProfile (profiles w) profileId = None \/
  (exists p, lookupProfile (profiles w) profileId = Some p /\
             falsyStr (profile.college p) || falsyStr (profile.program p) = true) \/
  (exists p, lookupProfile (profiles w) profileId = Some p /\
             resolveCampus (campuses w) (orEmpty (profile.college p)) = None) \/
  (exists p c, Resolved w profileId p c /\ campus.id c = "uh_manoa" /\ pathwayFile env = None).

(** The four ways a run ends. *)
Inductive Outcome (env : Env) (profileId : Z) (w : World) : result unit -> World -> Prop :=
| Out_early (e : error) (w' : World) :
    EarlyCause env w profileId ->
    sameData w w' ->
    Outcome env profileId w (Throw e) w'
| Out_null (p : profile.row) (c : campus.row) (w' : World) :
    Resolved w profileId p c ->
    ShortCircuit env p c ->
    profiles w' = writeRoadmap env profileId None (profiles w) ->
    modelCalls w' = modelCalls w ->
    Outcome env profileId w (Ok tt) w'
| Out_synth_throw (p : profile.row) (c : campus.row) (t : PathwayTemplate)
                  (courseData : CourseMap) (e : error) (w' : World) :
    Resolved w profileId p c ->
    Matched env p c t ->
    modelCalls w' = buildPrompt t courseData p :: modelCalls w ->
    profiles w' = profiles w ->
    (synthesize env t c p (buildPrompt t courseData p) = Throw e \/
     (exists doc, synthesize env t c p (buildPrompt t courseData p) = Ok doc) /\
     e = StoreFault /\ exists n, storeFault env n = true) ->
    Outcome env profileId w (Throw e) w'
| Out_synth_ok (p : profile.row) (c : campus.row) (t : PathwayTemplate)
               (courseData : CourseMap) (doc : value) (w' : World) :
    Resolved w profileId p c ->
    Matched env p c t ->
    modelCalls w' = buildPrompt t courseData p :: modelCalls w ->
    synthesize env t c p (buildPrompt t courseData p) = Ok doc ->
    profiles w' = writeRoadmap env profileId (Some doc) (profiles w) ->
    Outcome env profileId w (Ok tt) w'.


(* ================================================================== *)
(** ** Vocabulary of further properties *)

(** Every character of [s] is in the class. *)
Fixpoint allOf (cls : ascii -> bool) (s : string) : bool :=
  match s with
  | EmptyString => true
  | String c s' => cls c && allOf cls s'
  end.

(** [s] does not go on with a character of the class. *)
Definition stopsAt (cls : ascii -> bool) (s : string) : Prop :=
  match s with
  | EmptyString => True
  | String c _ => cls c = false
  end.

(** The text an atom of a pattern can take. *)
Definition pieceOf (a : Regex.atom) (p : string) : Prop :=
  match a with
  | Regex.One cls => exists c, p = String c "" /\ cls c = true
  | Regex.Plus cls => p <> "" /\ allOf cls p = true
  | Regex.Star cls => allOf cls p = true
  | Regex.End => p = ""
  end.

(** The shape of a course code: letters A-Z, white space, digits, and
    letters A-Z again, the last part alone possibly empty. *)
Definition courseCodeShape (code pre blank digits letters : string) : Prop :=
  code = pre ++ blank ++ digits ++ letters /\
  pre <> "" /\ allOf Js.isUpper pre = true /\
  blank <> "" /\ allOf Js.isWhiteSpace blank = true /\
  digits <> "" /\ allOf Js.isDigit digits = true /\
  allOf Js.isUpper letters = true.

(** *** What a run may touch *)

(** Every run of the computation relates the world before to the world
    after, whatever it returns or throws. *)
Definition keeps {A : Type} (R : World -> World -> Prop) (m : M A) : Prop :=
  forall w, R w (snd (m w)).

(** Two states of a profile row that differ at most in the roadmap and
    its time stamp. *)
Definition sameButRoadmap (r r' : profile.row) : Prop :=
  profile.id r' = profile.id r /\
  profile.college r' = profile.college r /\
  profile.program r' = profile.program r /\
  profile.career r' = profile.career r /\
  profile.interests r' = profile.interests r /\
  profile.skills r' = profile.skills r.

(** The campus and course tables are as they were, no store operation is
    forgotten, no model call is forgotten, and the profile table has the
    same rows in the same order, of which only those of [profileId] may
    differ, and only in the roadmap and its time stamp. *)
Definition touchesOnly (profileId : Z) (w w' : World) : Prop :=
  campuses w' = campuses w /\
  courseTable w' = courseTable w /\
  storeOps w <= storeOps w' /\
  (exists calls, modelCalls w' = (calls ++ modelCalls w)%list) /\
  Forall2 (fun r r' => sameButRoadmap r r' /\ (profile.id r <> profileId -> r' = r))
          (profiles w) (profiles w').

(** *** Why a run throws *)

(** The model raises faults of its own only. *)
Definition modelFaultsOnly (env : Env) : Prop :=
  forall prompt e, generateText env prompt = Throw e -> e = ModelFault.

(** How synthesis on [prompt] comes to raise [e]. *)
Definition synthesisFault (env : Env) (t : PathwayTemplate) (c : campus.row) (p : profile.row)
           (prompt : Prompt) (e : error) : Prop :=
  match e with
  | ModelFault => generateText env prompt = Throw ModelFault
  | NoJsonFound => exists text, generateText env prompt = Ok text /\ jsonMatch text = None
  | SyntaxError =>
      exists text json,
        generateText env prompt = Ok text /\ jsonMatch text = Some json /\
        JSON_parse env json = None
  | TypeError =>
      exists text json parsed,
        generateText env prompt = Ok text /\ jsonMatch text = Some json /\
        JSON_parse env json = Some parsed /\
        (normalizeParsed parsed = Throw TypeError \/
         exists v, normalizeParsed parsed = Ok v /\ finalRoadmap v t c p = Throw TypeError)
  | _ => False
  end.

(** The state of affairs each error of the entry operation stands for. *)
Definition causeOf (env : Env) (w : World) (profileId : Z) (e : error) : Prop :=
  match e with
  | NotFound what =>
      (what = "profile" /\ lookupProfile (profiles w) profileId = None) \/
      (what = "campus" /\
       exists p, lookupProfile (profiles w) profileId = Some p /\
                 falsyStr (profile.college p) = false /\
                 falsyStr (profile.program p) = false /\
                 resolveCampus (campuses w) (orEmpty (profile.college p)) = None)
  | MissingFields =>
      exists p, lookupProfile (profiles w) profileId = Some p /\
                falsyStr (profile.college p) || falsyStr (profile.program p) = true
  | StoreFault => exists n, storeFault env n = true
  | FileFault =>
      exists p c, Resolved w profileId p c /\ campus.id c = "uh_manoa" /\
                  pathwayFile env = None
  | _ =>
      exists p c t courseData,
        Resolved w profileId p c /\ Matched env p c t /\
        synthesisFault env t c p (buildPrompt t courseData p) e
  end.

(** *** The defaults of the final document *)

(** What the literal of [finalRoadmap] gives a response that lacks the
    property: the template's name and credits, the name of the campus,
    and the career, interests and skills of the profile. *)
Definition defaults (t : PathwayTemplate) (c : campus.row) (p : profile.row)
  : list (string * value) :=
  [ ("program_name", VStr (program_name t));
    ("institution", VStr (campus.name c));
    ("total_credits", VNum (total_credits t));
    ("career_goal", optStr (profile.career p));
    ("interests", optList (profile.interests p));
    ("skills", optList (profile.skills p)) ].

(* ================================================================== *)
(** ** Sample data *)

Module Sample.

Definition slot (n : string) : CourseSlot := {| name := n; credits := 3 |}.

Definition template (programName : string) (slots : list string) : PathwayTemplate :=
  {| program_name := programName;
     institution := "University of Hawaii at Manoa";
     total_credits := 120;
     years := [ {| year_number := 1;
                   semesters := [ {| semester_name := fall_semester;
                                     semester_credits := 15;
                                     courses := map slot slots |} ] |} ] |}.

Definition cs : PathwayTemplate :=
  template "Computer Science, B.S." ["ICS 111"; "MATH 215 or 241"; "FW"].

Definition student (college : option string) : profile.row :=
  {| profile.id := 7;
     profile.college := college;
     profile.program := Some "Computer Science, B.S.";
     profile.career := Some "Software Engineer";
     profile.interests := Some ["AI"];
     profile.skills := Some ["Python"];
     profile.roadmap := Some (VObj [("program_name", VStr "previous roadmap")]);
     profile.updatedAt := 100 |}.

Definition manoa : campus.row :=
  {| campus.id := "uh_manoa"; campus.name := "UH Manoa"; campus.aliases := Some ["Manoa"] |}.

Definition hilo : campus.row :=
  {| campus.id := "uh_hilo"; campus.name := "UH Hilo"; campus.aliases := None |}.

Definition ics111 : course.row :=
  {| course.campusId := "uh_manoa"; course.coursePrefix := "ICS"; course.courseNumber := "111";
     course.courseTitle := "Introduction to Computer Science I";
     course.courseDesc := Some "Programming in Java."; course.numUnits := "4" |}.

Definition math215 : course.row :=
  {| course.campusId := "uh_manoa"; course.coursePrefix := "MATH"; course.courseNumber := "215";
     course.courseTitle := "Applied Calculus I";
     course.courseDesc := None; course.numUnits := "4" |}.

Definition world (college : option string) : World :=
  {| profiles := [student college];
     campuses := [hilo; manoa];
     courseTable := [ics111; math215];
     storeOps := 0;
     modelCalls := [] |}.

(** An environment with a working store, one template in the catalog and
    a model that answers [response] to every prompt. *)
Definition env (templates : list PathwayTemplate) (response : string) : Env :=
  {| storeFault := fun _ => false;
     now := 200;
     pathwayFile := Some templates;
     generateText := fun _ => Ok response;
     JSON_parse := Json.parse |}.

(** Model responses. *)
Definition refusal : string := "I am sorry, I cannot produce the pathway.".

Definition complete : string :=
  Json.q "Here is the pathway: {'total_credits':121,'institution':'','years':[{'year_number':1,'semesters':[{'semester_name':'fall_semester','courses':[{'name':'ICS 111','isRelated':null},{'name':'MATH 241','isRelated':null},{'name':'FW','isRelated':null}],'activities':['Join the ACM chapter',{'text':' Attend a hackathon '},'  '],'milestones':['Pass ICS 111','Declare the major']}]}]}".

Definition sparse : string :=
  Json.q "Here is the plan: {'years':[{'semesters':[{'courses':[],'activities':[' Meet your advisor '],'milestones':[]}]}]}".

Definition unprintable : string :=
  Json.q "{'years':[{'semesters':[{'activities':['Join the ACM chapter',{'toString':1}]}]}]}".

Definition twoObjects : string := Json.q "{'years':[]} or else {'years':[]}".

Definition firstObject : string := Json.q "{'years':[]}".

(** The brace-delimited part of a response. *)
Definition jsonOf (response : string) : string :=
  match jsonMatch response with
  | Some json => json
  | None => ""
  end.

(** What [JSON.parse] makes of the brace-delimited part of a response. *)
Definition parsedOf (response : string) : value :=
  match jsonMatch response with
  | Some json => orDefault (Json.parse json) VUndefined
  | None => VUndefined
  end.

Definition fieldsOf (v : value) : list (string * value) :=
  match v with
  | VObj fields => fields
  | _ => []
  end.

Definition yearsOf (v : value) : list value :=
  match field v "years" with
  | VArr ys => ys
  | _ => []
  end.

Definition atManoa : World := world (Some "Manoa").

Definition atHilo : World := world (Some "uh_hilo").

Definition run (response : string) : result unit * World :=
  generateAndSaveRoadmap (env [cs] response) 7 atManoa.

(** The same slots in another order and another semester. *)
Definition csReordered : PathwayTemplate :=
  {| program_name := "Computer Science, B.S.";
     institution := "University of Hawaii at Manoa";
     total_credits := 120;
     years := [ {| year_number := 1;
                   semesters := [ {| semester_name := fall_semester;
                                     semester_credits := 6;
                                     courses := [slot "FW"; slot "ICS 111"] |};
                                  {| semester_name := spring_semester;
                                     semester_credits := 3;
                                     courses := [slot "MATH 215 or 241"] |} ] |} ] |}.

End Sample.

(* ================================================================== *)
(** ** Course-code extraction *)

Section Extraction.

Lemma setAdd_In (x y : string) (s : list string) :
  In y (setAdd x s) <-> y = x \/ In y s.
Proof.
  unfold setAdd. destruct (existsb (String.eqb x) s) eqn:E.
  - split; [now right|]. intros [-> | H]; [|exact H].
    apply existsb_exists in E. destruct E as [z [Hz Ez]].
    apply String.eqb_eq in Ez. now subst.
  - rewrite in_app_iff. simpl. split.
    + intros [H | [H | []]]; [now right | now left].
    + intros [-> | H]; [right; now left | now left].
Qed.

Lemma setAdd_NoDup (x : string) (s : list string) :
  NoDup s -> NoDup (setAdd x s).
Proof.
  intros H. unfold setAdd. destruct (existsb (String.eqb x) s) eqn:E; [exact H|].
  apply NoDup_app; [exact H | repeat constructor; intros [] |].
  intros a Ha [<- | []].
  assert (existsb (String.eqb x) s = true) as E'
      by (apply existsb_exists; exists x; split; [exact Ha | apply String.eqb_refl]).
  congruence.
Qed.

Lemma fold_setAdd_In (f : string -> string) (ms acc : list string) (y : string) :
  In y (fold_left (fun acc m => setAdd (f m) acc) ms acc) <-> In y (map f ms) \/ In y acc.
Proof.
  revert acc. induction ms as [|m ms IH]; intros acc; simpl.
  - tauto.
  - rewrite IH, setAdd_In. intuition congruence.
Qed.

Lemma fold_setAdd_NoDup (f : string -> string) (ms acc : list string) :
  NoDup acc -> NoDup (fold_left (fun acc m => setAdd (f m) acc) ms acc).
Proof.
  revert acc. induction ms as [|m ms IH]; intros acc H; simpl; [exact H|].
  apply IH, setAdd_NoDup, H.
Qed.

Lemma fold_left_flat_map {A B C : Type} (g : A -> C -> A) (h : B -> list C)
      (ys : list B) (acc : A) :
  fold_left (fun acc y => fold_left g (h y) acc) ys acc = fold_left g (flat_map h ys) acc.
Proof.
  revert acc. induction ys as [|y ys IH]; intros acc; simpl; [reflexivity|].
  now rewrite fold_left_app, IH.
Qed.

Lemma fold_left_map {A B C : Type} (g : A -> C -> A) (h : B -> C) (ys : list B) (acc : A) :
  fold_left (fun acc y => g acc (h y)) ys acc = fold_left g (map h ys) acc.
Proof.
  revert acc. induction ys as [|y ys IH]; intros acc; simpl; [reflexivity|]. apply IH.
Qed.

Lemma fold_left_pointwise {A B : Type} (f g : A -> B -> A) (l : list B) (a : A) :
  (forall a b, f a b = g a b) -> fold_left f l a = fold_left g l a.
Proof.
  intros H. revert a. induction l as [|b l IH]; intros a; simpl; [reflexivity|].
  now rewrite H, IH.
Qed.

(** The three nested loops visit the slot names in document order. *)
Lemma extractPathwayCourses_flat (t : PathwayTemplate) :
  extractPathwayCourses t = fold_left addCodes (slotNames t) [].
Proof.
  unfold extractPathwayCourses, slotNames.
  rewrite <- (fold_left_flat_map addCodes).
  apply fold_left_pointwise. intros acc y.
  rewrite <- (fold_left_flat_map addCodes).
  apply fold_left_pointwise. intros acc' s.
  rewrite <- (fold_left_map addCodes). reflexivity.
Qed.

Lemma fold_addCodes_In (slots acc : list string) (c : string) :
  In c (fold_left addCodes slots acc) <->
  (exists slot, In slot slots /\ In c (codesOf slot)) \/ In c acc.
Proof.
  revert acc. induction slots as [|s slots IH]; intros acc; simpl.
  - split; [now right | intros [[? [[] _]] | H]; exact H].
  - rewrite IH. unfold addCodes. rewrite fold_setAdd_In. fold (codesOf s). split.
    + intros [[slot [Hs Hc]] | [H | H]]; eauto.
    + intros [[slot [[<- | Hs] Hc]] | H]; eauto.
Qed.

Lemma fold_addCodes_NoDup (slots acc : list string) :
  NoDup acc -> NoDup (fold_left addCodes slots acc).
Proof.
  revert acc. induction slots as [|s slots IH]; intros acc H; simpl; [exact H|].
  apply IH. unfold addCodes. apply fold_setAdd_NoDup, H.
Qed.

(** A code is extracted exactly when some slot name contributes it. *)
Lemma extractPathwayCourses_In (t : PathwayTemplate) (c : string) :
  In c (extractPathwayCourses t) <-> exists slot, In slot (slotNames t) /\ In c (codesOf slot).
Proof.
  rewrite extractPathwayCourses_flat, fold_addCodes_In. simpl. tauto.
Qed.

Lemma extractPathwayCourses_NoDup (t : PathwayTemplate) : NoDup (extractPathwayCourses t).
Proof.
  rewrite extractPathwayCourses_flat. apply fold_addCodes_NoDup. constructor.
Qed.

End Extraction.

(** C9.  Extraction is a function of the template alone; its result holds
    no code twice; and two templates whose slot names are the same
    multiset (in whatever order, in whatever years and semesters) yield the
    same set of codes: a code is extracted from the one exactly when it is
    extracted from the other. *)
Theorem extraction_depends_on_slot_multiset (t1 t2 : PathwayTemplate)
        (Hslots : Permutation (slotNames t1) (slotNames t2)) :
  NoDup (extractPathwayCourses t1) /\
  NoDup (extractPathwayCourses t2) /\
  forall c, In c (extractPathwayCourses t1) <-> In c (extractPathwayCourses t2).
Proof.
  split; [apply extractPathwayCourses_NoDup|].
  split; [apply extractPathwayCourses_NoDup|].
  intros c. rewrite !extractPathwayCourses_In.
  split; intros [slot [Hs Hc]]; exists slot; split; try exact Hc.
  - eapply Permutation_in; [exact Hslots | exact Hs].
  - eapply Permutation_in; [apply Permutation_sym; exact Hslots | exact Hs].
Qed.

(* ================================================================== *)
(** ** Template matching *)

Lemma findMatchingPathway_tiers (p : string) (T : list PathwayTemplate) :
  findMatchingPathway p T =
  match find (codeTier 1 p) T with
  | Some t => Some t
  | None => match find (codeTier 2 p) T with
            | Some t => Some t
            | None => find (codeTier 3 p) T
            end
  end.
Proof. reflexivity. Qed.

Lemma first_hit (p : string) (T : list PathwayTemplate) :
  (forall t, findMatchingPathway p T = Some t <->
             exists k, (k = 1 \/ k = 2 \/ k = 3) /\
                       find (codeTier k p) T = Some t /\
                       forall j, 1 <= j < k -> find (codeTier j p) T = None) /\
  (findMatchingPathway p T = None <->
   forall t, In t T -> codeTier 1 p t = false /\ codeTier 2 p t = false /\ codeTier 3 p t = false).
Proof.
  rewrite findMatchingPathway_tiers. split.
  - intros t. split.
    + destruct (find (codeTier 1 p) T) eqn:E1.
      { intros H. exists 1. split; [auto | split; [congruence | intros j Hj; lia]]. }
      destruct (find (codeTier 2 p) T) eqn:E2.
      { intros H. exists 2. split; [auto | split; [congruence | intros j Hj]].
        assert (j = 1) as -> by lia. exact E1. }
      intros H. exists 3. split; [auto | split; [exact H | intros j Hj]].
      assert (j = 1 \/ j = 2) as [-> | ->] by lia; assumption.
    + intros [k [[-> | [-> | ->]] [Hk Hlt]]].
      * now rewrite Hk.
      * rewrite (Hlt 1) by lia. now rewrite Hk.
      * rewrite (Hlt 1), (Hlt 2) by lia. exact Hk.
  - split.
    + destruct (find (codeTier 1 p) T) eqn:E1; [discriminate|].
      destruct (find (codeTier 2 p) T) eqn:E2; [discriminate|].
      intros E3 t Ht. repeat split; eapply find_none; eauto.
    + intros H.
      assert (forall k, find (codeTier k p) T = None \/
                        exists t, In t T /\ codeTier k p t = true) as Hfind.
      { intros k. destruct (find (codeTier k p) T) eqn:E; [right | now left].
        apply find_some in E. eauto. }
      destruct (Hfind 1) as [-> | [t [Ht E]]];
        [| destruct (H t Ht) as [? _]; congruence].
      destruct (Hfind 2) as [-> | [t [Ht E]]];
        [| destruct (H t Ht) as [_ [? _]]; congruence].
      destruct (Hfind 3) as [-> | [t [Ht E]]];
        [reflexivity | destruct (H t Ht) as [_ [_ ?]]; congruence].
Qed.

(** The matcher returns the first template, in catalog order, of the
    earliest tier that any template passes, the tiers being those the code
    tests; it returns none exactly when no template passes any tier. *)
Theorem findMatchingPathway_first_hit (p : string) (T : list PathwayTemplate) :
  (forall t, findMatchingPathway p T = Some t <->
             exists k, (k = 1 \/ k = 2 \/ k = 3) /\
                       find (codeTier k p) T = Some t /\
                       forall j, 1 <= j < k -> find (codeTier j p) T = None) /\
  (findMatchingPathway p T = None <->
   forall t, In t T -> codeTier 1 p t = false /\ codeTier 2 p t = false /\ codeTier 3 p t = false).
Proof. exact (first_hit p T). Qed.

Section Trimming.

Local Open Scope string_scope.

Lemma prefix_iff (t s : string) :
  String.prefix t s = true <-> exists b, s = t ++ b.
Proof.
  revert s. induction t as [|c t IH]; intros [|d s]; cbn [String.prefix append].
  - split; [intros _; now exists "" | reflexivity].
  - split; [intros _; now exists (String d s) | reflexivity].
  - split; [discriminate | intros [b Hb]; discriminate].
  - destruct (Ascii.ascii_dec c d) as [<- | Hne].
    + rewrite IH. split; intros [b Hb]; exists b; congruence.
    + split; [discriminate | intros [b Hb]; congruence].
Qed.

(** [s.includes(t)] holds exactly when [t] lies between some prefix and
    some suffix of [s]. *)
Lemma includes_iff (s t : string) :
  Js.includes s t = true <-> exists a b, s = a ++ t ++ b.
Proof.
  induction s as [|c s IH]; cbn [Js.includes].
  - rewrite orb_false_r, prefix_iff. split.
    + intros [b Hb]. now exists "", b.
    + intros [a [b H]]. destruct a; [now exists b | discriminate].
  - rewrite orb_true_iff, prefix_iff, IH. split.
    + intros [[b Hb] | [a [b H]]]; [now exists "", b | exists (String c a), b; cbn; congruence].
    + intros [[|d a] [b H]]; [left; now exists b | right].
      cbn in H. injection H as _ H. eauto.
Qed.

Lemma append_assoc (a b c : string) : (a ++ b) ++ c = a ++ b ++ c.
Proof. induction a as [|x a IH]; cbn; [reflexivity | now rewrite IH]. Qed.

Lemma append_empty_r (a : string) : a ++ "" = a.
Proof. induction a as [|x a IH]; cbn; [reflexivity | now rewrite IH]. Qed.

Lemma includes_trans (s t u : string) :
  Js.includes s t = true -> Js.includes t u = true -> Js.includes s u = true.
Proof.
  rewrite !includes_iff. intros (a & b & ->) (a' & b' & ->).
  exists (a ++ a'), (b' ++ b). now rewrite !append_assoc.
Qed.

Lemma trimStart_suffix (s : string) : exists l, s = l ++ Js.trimStart s.
Proof.
  induction s as [|c s [l IH]]; cbn [Js.trimStart]; [now exists ""|].
  destruct (Js.isWhiteSpace c); [|now exists ""].
  exists (String c l). cbn. congruence.
Qed.

Lemma trimEnd_prefix (s : string) : exists r, s = Js.trimEnd s ++ r.
Proof.
  induction s as [|c s [r IH]]; cbn [Js.trimEnd]; [now exists ""|].
  destruct (Js.trimEnd s) as [|d t] eqn:E.
  - destruct (Js.isWhiteSpace c); [now exists (String c s)|].
    exists s. reflexivity.
  - exists r. cbn. cbn in IH. congruence.
Qed.

(** A string contains its trimmed form. *)
Lemma includes_trim (s : string) : Js.includes s (Js.trim s) = true.
Proof.
  apply includes_iff. unfold Js.trim.
  destruct (trimStart_suffix s) as [l Hl]. destruct (trimEnd_prefix (Js.trimStart s)) as [r Hr].
  exists l, r. rewrite <- Hr. exact Hl.
Qed.

Lemma trimStart_startsBlack (s : string) : startsBlack (Js.trimStart s).
Proof.
  induction s as [|c s IH]; cbn [Js.trimStart]; [exact I|].
  destruct (Js.isWhiteSpace c) eqn:E; [exact IH | exact E].
Qed.

Lemma trimEnd_startsBlack (s : string) : startsBlack s -> startsBlack (Js.trimEnd s).
Proof.
  destruct s as [|c s]; cbn [Js.trimEnd startsBlack]; [trivial|].
  intros H. destruct (Js.trimEnd s); [now rewrite H | exact H].
Qed.

Lemma trimEnd_idempotent (s : string) : Js.trimEnd (Js.trimEnd s) = Js.trimEnd s.
Proof.
  induction s as [|c s IH]; cbn [Js.trimEnd]; [reflexivity|].
  destruct (Js.trimEnd s) as [|d t] eqn:E.
  - destruct (Js.isWhiteSpace c) eqn:Ec; cbn [Js.trimEnd]; [reflexivity | now rewrite Ec].
  - cbn [Js.trimEnd] in *. now rewrite IH.
Qed.

Lemma trimEnd_app_blank (x y : string) :
  Js.trimEnd y = "" -> Js.trimEnd (x ++ y) = Js.trimEnd x.
Proof.
  intros H. induction x as [|c x IH]; cbn [append Js.trimEnd]; [exact H | now rewrite IH].
Qed.

Lemma trimEnd_app_black (x y : string) :
  Js.trimEnd y <> "" -> Js.trimEnd (x ++ y) = x ++ Js.trimEnd y.
Proof.
  intros H. induction x as [|c x IH]; cbn [append Js.trimEnd]; [reflexivity|].
  rewrite IH. destruct (x ++ Js.trimEnd y) eqn:E; [|reflexivity].
  destruct x; [|discriminate]. cbn in E. contradiction.
Qed.

Lemma trimStart_keeps (a p b : string) :
  startsBlack p -> p <> "" -> exists a', Js.trimStart (a ++ p ++ b) = a' ++ p ++ b.
Proof.
  intros Hp Hne. induction a as [|c a [a' IH]]; cbn [append].
  - exists "". destruct p as [|d p]; [contradiction|]. cbn in *. now rewrite Hp.
  - cbn [Js.trimStart]. destruct (Js.isWhiteSpace c); [now exists a'|].
    now exists (String c a).
Qed.

Lemma trimEnd_keeps (a p b : string) :
  Js.trimEnd p = p -> p <> "" -> exists b', Js.trimEnd (a ++ p ++ b) = a ++ p ++ b'.
Proof.
  intros Hp Hne. destruct (Js.trimEnd b) as [|d t] eqn:Eb.
  - exists "". rewrite trimEnd_app_black.
    + rewrite trimEnd_app_blank, Hp by exact Eb.
      now rewrite append_empty_r.
    + rewrite trimEnd_app_blank, Hp by exact Eb. exact Hne.
  - exists (String d t). rewrite trimEnd_app_black.
    + rewrite trimEnd_app_black by (rewrite Eb; discriminate). now rewrite Eb.
    + rewrite trimEnd_app_black by (rewrite Eb; discriminate).
      destruct p; [contradiction | discriminate].
Qed.

(** Containing a trimmed text is the same before and after trimming. *)
Lemma includes_trimmed (n q : string) :
  Js.includes n (Js.trim q) = Js.includes (Js.trim n) (Js.trim q).
Proof.
  apply eq_true_iff_eq. split; intros H.
  - destruct (Js.trim q) as [|c p] eqn:Ep.
    + apply includes_iff. now exists "", (Js.trim n).
    + assert (startsBlack (Js.trim q)) as Hs
          by (apply trimEnd_startsBlack, trimStart_startsBlack).
      assert (Js.trimEnd (Js.trim q) = Js.trim q) as He by apply trimEnd_idempotent.
      rewrite Ep in Hs, He.
      apply includes_iff in H as (a & b & ->). apply includes_iff. unfold Js.trim.
      destruct (trimStart_keeps a (String c p) b Hs) as [a' ->]; [discriminate|].
      destruct (trimEnd_keeps a' (String c p) b He) as [b' ->]; [discriminate|].
      now exists a', b'.
  - eapply includes_trans; [apply includes_trim | exact H].
Qed.

End Trimming.

Lemma tiers_compared (p : string) (t : PathwayTemplate) :
  codeTier 1 p t = specTier 1 p t /\
  codeTier 2 p t = specTier 2 p t /\
  (codeTier 3 p t = true -> specTier 3 p t = true).
Proof.
  unfold codeTier, specTier, normalize. split; [reflexivity|]. split.
  - apply includes_trimmed.
  - intros H. eapply includes_trans; [exact H | apply includes_trim].
Qed.

(** The first two tiers of the code are those of the specification: a
    trimmed program name occurs in a template name exactly when it occurs
    in the trimmed template name.  The third tier of the code is stronger
    than the specification's: it demands the surrounding white space of the
    template name as well. *)
Theorem code_tiers_against_specification (p : string) (t : PathwayTemplate) :
  codeTier 1 p t = specTier 1 p t /\
  codeTier 2 p t = specTier 2 p t /\
  (codeTier 3 p t = true -> specTier 3 p t = true).
Proof. exact (tiers_compared p t). Qed.

(** Whatever the matcher returns is a template of the catalog that passes
    the specification's policy. *)
Theorem findMatchingPathway_sound (p : string) (T : list PathwayTemplate) (t : PathwayTemplate) :
  findMatchingPathway p T = Some t ->
  In t T /\ (specTier 1 p t = true \/ specTier 2 p t = true \/ specTier 3 p t = true).
Proof.
  intros H. apply (proj1 (first_hit p T)) in H.
  destruct H as (k & Hk & Hfind & _). apply find_some in Hfind as [Hin Htier].
  split; [exact Hin|].
  destruct (tiers_compared p t) as (H1 & H2 & H3).
  destruct Hk as [-> | [-> | ->]]; [left | right; left | right; right]; auto; congruence.
Qed.

(** C1.  A template whose name ends in a space, and a program name that
    contains the template's trimmed, lower-cased name: the specification's
    third tier holds, the first tier (which trims the template name) does
    not, and the matcher returns none, because its third tier compares
    with the lower-cased but untrimmed name. *)
Theorem reverse_containment_skips_trim :
  specTier 3 "Computer Science, B.S." (Sample.template "Computer Science " []) = true /\
  codeTier 3 "Computer Science, B.S." (Sample.template "Computer Science " []) = false /\
  findMatchingPathway "Computer Science, B.S." [Sample.template "Computer Science " []] = None.
Proof. repeat split; vm_compute; reflexivity. Qed.

(* ================================================================== *)
(** ** Finding the JSON text in the response *)

Section JsonMatch.

Local Open Scope string_scope.

Lemma hasChar_app (c : ascii) (s t : string) :
  hasChar c (s ++ t) = hasChar c s || hasChar c t.
Proof.
  induction s as [|a s IH]; simpl; [reflexivity|]. now rewrite IH, orb_assoc.
Qed.

(** The greedy class gives characters back until a closing brace
    follows: it stops before the last closing brace. *)
Lemma greedy_last_brace (s : string) :
  match Regex.greedy (fun _ => true) (Regex.matchAt [Regex.One isCloseBrace]) s with
  | Some (p, (ps, rest)) => s = p ++ "}" ++ rest /\ ps = ["}"] /\ hasChar "}" rest = false
  | None => hasChar "}" s = false
  end.
Proof.
  induction s as [|a s IH]; cbn [Regex.greedy Regex.matchAt option_map hasChar];
    [reflexivity|].
  destruct (Regex.greedy (fun _ => true) _ s) as [[p [ps rest]]|].
  - destruct IH as [-> [-> Hrest]]. auto.
  - rewrite IH, orb_false_r. unfold isCloseBrace.
    destruct (Ascii.eqb a "}") eqn:E; cbn [option_map]; [|reflexivity].
    apply Ascii.eqb_eq in E. subst a. auto.
Qed.

Lemma last_brace_unique (p p' rest rest' : string) :
  p ++ "}" ++ rest = p' ++ "}" ++ rest' ->
  hasChar "}" rest = false -> hasChar "}" rest' = false ->
  p = p' /\ rest = rest'.
Proof.
  revert p'. induction p as [|a p IH]; intros [|a' p'] E Hr Hr'; simpl in E.
  - injection E as ->. auto.
  - injection E as <- ->. rewrite hasChar_app in Hr. simpl in Hr.
    rewrite orb_true_r in Hr. discriminate.
  - injection E as -> <-. rewrite hasChar_app in Hr'. simpl in Hr'.
    rewrite orb_true_r in Hr'. discriminate.
  - injection E as -> E. destruct (IH _ E Hr Hr') as [-> ->]. auto.
Qed.

(** A match of the pattern at the head of [s]. *)
Lemma matchAt_json (s : string) :
  match Regex.matchAt jsonRe s with
  | Some (ps, rest) =>
      exists mid, s = "{" ++ mid ++ "}" ++ rest /\ Regex.matched ps = "{" ++ mid ++ "}" /\
                  hasChar "}" rest = false
  | None => match s with
            | String a s' => a <> "{"%char \/ hasChar "}" s' = false
            | EmptyString => True
            end
  end.
Proof.
  destruct s as [|a s]; cbn [jsonRe Regex.matchAt]; [exact I|].
  unfold isOpenBrace. destruct (Ascii.eqb a "{") eqn:E.
  - apply Ascii.eqb_eq in E. subst a.
    pose proof (greedy_last_brace s) as G.
    destruct (Regex.greedy _ _ s) as [[p [ps rest]]|]; cbn [option_map].
    + destruct G as [-> [-> Hrest]]. exists p. repeat split; auto.
    + now right.
  - left. intros ->. discriminate.
Qed.

Lemma search_json_sound (text pre : string) (ps : list string) (rest : string) :
  Regex.search jsonRe text = Some (pre, ps, rest) ->
  exists mid, text = pre ++ "{" ++ mid ++ "}" ++ rest /\
              Regex.matched ps = "{" ++ mid ++ "}" /\
              hasChar "{" pre = false /\ hasChar "}" rest = false.
Proof.
  revert pre. induction text as [|a s IH]; intros pre H.
  - cbn in H. discriminate.
  - cbn [Regex.search] in H. pose proof (matchAt_json (String a s)) as M.
    destruct (Regex.matchAt jsonRe (String a s)) as [[ps0 rest0]|].
    + injection H as <- <- <-. destruct M as [mid [E [Em Hr]]].
      exists mid. repeat split; auto.
    + destruct (Regex.search jsonRe s) as [[[pre' ps'] rest']|] eqn:Es; [|discriminate].
      cbn in H. injection H as <- <- <-.
      destruct (IH _ eq_refl) as [mid [E [Em [Hp Hr]]]].
      exists mid. split; [cbn; now rewrite E|]. split; [exact Em|]. split; [|exact Hr].
      cbn. rewrite Hp, orb_false_r. destruct M as [M | M].
      * destruct (Ascii.eqb a "{") eqn:Ea; [|reflexivity].
        apply Ascii.eqb_eq in Ea. contradiction.
      * rewrite E in M. rewrite !hasChar_app in M. cbn in M.
        rewrite !orb_true_r in M. discriminate.
Qed.

Lemma search_json_complete (pre mid post : string) :
  hasChar "{" pre = false -> hasChar "}" post = false ->
  exists ps, Regex.search jsonRe (pre ++ "{" ++ mid ++ "}" ++ post) = Some (pre, ps, post) /\
             Regex.matched ps = "{" ++ mid ++ "}".
Proof.
  intros Hpre Hpost. induction pre as [|a pre IH].
  - cbn [append Regex.search].
    pose proof (matchAt_json (String "{" (mid ++ String "}" post))) as M.
    destruct (Regex.matchAt jsonRe (String "{" (mid ++ String "}" post))) as [[ps rest]|].
    + destruct M as [mid' [E [Em Hr]]]. cbn in E. injection E as E.
      destruct (last_brace_unique _ _ _ _ E Hpost Hr) as [-> ->].
      exists ps. auto.
    + cbn in M. destruct M as [M | M]; [congruence|].
      rewrite hasChar_app in M. cbn in M. rewrite orb_true_r in M. discriminate.
  - cbn in Hpre. apply orb_false_iff in Hpre as [Ha Hpre].
    destruct (IH Hpre) as [ps [Es Em]]. exists ps. split; [|exact Em].
    change ((String a pre ++ "{" ++ mid ++ "}" ++ post))
      with (String a (pre ++ "{" ++ mid ++ "}" ++ post)).
    cbn [Regex.search jsonRe Regex.matchAt]. unfold isOpenBrace at 1. rewrite Ha.
    fold jsonRe. rewrite Es. reflexivity.
Qed.

End JsonMatch.

(** C8.  The text handed to the parser runs from the first opening brace
    of the response to its last closing brace: [jsonMatch text] is [m]
    exactly when the text is some [pre], then [m], then some [post], where
    [m] opens with a brace and closes with one, [pre] holds no opening
    brace and [post] no closing brace.  No brace counting takes place. *)
Theorem jsonMatch_widest_span (text m : string) :
  jsonMatch text = Some m <->
  exists pre mid post,
    text = pre ++ "{" ++ mid ++ "}" ++ post /\ m = "{" ++ mid ++ "}" /\
    hasChar "{" pre = false /\ hasChar "}" post = false.
Proof.
  unfold jsonMatch. split.
  - destruct (Regex.search jsonRe text) as [[[pre ps] rest]|] eqn:E; [|discriminate].
    intros H. injection H as <-.
    destruct (search_json_sound _ _ _ _ E) as [mid [Et [Em [Hp Hr]]]].
    exists pre, mid, rest. auto.
  - intros [pre [mid [post [-> [-> [Hp Hr]]]]]].
    destruct (search_json_complete pre mid post Hp Hr) as [ps [-> ->]]. reflexivity.
Qed.

(* ================================================================== *)
(** ** Catalog lookup *)

Section Lookup.

Variable env : Env.

Lemma assoc_put {A : Type} (k k' : string) (v : A) (m : list (string * A)) :
  Val.assoc k (Val.put k' v m) = if (k' =? k)%string then Some v else Val.assoc k m.
Proof.
  induction m as [|[k0 v0] m IH]; cbn [Val.put Val.assoc].
  - destruct (k' =? k)%string; reflexivity.
  - destruct (k0 =? k')%string eqn:E0; cbn [Val.assoc].
    + apply String.eqb_eq in E0. subst k0. destruct (k' =? k)%string; reflexivity.
    + rewrite IH. destruct (k0 =? k)%string eqn:E1; [|reflexivity].
      apply String.eqb_eq in E1. subst k0. now rewrite String.eqb_sym, E0.
Qed.

Lemma sameData_trans (w1 w2 w3 : World) :
  sameData w1 w2 -> sameData w2 w3 -> sameData w1 w3.
Proof. unfold sameData. intuition congruence. Qed.

Lemma sameData_tick (w : World) : sameData w (tick w).
Proof. repeat split. Qed.

(** The loop issues one store operation per query; a query whose
    operation fails leaves the map as it was, and the loop goes on. *)
Lemma lookupCourses_run (queries : list (string * string)) (campusId : string) :
  forall (m : CourseMap) (w : World),
  exists w',
    lookupCourses env queries campusId m w =
      (Ok (fold_left (fun m query => addCourses m (matchingCourses query (campusRows w campusId)))
                     (survivors (storeFault env) (storeOps w) queries) m), w') /\
    storeOps w' = storeOps w + List.length queries /\
    sameData w w'.
Proof.
  induction queries as [|query rest IH]; intros m w.
  - exists w. cbn. rewrite Nat.add_0_r. repeat split.
  - cbn [lookupCourses survivors].
    unfold bind at 1, tryCatch, bind at 1, selectCourses, bind at 1, storeOp.
    destruct (storeFault env (storeOps w)) eqn:F.
    + destruct (IH m (tick w)) as [w' [E [Hops Hsame]]].
      exists w'. unfold ret at 1. rewrite E. split; [reflexivity|]. split.
      * rewrite Hops. cbn. lia.
      * eapply sameData_trans; [apply sameData_tick | exact Hsame].
    + destruct (IH (addCourses m (matchingCourses query (campusRows w campusId))) (tick w))
        as [w' [E [Hops Hsame]]].
      exists w'. unfold ret at 1. cbn [fold_left].
      split; [exact E|]. split.
      * rewrite Hops. cbn. lia.
      * eapply sameData_trans; [apply sameData_tick | exact Hsame].
Qed.

Lemma addCourses_assoc (rows : list course.row) (m : CourseMap) (k : string) :
  (exists info, Val.assoc k (addCourses m rows) = Some info) <->
  (exists c, In c rows /\ courseKey c = k) \/ (exists info, Val.assoc k m = Some info).
Proof.
  unfold addCourses. revert m. induction rows as [|c rows IH]; intros m; cbn [fold_left].
  - split; [now right | intros [[c [[] _]] | H]; exact H].
  - rewrite IH, assoc_put. split.
    + intros [[c' [Hc Hk]] | H].
      * left. exists c'. split; [now right | exact Hk].
      * destruct (courseKey c =? k)%string eqn:E; [|now right].
        apply String.eqb_eq in E. left. exists c. split; [now left | exact E].
    + intros [[c' [[<- | Hc] Hk]] | H].
      * right. rewrite <- Hk, String.eqb_refl. eauto.
      * left. eauto.
      * right. destruct (courseKey c =? k)%string; eauto.
Qed.

Lemma enrich_assoc (queries : list (string * string)) (rows : list course.row) (k : string) :
  (exists info, Val.assoc k (enrich queries rows) = Some info) <->
  exists query c, In query queries /\ In c (matchingCourses query rows) /\ courseKey c = k.
Proof.
  unfold enrich.
  assert (forall m,
             (exists info, Val.assoc k (fold_left (fun m query => addCourses m (matchingCourses query rows)) queries m) = Some info) <->
             (exists query c, In query queries /\ In c (matchingCourses query rows) /\ courseKey c = k)
             \/ (exists info, Val.assoc k m = Some info)) as G.
  { induction queries as [|query rest IH]; intros m; cbn [fold_left].
    - split; [now right | intros [[? [? [[] _]]] | H]; exact H].
    - rewrite IH, addCourses_assoc. split.
      + intros [[q' [c [Hq [Hc Hk]]]] | [[c [Hc Hk]] | H]].
        * left. exists q', c. split; [now right | auto].
        * left. exists query, c. split; [now left | auto].
        * now right.
      + intros [[q' [c [[<- | Hq] [Hc Hk]]]] | H].
        * right. left. eauto.
        * left. eauto.
        * right. now right. }
  rewrite G. cbn. split; [intros [H | [? H]]; [exact H | discriminate] | now left].
Qed.

Lemma getPathwayCoursesFromDB_run (courseCodes : list string) (campusId : string)
      (w : World) :
  exists w',
    getPathwayCoursesFromDB env courseCodes campusId w =
      (Ok (enrich (survivors (storeFault env) (storeOps w)
                             (filterMap parseCourseCode courseCodes))
                  (campusRows w campusId)), w') /\
    storeOps w' = storeOps w + List.length (filterMap parseCourseCode courseCodes) /\
    sameData w w'.
Proof.
  unfold getPathwayCoursesFromDB.
  destruct courseCodes as [|code codes].
  - exists w. cbn. rewrite Nat.add_0_r. repeat split.
  - cbn [List.length Nat.eqb].
    destruct (filterMap parseCourseCode (code :: codes)) as [|query queries] eqn:Q.
    + exists w. cbn. rewrite Nat.add_0_r. repeat split.
    + cbn [List.length Nat.eqb].
      destruct (lookupCourses_run (query :: queries) campusId [] w) as [w' H].
      exists w'. exact H.
Qed.

End Lookup.

(** C10.  Whatever store operations fail, the catalog lookup returns
    normally; it issues one operation for every well-formed code, those
    after a failure included; the map it returns is the enrichment of
    exactly the codes whose operation did not fail: a key is in the map
    when and only when one of those codes has a catalog row of the campus
    with that prefix and number; and the tables are left as they were. *)
Theorem lookup_faults_are_skipped (env : Env) (courseCodes : list string)
        (campusId : string) (w : World) :
  exists w',
    getPathwayCoursesFromDB env courseCodes campusId w =
      (Ok (enrich (survivors (storeFault env) (storeOps w) (filterMap parseCourseCode courseCodes))
                  (campusRows w campusId)), w') /\
    storeOps w' = storeOps w + List.length (filterMap parseCourseCode courseCodes) /\
    sameData w w' /\
    forall k,
      (exists info, Val.assoc k (enrich (survivors (storeFault env) (storeOps w)
                                                   (filterMap parseCourseCode courseCodes))
                                        (campusRows w campusId)) = Some info) <->
      exists query c,
        In query (survivors (storeFault env) (storeOps w) (filterMap parseCourseCode courseCodes)) /\
        In c (matchingCourses query (campusRows w campusId)) /\ courseKey c = k.
Proof.
  destruct (getPathwayCoursesFromDB_run env courseCodes campusId w) as [w' [E [Hops Hsame]]].
  exists w'. repeat split; try apply Hsame; try assumption; apply enrich_assoc.
Qed.

(* ================================================================== *)
(** ** The entry operation, path by path *)

Section Run.

Variable env : Env.

Lemma bind_run {A B : Type} (m : M A) (k : A -> M B) (w : World) :
  bind m k w = match m w with
               | (Ok a, w') => k a w'
               | (Throw e, w') => (Throw e, w')
               end.
Proof. reflexivity. Qed.

Lemma selectProfile_run (profileId : Z) (w : World) :
  selectProfile env profileId w =
    (if storeFault env (storeOps w) then Throw StoreFault
     else Ok (firstn 1 (filter (fun r => (profile.id r =? profileId)%Z) (profiles w))),
     tick w).
Proof.
  unfold selectProfile, bind, storeOp. destruct (storeFault env (storeOps w)); reflexivity.
Qed.

Lemma updateProfile_run (profileId : Z) (newRoadmap : option value) (w : World) :
  exists w',
    storeOps w' = S (storeOps w) /\ campuses w' = campuses w /\
    courseTable w' = courseTable w /\ modelCalls w' = modelCalls w /\
    if storeFault env (storeOps w)
    then updateProfile env profileId newRoadmap w = (Throw StoreFault, w') /\
         profiles w' = profiles w
    else updateProfile env profileId newRoadmap w = (Ok tt, w') /\
         profiles w' = writeRoadmap env profileId newRoadmap (profiles w).
Proof.
  unfold updateProfile, bind, storeOp. destruct (storeFault env (storeOps w)).
  - exists (tick w). repeat split.
  - exists {| profiles := writeRoadmap env profileId newRoadmap (profiles w);
              campuses := campuses w; courseTable := courseTable w;
              storeOps := S (storeOps w); modelCalls := modelCalls w |}.
    repeat split.
Qed.

(** The campus lookup: a store fault, or the campus the reference
    resolves to. *)
Lemma getCampusInfo_run (campusNameOrId : string) (w : World) :
  exists r w',
    getCampusInfo env campusNameOrId w = (r, w') /\ sameData w w' /\
    ((r = Throw StoreFault /\ exists n, storeFault env n = true) \/
     r = match resolveCampus (campuses w) campusNameOrId with
         | Some c => Ok c
         | None => Throw (NotFound "campus")
         end).
Proof.
  unfold getCampusInfo, resolveCampus.
  unfold bind at 1, selectCampusById, bind at 1, storeOp.
  destruct (storeFault env (storeOps w)) eqn:F.
  - do 2 eexists. split; [reflexivity|]. split; [apply sameData_tick|]. left. eauto.
  - cbn [campuses tick].
    destruct (filter (fun c => (campus.id c =? campusNameOrId)%string) (campuses w))
      as [|c l] eqn:Ef.
    + cbn [firstn List.length Nat.eqb].
      unfold bind at 1, bind at 1, selectAllCampuses, bind at 1, storeOp.
      cbn [storeOps tick].
      destruct (storeFault env (S (storeOps w))) eqn:F'.
      * do 2 eexists. split; [reflexivity|]. split; [repeat split|]. left. eauto.
      * cbn [campuses tick]. unfold ret at 1.
        destruct (filter (campusMatches campusNameOrId) (campuses w)) as [|c l];
          do 2 eexists; (split; [reflexivity|]); (split; [repeat split|]); now right.
    + cbn [firstn List.length Nat.eqb]. unfold bind, ret.
      do 2 eexists. split; [reflexivity|]. split; [apply sameData_tick|]. now right.
Qed.

Lemma processPathwayWithAI_run (t : PathwayTemplate) (courseData : CourseMap)
      (p : profile.row) (w : World) :
  exists w',
    processPathwayWithAI env t courseData p w = (respond env (buildPrompt t courseData p), w') /\
    modelCalls w' = buildPrompt t courseData p :: modelCalls w /\
    profiles w' = profiles w /\ storeOps w' = storeOps w.
Proof.
  unfold processPathwayWithAI, respond, bind, callModel, rbind.
  exists {| profiles := profiles w; campuses := campuses w; courseTable := courseTable w;
            storeOps := storeOps w;
            modelCalls := buildPrompt t courseData p :: modelCalls w |}.
  split; [|repeat split].
  destruct (generateText env (buildPrompt t courseData p)) as [text|e]; [|reflexivity].
  destruct (jsonMatch text) as [json|]; [|reflexivity].
  destruct (JSON_parse env json); reflexivity.
Qed.

End Run.

Section Outcomes.

Variable env : Env.

Lemma cons_neq_self {A : Type} (x : A) (l : list A) : x :: l <> l.
Proof.
  intros H. apply (f_equal (@List.length A)) in H. cbn in H. lia.
Qed.

(** Every run ends in one of the four ways. *)
Lemma generateAndSaveRoadmap_outcome (profileId : Z) (w : World)
      (r : result unit) (w' : World) :
  generateAndSaveRoadmap env profileId w = (r, w') -> Outcome env profileId w r w'.
Proof.
  intros H. unfold generateAndSaveRoadmap in H.
  rewrite bind_run, selectProfile_run in H.
  destruct (storeFault env (storeOps w)) eqn:F0.
  { injection H as <- <-. apply Out_early; [left; eauto | apply sameData_tick]. }
  destruct (filter (fun r => (profile.id r =? profileId)%Z) (profiles w)) as [|p l] eqn:Ef;
    cbn [firstn] in H.
  { injection H as <- <-. apply Out_early; [| apply sameData_tick].
    right; left. unfold lookupProfile. now rewrite Ef. }
  assert (lookupProfile (profiles w) profileId = Some p) as Hp
      by (unfold lookupProfile; now rewrite Ef).
  destruct (falsyStr (profile.college p) || falsyStr (profile.program p)) eqn:Efalsy.
  { injection H as <- <-. apply Out_early; [| apply sameData_tick].
    right; right; left. eauto. }
  apply orb_false_iff in Efalsy as [Hcol Hprog].
  rewrite bind_run in H.
  destruct (getCampusInfo_run env (orEmpty (profile.college p)) (tick w))
    as (rc & w1 & Ec & Hs1 & Hrc).
  rewrite Ec in H.
  assert (sameData w w1) as Hw1
      by (eapply sameData_trans; [apply sameData_tick | exact Hs1]).
  destruct Hrc as [[-> Hf] | ->].
  { injection H as <- <-. apply Out_early; [now left | exact Hw1]. }
  cbn [campuses tick] in H.
  destruct (resolveCampus (campuses w) (orEmpty (profile.college p))) as [c|] eqn:Er.
  2:{ injection H as <- <-. apply Out_early; [| exact Hw1].
      right; right; right; left. eauto. }
  assert (Resolved w profileId p c) as Hres by (repeat split; assumption).
  destruct Hw1 as (Hw1p & Hw1c & Hw1t & Hw1m).
  assert (ShortCircuit env p c -> updateProfile env profileId None w1 = (r, w') ->
          Outcome env profileId w r w') as Hnull.
  { intros Hsc Hu.
    destruct (updateProfile_run env profileId None w1) as (w2 & _ & Hc2 & Ht2 & Hm2 & Hcase).
    destruct (storeFault env (storeOps w1)) eqn:F1; destruct Hcase as [Eu Hp2];
      rewrite Eu in Hu; injection Hu as <- <-.
    - apply Out_early; [left; eauto | repeat split; congruence].
    - eapply Out_null; eauto; congruence. }
  destruct (negb (campus.id c =? "uh_manoa")%string) eqn:Eid.
  { apply Hnull; [unfold ShortCircuit; left | exact H].
    apply negb_true_iff in Eid. now apply String.eqb_neq. }
  apply negb_false_iff, String.eqb_eq in Eid.
  rewrite bind_run in H. unfold loadPathwayTemplates in H.
  destruct (pathwayFile env) as [T|] eqn:ET.
  2:{ injection H as <- <-. apply Out_early; [| repeat split; assumption].
      unfold EarlyCause. do 4 right. eauto. }
  unfold ret in H.
  destruct (findMatchingPathway (orEmpty (profile.program p)) T) as [t|] eqn:Efind.
  2:{ apply Hnull; [unfold ShortCircuit; right; eauto | exact H]. }
  assert (Matched env p c t) as Hmatch by (split; eauto).
  rewrite bind_run in H.
  destruct (getPathwayCoursesFromDB_run env (extractPathwayCourses t) (campus.id c) w1)
    as (w2 & Eg & _ & Hw2p & Hw2c & Hw2t & Hw2m).
  rewrite Eg in H. rewrite bind_run in H.
  match type of H with
  | context [processPathwayWithAI env t ?cd p w2] =>
      destruct (processPathwayWithAI_run env t cd p w2) as (w3 & Ep & Hw3m & Hw3p & _);
      remember cd as courseData eqn:Ecd
  end.
  rewrite Ep in H.
  destruct (respond env (buildPrompt t courseData p)) as [v|e] eqn:Eresp.
  2:{ injection H as <- <-.
      apply (Out_synth_throw env profileId w p c t courseData);
        [exact Hres | exact Hmatch | congruence | congruence |].
      left. unfold synthesize. now rewrite Eresp. }
  rewrite bind_run in H. unfold lift in H.
  destruct (finalRoadmap v t c p) as [doc|e] eqn:Efinal.
  2:{ injection H as <- <-.
      apply (Out_synth_throw env profileId w p c t courseData);
        [exact Hres | exact Hmatch | congruence | congruence |].
      left. unfold synthesize. rewrite Eresp. exact Efinal. }
  assert (synthesize env t c p (buildPrompt t courseData p) = Ok doc) as Hsyn
      by (unfold synthesize; rewrite Eresp; exact Efinal).
  destruct (updateProfile_run env profileId (Some doc) w3) as (w4 & _ & _ & _ & Hm4 & Hcase).
  destruct (storeFault env (storeOps w3)) eqn:F3; destruct Hcase as [Eu Hp4];
    rewrite Eu in H; injection H as <- <-.
  - apply (Out_synth_throw env profileId w p c t courseData);
      [exact Hres | exact Hmatch | congruence | congruence |].
    right. eauto.
  - apply (Out_synth_ok env profileId w p c t courseData doc);
      [exact Hres | exact Hmatch | congruence | exact Hsyn | congruence].
Qed.

End Outcomes.

(* ================================================================== *)
(** ** Normalisation of the parsed response *)

Section Normalisation.

Lemma assoc_put_same {A : Type} (k : string) (v : A) (m : list (string * A)) :
  Val.assoc k (Val.put k v m) = Some v.
Proof. now rewrite assoc_put, String.eqb_refl. Qed.

Lemma assoc_put_other {A : Type} (k k' : string) (v : A) (m : list (string * A)) :
  k' <> k -> Val.assoc k (Val.put k' v m) = Val.assoc k m.
Proof.
  intros H. rewrite assoc_put. apply String.eqb_neq in H. now rewrite H.
Qed.

Lemma entryText_sound (it : value) (s : string) :
  entryText it = Some s -> EntryText it s.
Proof.
  destruct it as [| |b|n|x|items|fields]; cbn [entryText]; intros H;
    try (apply ET_other; [intros ? ?; discriminate | intros ? ? ?; discriminate | exact H]).
  - injection H as <-. constructor.
  - destruct (Val.assoc "text" fields) as [v|] eqn:E.
    + destruct v;
        try (apply ET_other;
             [intros ? ?; discriminate
             | intros ? ? [= <-]; rewrite E; discriminate
             | exact H]).
      injection H as <-. now apply ET_text.
    + apply ET_other; [intros ? ?; discriminate | | exact H].
      intros ? ? [= <-]. rewrite E. discriminate.
Qed.

Lemma entryText_complete (it : value) (s : string) :
  EntryText it s -> entryText it = Some s.
Proof.
  intros [x | fields t E | v x Hs Ht E].
  - reflexivity.
  - cbn [entryText]. now rewrite E.
  - destruct v as [| |b|n|y|items|fields]; cbn [entryText]; try exact E.
    destruct (Val.assoc "text" fields) as [[]|] eqn:Ea; try exact E.
    now destruct (Ht fields s0).
Qed.

Lemma mapO_Forall2 {A B : Type} (f : A -> option B) (R : A -> B -> Prop) :
  (forall a b, f a = Some b -> R a b) ->
  forall xs ys, mapO f xs = Some ys -> Forall2 R xs ys.
Proof.
  intros H. induction xs as [|x xs IH]; intros ys E; cbn [mapO] in E.
  - injection E as <-. constructor.
  - destruct (f x) as [y|] eqn:Ex; [|discriminate].
    destruct (mapO f xs) as [ys'|]; [|discriminate].
    injection E as <-. constructor; auto.
Qed.

Lemma mapO_None_Exists {A B : Type} (f : A -> option B) (xs : list A) :
  mapO f xs = None -> Exists (fun x => f x = None) xs.
Proof.
  induction xs as [|x xs IH]; cbn [mapO]; [discriminate|].
  destruct (f x) as [y|] eqn:Ex; [|intros _; now left].
  destruct (mapO f xs); [discriminate|]. intros _. right. now apply IH.
Qed.

(** The code's field normalisation meets the relation. *)
Lemma normalizedField_spec (x : value) :
  exists out, normalizedField x = VArr (map VStr out) /\ FieldNormalized x out.
Proof.
  unfold normalizedField, normalizeStringArray.
  destruct x as [| |b|n|s|items|fields];
    try (exists []; split;
         [ now destruct (negb (Val.truthy _))
         | apply FN_not_array; intros ? ?; discriminate ]).
  cbn [Val.truthy negb].
  destruct (mapO entryText items) as [texts|] eqn:E.
  - exists (filter nonBlank texts). split; [reflexivity|].
    apply FN_entries. eapply mapO_Forall2; [apply entryText_sound | exact E].
  - exists []. split; [reflexivity|]. apply FN_no_text.
    apply mapO_None_Exists in E. eapply Exists_impl; [|exact E].
    intros it Hit s Hs. apply entryText_complete in Hs. congruence.
Qed.

Lemma FieldNormalized_nonBlank (x : value) (out : list string) :
  FieldNormalized x out -> Forall (fun s => nonBlank s = true) out.
Proof.
  intros [items texts _ | items _ | y _]; try constructor.
  apply Forall_forall. intros s Hs. now apply filter_In in Hs.
Qed.

(** A semester that is an object never raises, whatever its fields. *)
Lemma normalizeSemester_object (sf : list (string * value)) :
  exists acts miles,
    normalizeSemester (VObj sf) =
      Ok (VObj (Val.put "milestones" (VArr (map VStr miles))
                        (Val.put "activities" (VArr (map VStr acts)) sf))) /\
    FieldNormalized (field (VObj sf) "activities") acts /\
    FieldNormalized (field (VObj sf) "milestones") miles.
Proof.
  destruct (normalizedField_spec (field (VObj sf) "activities")) as [acts [Ea Ha]].
  destruct (normalizedField_spec (field (VObj sf) "milestones")) as [miles [Em Hm]].
  exists acts, miles. split; [|split; assumption].
  unfold normalizeSemester, field in *. cbn [Val.get Val.set rbind] in *.
  assert (forall a, match Val.assoc "milestones" (Val.put "activities" a sf) with
                    | Some x => Ok x
                    | None => Ok VUndefined
                    end =
                    match Val.assoc "milestones" sf with
                    | Some x => Ok x
                    | None => Ok VUndefined
                    end) as Hk
      by (intros a; rewrite assoc_put_other; [reflexivity | discriminate]).
  destruct (Val.assoc "activities" sf) as [a|]; cbn [rbind];
    rewrite Ea, Hk; destruct (Val.assoc "milestones" sf) as [m|];
    cbn [rbind]; now rewrite Em.
Qed.

Lemma normalizeSemester_sound (s s' : value) :
  normalizeSemester s = Ok s' -> SemesterNormalized s s'.
Proof.
  destruct s as [| |b|n|x|items|sf]; try discriminate.
  - intros [= <-]. constructor.
  - destruct (normalizeSemester_object sf) as (acts & miles & E & Ha & Hm).
    rewrite E. intros [= <-]. now constructor.
Qed.

Lemma mapR_Forall2 {A B : Type} (f : A -> result B) (R : A -> B -> Prop) :
  (forall a b, f a = Ok b -> R a b) ->
  forall xs ys, mapR f xs = Ok ys -> Forall2 R xs ys.
Proof.
  intros H. induction xs as [|x xs IH]; intros ys E; cbn [mapR rbind] in E.
  - injection E as <-. constructor.
  - destruct (f x) as [y|] eqn:Ex; [|discriminate]. cbn [rbind] in E.
    destruct (mapR f xs) as [ys'|]; [|discriminate]. cbn [rbind] in E.
    injection E as <-. constructor; auto.
Qed.

Lemma normalizeYear_sound (y y' : value) :
  normalizeYear y = Ok y' -> YearNormalized y y'.
Proof.
  unfold normalizeYear.
  destruct (Val.get y "semesters") as [sems|] eqn:Eg; [|discriminate]. cbn [rbind].
  assert (field y "semesters" = sems) as Ef by (unfold field; now rewrite Eg).
  unfold Val.or. destruct (Val.truthy sems) eqn:Et.
  - destruct sems as [| |b|n|str|ss|o]; try discriminate.
    + destruct str as [|ch str]; [discriminate|]. cbn. discriminate.
    + destruct (mapR normalizeSemester ss) as [ss'|] eqn:Em; [|discriminate].
      cbn [rbind]. destruct y as [| |b|n|x|items|yf]; try discriminate.
      cbn [Val.set]. intros [= <-]. cbn [Val.get] in Eg.
      apply (YN_semesters yf ss ss').
      * destruct (Val.assoc "semesters" yf); congruence.
      * eapply mapR_Forall2; [apply normalizeSemester_sound | exact Em].
  - cbn [mapR rbind]. intros [= <-]. apply YN_untouched. now rewrite Ef.
Qed.

(** A response whose [years] is an array is an object; normalisation
    rewrites its years in place and nothing else. *)
Lemma normalizeParsed_years (parsed v : value) (ys : list value) :
  field parsed "years" = VArr ys ->
  normalizeParsed parsed = Ok v ->
  exists fields ys',
    parsed = VObj fields /\ v = VObj (Val.put "years" (VArr ys') fields) /\
    Forall2 YearNormalized ys ys'.
Proof.
  intros Hy H. destruct parsed as [| |b|n|x|items|fields]; try discriminate.
  unfold field in Hy. unfold normalizeParsed in H.
  cbn [Val.truthy] in H. destruct (Val.get (VObj fields) "years") as [yv|]; [|discriminate].
  subst yv. cbn [rbind] in H.
  destruct (mapR normalizeYear ys) as [ys'|] eqn:Em; [|discriminate].
  cbn [rbind Val.set] in H. injection H as <-.
  exists fields, ys'. repeat split.
  eapply mapR_Forall2; [apply normalizeYear_sound | exact Em].
Qed.

(** Without an array of years, normalisation changes nothing. *)
Lemma normalizeParsed_other (parsed v : value) :
  (forall ys, field parsed "years" <> VArr ys) ->
  normalizeParsed parsed = Ok v -> v = parsed.
Proof.
  intros Hy. unfold normalizeParsed.
  destruct (Val.truthy parsed); [|now intros [= <-]].
  unfold field in Hy. destruct (Val.get parsed "years") as [yv|]; [|discriminate].
  cbn [rbind]. destruct yv; try (now intros [= <-]). now destruct (Hy items).
Qed.

End Normalisation.

(* ================================================================== *)
(** ** Merging and persisting *)

Section Merge.

Variable env : Env.

Lemma assoc_None {A : Type} (k : string) (m : list (string * A)) :
  ~ In k (map fst m) -> Val.assoc k m = None.
Proof.
  induction m as [|[k0 v0] m IH]; cbn [Val.assoc map fst In]; [reflexivity|].
  intros H. destruct (k0 =? k)%string eqn:E.
  - apply String.eqb_eq in E. tauto.
  - apply IH. tauto.
Qed.

Lemma assoc_remove {A : Type} (k k' : string) (m : list (string * A)) :
  k <> k' -> Val.assoc k (Val.remove k' m) = Val.assoc k m.
Proof.
  intros H. unfold Val.remove.
  induction m as [|[k0 v0] m IH]; cbn [filter Val.assoc fst]; [reflexivity|].
  destruct (k0 =? k')%string eqn:E'; cbn [negb Val.assoc].
  - apply String.eqb_eq in E'. subst k0.
    assert ((k' =? k)%string = false) as -> by (apply String.eqb_neq; congruence).
    exact IH.
  - now rewrite IH.
Qed.

Lemma remove_keys_NoDup {A : Type} (k' : string) (m : list (string * A)) :
  NoDup (map fst m) -> NoDup (map fst (Val.remove k' m)).
Proof.
  unfold Val.remove. induction m as [|[k0 v0] m IH]; cbn [filter map fst]; intros H.
  - constructor.
  - inversion H as [|? ? Hnotin Hrest]; subst.
    destruct (negb (k0 =? k')%string); [|now apply IH].
    cbn [map fst]. constructor; [|now apply IH].
    intros Hin. apply Hnotin. apply in_map_iff in Hin as [[k1 v1] [<- Hin]].
    apply filter_In in Hin as [Hin _]. apply in_map_iff. now exists (k1, v1).
Qed.

(** Spreading an object over a literal: its properties win. *)
Lemma assoc_spread {A : Type} (k : string) (other literal : list (string * A)) :
  NoDup (map fst other) ->
  Val.assoc k (fold_left (fun o kv => Val.put (fst kv) (snd kv) o) other literal) =
  match Val.assoc k other with
  | Some x => Some x
  | None => Val.assoc k literal
  end.
Proof.
  revert literal. induction other as [|[k0 v0] rest IH]; intros literal H;
    cbn [fold_left Val.assoc fst snd]; [reflexivity|].
  inversion H as [|? ? Hnotin Hrest]; subst. rewrite (IH _ Hrest).
  destruct (k0 =? k)%string eqn:E.
  - apply String.eqb_eq in E. subst k0.
    rewrite (assoc_None k rest Hnotin). apply assoc_put_same.
  - apply String.eqb_neq in E. now rewrite assoc_put_other.
Qed.

Lemma lookupProfile_written (profileId : Z) (newRoadmap : option value)
      (rows : list profile.row) :
  lookupProfile (writeRoadmap env profileId newRoadmap rows) profileId =
  option_map (setRoadmap env newRoadmap) (lookupProfile rows profileId).
Proof.
  unfold lookupProfile, writeRoadmap.
  induction rows as [|r rows IH]; cbn [map filter]; [reflexivity|].
  destruct (profile.id r =? profileId)%Z eqn:E.
  - cbn [setRoadmap profile.id]. rewrite E. reflexivity.
  - rewrite E. exact IH.
Qed.

(** The years of the final document are those of the processed roadmap,
    or the empty array. *)
Lemma finalRoadmap_years (v : value) (t : PathwayTemplate) (c : campus.row)
      (p : profile.row) (doc : value) :
  finalRoadmap v t c p = Ok doc ->
  field doc "years" = Val.or (field v "years") (VArr []).
Proof.
  unfold finalRoadmap, field.
  destruct (Val.ownProperties v) as [own|]; [|discriminate].
  destruct (Val.get v "years") as [years|]; [|discriminate]. cbn [rbind].
  destruct (Val.get v "program_name") as [pn|]; [|discriminate]. cbn [rbind].
  destruct (Val.get v "institution") as [inst|]; [|discriminate]. cbn [rbind].
  destruct (Val.get v "total_credits") as [tc|]; [|discriminate]. cbn [rbind].
  intros [= <-]. cbn [Val.get]. now rewrite assoc_put_same.
Qed.

(** The three reconciled fields of the final document, for a processed
    roadmap that is an object. *)
Lemma finalRoadmap_fallbacks (fields : list (string * value)) (t : PathwayTemplate)
      (c : campus.row) (p : profile.row) (doc : value) :
  NoDup (map fst fields) ->
  finalRoadmap (VObj fields) t c p = Ok doc ->
  field doc "program_name" =
    orDefault (Val.assoc "program_name" fields) (VStr (program_name t)) /\
  field doc "institution" =
    orDefault (Val.assoc "institution" fields) (VStr (campus.name c)) /\
  field doc "total_credits" =
    orDefault (Val.assoc "total_credits" fields) (VNum (total_credits t)).
Proof.
  intros Hnd. unfold finalRoadmap. cbn [Val.ownProperties Val.get].
  set (years := match Val.assoc "years" fields with Some x => x | None => VUndefined end).
  assert (forall k, match Val.assoc k fields with
                    | Some x => Ok x
                    | None => Ok VUndefined
                    end = Ok (orDefault (Val.assoc k fields) VUndefined)) as Hget
      by (intros k; now destruct (Val.assoc k fields)).
  rewrite !Hget. cbn [rbind]. intros [= <-].
  unfold field. cbn [Val.get].
  assert (forall k, k <> "years" ->
            Val.assoc k (Val.remove "years" fields) = Val.assoc k fields) as Hrm
      by (intros; now apply assoc_remove).
  pose proof (remove_keys_NoDup "years" fields Hnd) as Hnd'.
  repeat split.
  - rewrite assoc_put_other by discriminate. rewrite (assoc_spread _ _ _ Hnd').
    rewrite Hrm by discriminate.
    destruct (Val.assoc "program_name" fields); reflexivity.
  - rewrite assoc_put_other by discriminate. rewrite (assoc_spread _ _ _ Hnd').
    rewrite Hrm by discriminate.
    destruct (Val.assoc "institution" fields); reflexivity.
  - rewrite assoc_put_other by discriminate. rewrite (assoc_spread _ _ _ Hnd').
    rewrite Hrm by discriminate.
    destruct (Val.assoc "total_credits" fields); reflexivity.
Qed.

End Merge.

(* ================================================================== *)
(** ** Successful synthesis *)

Section Synthesis.

Variable env : Env.

Lemma put_keys_In {A : Type} (k k' : string) (v : A) (m : list (string * A)) :
  In k' (map fst (Val.put k v m)) <-> k' = k \/ In k' (map fst m).
Proof.
  induction m as [|[k0 v0] m IH]; cbn [Val.put map fst In].
  - intuition congruence.
  - destruct (k0 =? k)%string eqn:E; cbn [map fst In].
    + apply String.eqb_eq in E. subst k0. intuition congruence.
    + rewrite IH. tauto.
Qed.

Lemma put_keys_NoDup {A : Type} (k : string) (v : A) (m : list (string * A)) :
  NoDup (map fst m) -> NoDup (map fst (Val.put k v m)).
Proof.
  induction m as [|[k0 v0] m IH]; cbn [Val.put map fst]; intros H.
  - repeat constructor. intros [].
  - inversion H as [|? ? Hnotin Hrest]; subst.
    destruct (k0 =? k)%string eqn:E; cbn [map fst].
    + now constructor.
    + constructor; [|now apply IH]. rewrite put_keys_In.
      apply String.eqb_neq in E. intros [-> | Hin]; tauto.
Qed.

Lemma semesterCourses_normalized (s s' : value) :
  SemesterNormalized s s' -> semesterCourses s' = semesterCourses s.
Proof.
  intros [sf acts miles _ _ | items]; [|reflexivity].
  unfold semesterCourses, field. cbn [Val.get].
  now rewrite !assoc_put_other by discriminate.
Qed.

Lemma mapO_Forall2_eq {A B : Type} (f : A -> option B) (R : A -> A -> Prop) :
  (forall a a', R a a' -> f a' = f a) ->
  forall xs xs', Forall2 R xs xs' -> mapO f xs' = mapO f xs.
Proof.
  intros H xs xs' F. induction F as [|a a' xs xs' Ha _ IH]; [reflexivity|].
  cbn [mapO]. now rewrite (H _ _ Ha), IH.
Qed.

Lemma yearCourses_normalized (y y' : value) :
  YearNormalized y y' -> yearCourses y' = yearCourses y.
Proof.
  intros [yf ss ss' E F | y0 _]; [|reflexivity].
  unfold yearCourses, field. cbn [Val.get]. rewrite assoc_put_same, E.
  eapply mapO_Forall2_eq; [apply semesterCourses_normalized | exact F].
Qed.

(** Normalisation keeps the tree of years, semesters and courses. *)
Lemma docCourses_normalized (parsed v : value) (tree : list (list (list value))) :
  docCourses parsed = Some tree ->
  normalizeParsed parsed = Ok v ->
  docCourses v = Some tree.
Proof.
  intros Ht Hn. unfold docCourses in Ht.
  destruct (field parsed "years") as [| | | | |ys|] eqn:Ey; try discriminate.
  destruct (normalizeParsed_years _ _ _ Ey Hn) as (fields & ys' & -> & -> & F).
  unfold docCourses, field. cbn [Val.get]. rewrite assoc_put_same.
  rewrite <- Ht. eapply mapO_Forall2_eq; [apply yearCourses_normalized | exact F].
Qed.

Lemma docCourses_final (v : value) (t : PathwayTemplate) (c : campus.row)
      (p : profile.row) (doc : value) (tree : list (list (list value))) :
  docCourses v = Some tree ->
  finalRoadmap v t c p = Ok doc ->
  docCourses doc = Some tree.
Proof.
  intros Ht Hf. unfold docCourses in *.
  rewrite (finalRoadmap_years _ _ _ _ _ Hf).
  destruct (field v "years"); try discriminate. exact Ht.
Qed.

(** A run that succeeds after calling the model has parsed and
    normalised the response, merged it and written the result. *)
Lemma synthesis_success (profileId : Z) (w w' : World) (prompt : Prompt)
      (text json : string) (parsed : value) :
  generateAndSaveRoadmap env profileId w = (Ok tt, w') ->
  modelCalls w' = prompt :: modelCalls w ->
  generateText env prompt = Ok text ->
  jsonMatch text = Some json ->
  JSON_parse env json = Some parsed ->
  exists p c t v doc,
    Resolved w profileId p c /\ Matched env p c t /\
    normalizeParsed parsed = Ok v /\ finalRoadmap v t c p = Ok doc /\
    profiles w' = writeRoadmap env profileId (Some doc) (profiles w) /\
    storedRoadmap w' profileId = Some (Some doc).
Proof.
  intros Hrun Hcalls Htext Hjson Hparse.
  apply generateAndSaveRoadmap_outcome in Hrun.
  inversion Hrun as [| p c w0 _ _ _ Hm | | p c t cd doc w0 Hres Hmat Hm Hsyn Hp]; subst.
  - rewrite Hm in Hcalls. symmetry in Hcalls. now apply cons_neq_self in Hcalls.
  - rewrite Hm in Hcalls. injection Hcalls as <-.
    unfold synthesize, respond in Hsyn. rewrite Htext in Hsyn. cbn [rbind] in Hsyn.
    rewrite Hjson, Hparse in Hsyn.
    destruct (normalizeParsed parsed) as [v|] eqn:Ev; [|discriminate].
    cbn [rbind] in Hsyn. exists p, c, t, v, doc. repeat split; try assumption;
      try apply Hres; try apply Hmat.
    unfold storedRoadmap. rewrite Hp, lookupProfile_written.
    destruct Hres as [-> _]. reflexivity.
Qed.

End Synthesis.

(* ================================================================== *)
(** ** Properties of the entry operation *)

Lemma Resolved_functional (w : World) (profileId : Z) (p p' : profile.row)
      (c c' : campus.row) :
  Resolved w profileId p c -> Resolved w profileId p' c' -> p = p' /\ c = c'.
Proof.
  intros (Hp & _ & _ & Hc) (Hp' & _ & _ & Hc').
  assert (p = p') as <- by congruence. split; congruence.
Qed.

Lemma normalizeParsed_object (fields : list (string * value)) (v : value) :
  normalizeParsed (VObj fields) = Ok v ->
  exists fields',
    v = VObj fields' /\
    (NoDup (map fst fields) -> NoDup (map fst fields')) /\
    forall k, k <> "years" -> Val.assoc k fields' = Val.assoc k fields.
Proof.
  intros H. destruct (field (VObj fields) "years") as [| | | | |ys|] eqn:Ey.
  6:{ destruct (normalizeParsed_years _ _ _ Ey H) as (f & ys' & [= <-] & -> & _).
      eexists. split; [reflexivity|]. split; [apply put_keys_NoDup|].
      intros k Hk. apply assoc_put_other. congruence. }
  all: apply normalizeParsed_other in H; [|intros ys; rewrite Ey; discriminate];
    subst v; exists fields; auto.
Qed.

(** C2.  When the profile found lacks its college or its program, and when
    the run reached the model and the model's text holds no brace-delimited
    substring or one that does not parse, the operation throws and the
    profile table is what it was before the call: the stored roadmap and
    the modification time of the profile are unchanged. *)
Theorem failed_run_writes_nothing (env : Env) (profileId : Z) (w : World)
        (r : result unit) (w' : World)
        (Hrun : generateAndSaveRoadmap env profileId w = (r, w'))
        (Hfail :
           (exists p, lookupProfile (profiles w) profileId = Some p /\
                      falsyStr (profile.college p) || falsyStr (profile.program p) = true) \/
           (exists prompt text,
               modelCalls w' = prompt :: modelCalls w /\
               generateText env prompt = Ok text /\
               (jsonMatch text = None \/
                exists json, jsonMatch text = Some json /\ JSON_parse env json = None))) :
  (exists e, r = Throw e) /\
  profiles w' = profiles w /\
  storedRoadmap w' profileId = storedRoadmap w profileId /\
  storedUpdatedAt w' profileId = storedUpdatedAt w profileId.
Proof.
  assert ((exists e, r = Throw e) /\ profiles w' = profiles w) as [He Hp].
  { apply generateAndSaveRoadmap_outcome in Hrun.
    assert (forall p c, Resolved w profileId p c ->
                        modelCalls w' <> modelCalls w ->
                        exists prompt text,
                          modelCalls w' = prompt :: modelCalls w /\
                          generateText env prompt = Ok text /\
                          (jsonMatch text = None \/
                           exists json, jsonMatch text = Some json /\ JSON_parse env json = None))
      as Hbad.
    { intros p c (Hp & Hc & Hg & _) Hneq.
      destruct Hfail as [(p' & Hp' & Hf) | Hf]; [|exact Hf].
      assert (p' = p) as -> by congruence. rewrite Hc, Hg in Hf. discriminate. }
    inversion Hrun as [e w0 _ Hs | p c w0 Hres _ _ Hm
                       | p c t cd e w0 _ _ _ Hpr _ | p c t cd doc w0 Hres _ Hm Hsyn _]; subst.
    - split; [eauto | apply Hs].
    - destruct (Hbad p c Hres) as (prompt & text & Hc & _).
      + intros _. destruct Hfail as [(p' & Hp' & Hf) | (prompt & text & Hc & _)].
        * destruct Hres as (Hp & Hc & Hg & _).
          assert (p' = p) as -> by congruence. rewrite Hc, Hg in Hf. discriminate.
        * rewrite Hm in Hc. symmetry in Hc. now apply cons_neq_self in Hc.
      + rewrite Hm in Hc. symmetry in Hc. now apply cons_neq_self in Hc.
    - split; [eauto | exact Hpr].
    - destruct (Hbad p c Hres) as (prompt & text & Hc & Ht & Hj).
      + rewrite Hm. apply cons_neq_self.
      + rewrite Hm in Hc. injection Hc as <-.
        unfold synthesize, respond in Hsyn. rewrite Ht in Hsyn. cbn [rbind] in Hsyn.
        destruct Hj as [Hj | (json & Hj & Hparse)]; rewrite Hj in Hsyn;
          [|rewrite Hparse in Hsyn]; discriminate. }
  unfold storedRoadmap, storedUpdatedAt. rewrite Hp. auto.
Qed.

(** A run that throws has written nothing, whatever made it throw. *)
Theorem thrown_run_writes_nothing (env : Env) (profileId : Z) (w : World)
        (e : error) (w' : World) :
  generateAndSaveRoadmap env profileId w = (Throw e, w') -> profiles w' = profiles w.
Proof.
  intros Hrun. apply generateAndSaveRoadmap_outcome in Hrun.
  inversion Hrun as [e0 w0 _ Hs | | p c t cd e0 w0 _ _ _ Hp _ |]; subst.
  - apply Hs.
  - exact Hp.
Qed.

(** C6.  With a working store, a profile that has a college and a program
    and whose college resolves to a campus: when that campus is not
    [uh_manoa], and when it is but no template matches the program, the
    operation returns normally, the profile's roadmap is stored as null
    and its modification time is the time of the call, and the model has
    not been called. *)
Theorem short_circuit_persists_null (env : Env) (profileId : Z) (w : World)
        (p : profile.row) (c : campus.row)
        (Hstore : noFaults env)
        (Hres : Resolved w profileId p c)
        (Hshort : ShortCircuit env p c) :
  exists w',
    generateAndSaveRoadmap env profileId w = (Ok tt, w') /\
    profiles w' = writeRoadmap env profileId None (profiles w) /\
    storedRoadmap w' profileId = Some None /\
    storedUpdatedAt w' profileId = Some (now env) /\
    modelCalls w' = modelCalls w.
Proof.
  destruct (generateAndSaveRoadmap env profileId w) as [r w'] eqn:Hrun.
  apply generateAndSaveRoadmap_outcome in Hrun.
  assert (forall p' c' t, Resolved w profileId p' c' -> Matched env p' c' t -> False) as Hno.
  { intros p' c' t Hres' (Hid & T & HT & Hfind).
    destruct (Resolved_functional _ _ _ _ _ _ Hres Hres') as [<- <-].
    destruct Hshort as [Hne | (T' & HT' & Hnone)]; [contradiction|]. congruence. }
  inversion Hrun as [e w0 Hcause _ | p' c' w0 Hres' _ Hp Hm
                     | p' c' t cd e w0 Hres' Hmat | p' c' t cd doc w0 Hres' Hmat]; subst.
  - exfalso. destruct Hres as (Hp & Hc & Hg & Hr).
    destruct Hcause as [(n & Hn) | [Hnone | [(p' & Hp' & Hf) | [(p' & Hp' & Hr') | (p' & c' & Hres' & Hid & Hfile)]]]].
    + rewrite Hstore in Hn. discriminate.
    + congruence.
    + assert (p' = p) as -> by congruence. rewrite Hc, Hg in Hf. discriminate.
    + assert (p' = p) as -> by congruence. congruence.
    + destruct (Resolved_functional w profileId p p' c c') as [<- <-];
        [repeat split; assumption | exact Hres' |].
      destruct Hshort as [Hne | (T & HT & _)]; congruence.
  - exists w'. repeat split; try assumption.
    + unfold storedRoadmap. rewrite Hp, lookupProfile_written.
      destruct Hres as [-> _]. reflexivity.
    + unfold storedUpdatedAt. rewrite Hp, lookupProfile_written.
      destruct Hres as [-> _]. reflexivity.
  - exfalso. eauto.
  - exfalso. eauto.
Qed.

(** C3.  The years, semesters and course slots that are persisted are
    those of the model's response, not those of the template: whenever the
    parsed response holds a tree of years, semesters and courses, the
    stored roadmap holds exactly that tree, slot for slot and in the same
    order, so it has as many years, semesters and slots as the response
    has.  Nothing compares the response with the matched template. *)
Theorem persisted_tree_is_the_response_tree (env : Env) (profileId : Z) (w w' : World)
        (prompt : Prompt) (text json : string) (parsed : value)
        (tree : list (list (list value)))
        (Hrun : generateAndSaveRoadmap env profileId w = (Ok tt, w'))
        (Hcalls : modelCalls w' = prompt :: modelCalls w)
        (Htext : generateText env prompt = Ok text)
        (Hjson : jsonMatch text = Some json)
        (Hparse : JSON_parse env json = Some parsed)
        (Htree : docCourses parsed = Some tree) :
  exists doc,
    storedRoadmap w' profileId = Some (Some doc) /\
    docCourses doc = Some tree /\
    docShape doc = docShape parsed.
Proof.
  destruct (synthesis_success env _ _ _ _ _ _ _ Hrun Hcalls Htext Hjson Hparse)
    as (p & c & t & v & doc & _ & _ & Hv & Hdoc & _ & Hstored).
  exists doc. split; [exact Hstored|].
  assert (docCourses doc = Some tree) as Hd.
  { eapply docCourses_final; [|exact Hdoc]. eapply docCourses_normalized; eauto. }
  split; [exact Hd|]. unfold docShape. now rewrite Hd, Htree.
Qed.

(** The reader builds objects by [Val.put] alone, so no key occurs twice:
    the condition under which the merge is stated holds of every object
    it returns. *)
Lemma members_distinct_keys (fuel : nat) :
  forall (s : string) (acc fs : list (string * value)) (rest : string),
    Json.members fuel s acc = Some (fs, rest) ->
    NoDup (map fst acc) -> NoDup (map fst fs).
Proof.
  induction fuel as [|fuel IH]; intros s acc fs rest H Hacc; [discriminate|].
  cbn [Json.members] in H.
  destruct (Json.after "034" (Json.skipWs s)) as [r|]; [|discriminate].
  destruct (Json.stringBody r) as [[key r1]|]; [|discriminate].
  destruct (Json.after ":" (Json.skipWs r1)) as [r2|]; [|discriminate].
  destruct (Json.element fuel r2) as [[x r3]|]; [|discriminate].
  destruct (Json.after "," (Json.skipWs r3)) as [r4|].
  - eapply IH; [exact H | now apply put_keys_NoDup].
  - destruct (Json.after "}" (Json.skipWs r3)) as [r4|]; [|discriminate].
    injection H as <- <-. now apply put_keys_NoDup.
Qed.

Lemma parse_distinct_keys (s : string) (fields : list (string * value)) :
  Json.parse s = Some (VObj fields) -> NoDup (map fst fields).
Proof.
  unfold Json.parse.
  destruct (Json.element (S (String.length s)) s) as [[v rest]|] eqn:E; [|discriminate].
  destruct (Json.skipWs rest); [|discriminate]. intros [= ->].
  cbn [Json.element] in E.
  destruct (Json.after "{" (Json.skipWs s)) as [r|].
  - destruct (Json.after "}" (Json.skipWs r)).
    + injection E as <- _. constructor.
    + destruct (Json.members (String.length s) r []) as [[fs rest']|] eqn:Em; [|discriminate].
      cbn in E. injection E as <- _.
      eapply members_distinct_keys; [exact Em | constructor].
  - destruct (Json.after "[" (Json.skipWs s)) as [r|].
    + destruct (Json.after "]" (Json.skipWs r)); [discriminate|].
      destruct (Json.elements (String.length s) r) as [[xs rest']|]; discriminate.
    + destruct (Json.after "034" (Json.skipWs s)) as [r|].
      * destruct (Json.stringBody r) as [[body rest']|]; discriminate.
      * destruct (Json.after "-" (Json.skipWs s)) as [r|].
        -- destruct (Json.natural r) as [[n rest']|]; discriminate.
        -- destruct (Json.natural (Json.skipWs s)) as [[n rest']|]; [discriminate|].
           unfold Json.literal in E.
           destruct (Json.stripPrefix "true" (Json.skipWs s)); [discriminate|].
           destruct (Json.stripPrefix "false" (Json.skipWs s)); [discriminate|].
           destruct (Json.stripPrefix "null" (Json.skipWs s)); discriminate.
Qed.

(** C4.  In the stored document, [program_name], [institution] and
    [total_credits] each hold the value the response gives under that key
    whenever the response has the key, whatever the value (an empty string
    or null included); without the key, [program_name] and [total_credits]
    hold the matched template's values and [institution] the resolved
    campus's name.  The template's institution is never used. *)
Theorem merged_fields_prefer_the_response (env : Env) (profileId : Z) (w w' : World)
        (prompt : Prompt) (text json : string) (fields : list (string * value))
        (Hrun : generateAndSaveRoadmap env profileId w = (Ok tt, w'))
        (Hcalls : modelCalls w' = prompt :: modelCalls w)
        (Htext : generateText env prompt = Ok text)
        (Hjson : jsonMatch text = Some json)
        (Hparse : JSON_parse env json = Some (VObj fields))
        (Hkeys : NoDup (map fst fields)) :
  exists p c t doc,
    Resolved w profileId p c /\ Matched env p c t /\
    storedRoadmap w' profileId = Some (Some doc) /\
    field doc "program_name" =
      orDefault (Val.assoc "program_name" fields) (VStr (program_name t)) /\
    field doc "institution" =
      orDefault (Val.assoc "institution" fields) (VStr (campus.name c)) /\
    field doc "total_credits" =
      orDefault (Val.assoc "total_credits" fields) (VNum (total_credits t)).
Proof.
  destruct (synthesis_success env _ _ _ _ _ _ _ Hrun Hcalls Htext Hjson Hparse)
    as (p & c & t & v & doc & Hres & Hmat & Hv & Hdoc & _ & Hstored).
  destruct (normalizeParsed_object _ _ Hv) as (fields' & -> & Hnd & Hsame).
  destruct (finalRoadmap_fallbacks fields' t c p doc (Hnd Hkeys) Hdoc) as (H1 & H2 & H3).
  rewrite (Hsame "program_name") in H1 by discriminate.
  rewrite (Hsame "institution") in H2 by discriminate.
  rewrite (Hsame "total_credits") in H3 by discriminate.
  exists p, c, t, doc. repeat split; try assumption; try apply Hres; apply Hmat.
Qed.

Lemma Forall2_In_r {A B : Type} (R : A -> B -> Prop) (xs : list A) (ys : list B) (y : B) :
  Forall2 R xs ys -> In y ys -> exists x, In x xs /\ R x y.
Proof.
  intros F. induction F as [|a b xs ys Hab _ IH]; intros Hin; [destruct Hin|].
  destruct Hin as [<- | Hin].
  - exists a. split; [now left | exact Hab].
  - destruct (IH Hin) as (x & Hx & Hr). exists x. split; [now right | exact Hr].
Qed.

(** C5.  In the stored roadmap of a run that succeeded after calling the
    model, every semester object of every year holds [activities] and
    [milestones] as arrays of strings, and each of these strings is
    non-empty once trimmed.  The strings are stored as they came, not
    trimmed; the arrays may hold fewer than two entries, or none. *)
Theorem persisted_semesters_hold_nonblank_strings (env : Env) (profileId : Z)
        (w w' : World) (prompt : Prompt) (text json : string) (parsed : value)
        (Hrun : generateAndSaveRoadmap env profileId w = (Ok tt, w'))
        (Hcalls : modelCalls w' = prompt :: modelCalls w)
        (Htext : generateText env prompt = Ok text)
        (Hjson : jsonMatch text = Some json)
        (Hparse : JSON_parse env json = Some parsed) :
  exists doc,
    storedRoadmap w' profileId = Some (Some doc) /\
    forall ys y ss sf,
      field doc "years" = VArr ys -> In y ys ->
      field y "semesters" = VArr ss -> In (VObj sf) ss ->
      exists acts miles,
        Val.assoc "activities" sf = Some (VArr (map VStr acts)) /\
        Val.assoc "milestones" sf = Some (VArr (map VStr miles)) /\
        Forall (fun s => nonBlank s = true) acts /\
        Forall (fun s => nonBlank s = true) miles.
Proof.
  destruct (synthesis_success env _ _ _ _ _ _ _ Hrun Hcalls Htext Hjson Hparse)
    as (p & c & t & v & doc & _ & _ & Hv & Hdoc & _ & Hstored).
  exists doc. split; [exact Hstored|].
  intros ys y ss sf Hys Hy Hss Hs.
  rewrite (finalRoadmap_years _ _ _ _ _ Hdoc) in Hys.
  assert (exists ys0, field parsed "years" = VArr ys0 /\ Forall2 YearNormalized ys0 ys)
    as (ys0 & _ & F).
  { destruct (field parsed "years") as [| | | | |ys0|] eqn:Ey.
    6:{ destruct (normalizeParsed_years _ _ _ Ey Hv) as (fields & ys' & -> & -> & F).
        unfold field in Hys. cbn [Val.get] in Hys. rewrite assoc_put_same in Hys.
        cbn in Hys. injection Hys as <-. eauto. }
    all: exfalso; apply normalizeParsed_other in Hv;
      [|intros ?; rewrite Ey; discriminate]; subst v; rewrite Ey in Hys;
      unfold Val.or in Hys; destruct (Val.truthy _); [discriminate|];
      injection Hys as Hys; subst ys; destruct Hy. }
  destruct (Forall2_In_r _ _ _ _ F Hy) as (y0 & _ & Hyn).
  destruct Hyn as [yf ss0 ss' _ Fs | y1 Hfalsy].
  2:{ rewrite Hss in Hfalsy. discriminate. }
  unfold field in Hss. cbn [Val.get] in Hss. rewrite assoc_put_same in Hss.
  injection Hss as <-.
  destruct (Forall2_In_r _ _ _ _ Fs Hs) as (s0 & _ & Hsn).
  inversion Hsn as [sf0 acts miles Ha Hm Es Esf |]; subst.
  exists acts, miles. repeat split.
  - rewrite assoc_put_other by discriminate. apply assoc_put_same.
  - apply assoc_put_same.
  - eapply FieldNormalized_nonBlank; exact Ha.
  - eapply FieldNormalized_nonBlank; exact Hm.
Qed.

(** C7.  For a parsed response whose [years] is an array: a semester that
    is an object is normalised without error whatever its fields, and its
    [activities] and [milestones] become, each, the list described by
    [FieldNormalized]: for an array all of whose entries have a text (a
    bare string is its own text, an object with a string [text] has that
    text, any other entry its string form), the texts that are non-empty
    once trimmed; the empty list for an absent field, for a field that is
    no array, and for an array with an entry that has no string form.  When
    the whole response normalises, its years hold these semesters in
    place. *)
Theorem semester_fields_normalisation (parsed : value) (ys : list value)
        (Hyears : field parsed "years" = VArr ys) :
  (forall sf,
      exists acts miles,
        normalizeSemester (VObj sf) =
          Ok (VObj (Val.put "milestones" (VArr (map VStr miles))
                            (Val.put "activities" (VArr (map VStr acts)) sf))) /\
        FieldNormalized (field (VObj sf) "activities") acts /\
        FieldNormalized (field (VObj sf) "milestones") miles) /\
  (forall v,
      normalizeParsed parsed = Ok v ->
      exists ys', field v "years" = VArr ys' /\ Forall2 YearNormalized ys ys').
Proof.
  split; [apply normalizeSemester_object|].
  intros v Hv.
  destruct (normalizeParsed_years _ _ _ Hyears Hv) as (fields & ys' & -> & -> & F).
  exists ys'. split; [|exact F].
  unfold field. cbn [Val.get]. now rewrite assoc_put_same.
Qed.

(* ================================================================== *)
(** ** Worked runs *)

(** C9 at two templates that hold the same three slots in different
    semesters: both yield the codes ICS 111 and MATH 215. *)
Lemma extraction_of_reordered_slots :
  NoDup (extractPathwayCourses Sample.cs) /\
  NoDup (extractPathwayCourses Sample.csReordered) /\
  forall c, In c (extractPathwayCourses Sample.cs) <->
            In c (extractPathwayCourses Sample.csReordered).
Proof.
  apply (extraction_depends_on_slot_multiset Sample.cs Sample.csReordered).
  vm_compute.
  apply (perm_trans (l' := ["ICS 111"; "FW"; "MATH 215 or 241"]));
    [apply perm_skip, perm_swap | apply perm_swap].
Defined.

(** C2 at a response without any brace: the run throws and the profile
    keeps its previous roadmap and modification time. *)
Lemma refusal_leaves_the_profile_untouched :
  (exists e, fst (Sample.run Sample.refusal) = Throw e) /\
  profiles (snd (Sample.run Sample.refusal)) = profiles Sample.atManoa /\
  storedRoadmap (snd (Sample.run Sample.refusal)) 7 = storedRoadmap Sample.atManoa 7 /\
  storedUpdatedAt (snd (Sample.run Sample.refusal)) 7 = storedUpdatedAt Sample.atManoa 7.
Proof.
  apply (failed_run_writes_nothing (Sample.env [Sample.cs] Sample.refusal) 7 Sample.atManoa).
  - vm_compute. reflexivity.
  - right. eexists. exists Sample.refusal.
    split; [lazy; reflexivity|]. split; [reflexivity|]. left. vm_compute. reflexivity.
Defined.

(** C6 at a profile whose college is the Hilo campus. *)
Lemma unsupported_campus_run :
  exists w',
    generateAndSaveRoadmap (Sample.env [Sample.cs] Sample.complete) 7 Sample.atHilo = (Ok tt, w') /\
    profiles w' = writeRoadmap (Sample.env [Sample.cs] Sample.complete) 7 None
                               (profiles Sample.atHilo) /\
    storedRoadmap w' 7 = Some None /\
    storedUpdatedAt w' 7 = Some 200%Z /\
    modelCalls w' = modelCalls Sample.atHilo.
Proof.
  apply (short_circuit_persists_null (Sample.env [Sample.cs] Sample.complete) 7 Sample.atHilo
                                     (Sample.student (Some "uh_hilo")) Sample.hilo).
  - intros n. reflexivity.
  - repeat split; vm_compute; reflexivity.
  - left. cbn. discriminate.
Defined.

(** C3 at a response that keeps the three slots of the template. *)
Lemma complete_response_tree_is_persisted :
  exists doc,
    storedRoadmap (snd (Sample.run Sample.complete)) 7 = Some (Some doc) /\
    docCourses doc =
      Some [[[VObj [("name", VStr "ICS 111"); ("isRelated", VNull)];
              VObj [("name", VStr "MATH 241"); ("isRelated", VNull)];
              VObj [("name", VStr "FW"); ("isRelated", VNull)]]]] /\
    docShape doc = docShape (Sample.parsedOf Sample.complete).
Proof.
  eapply (persisted_tree_is_the_response_tree
            (Sample.env [Sample.cs] Sample.complete) 7 Sample.atManoa
            (snd (Sample.run Sample.complete)) _ Sample.complete _
            (Sample.parsedOf Sample.complete)).
  - vm_compute. reflexivity.
  - lazy. reflexivity.
  - reflexivity.
  - lazy. reflexivity.
  - vm_compute. reflexivity.
  - vm_compute. reflexivity.
Defined.

(** C3, the claim as stated: the response is the empty object, the
    matched template has one year of one semester of three slots, and the
    stored roadmap has no year at all. *)
Lemma empty_object_is_persisted_without_years :
  findMatchingPathway "Computer Science, B.S." [Sample.cs] = Some Sample.cs /\
  shapeOf (templateCourses Sample.cs) = [[3]] /\
  fst (Sample.run "{}") = Ok tt /\
  exists doc,
    storedRoadmap (snd (Sample.run "{}")) 7 = Some (Some doc) /\
    field doc "years" = VArr [] /\
    docShape doc = Some [] /\
    docShape doc <> Some (shapeOf (templateCourses Sample.cs)).
Proof.
  split; [vm_compute; reflexivity|]. split; [vm_compute; reflexivity|].
  split; [vm_compute; reflexivity|].
  eexists. split; [vm_compute; reflexivity|].
  split; [vm_compute; reflexivity|]. split; [vm_compute; reflexivity|].
  vm_compute. discriminate.
Qed.

(** C4 at a response that gives an empty institution and its own total of
    credits, and no program name. *)
Lemma complete_response_fields_are_merged :
  exists p c t doc,
    Resolved Sample.atManoa 7 p c /\
    Matched (Sample.env [Sample.cs] Sample.complete) p c t /\
    storedRoadmap (snd (Sample.run Sample.complete)) 7 = Some (Some doc) /\
    field doc "program_name" = VStr (program_name t) /\
    field doc "institution" = VStr "" /\
    field doc "total_credits" = VNum 121.
Proof.
  eapply (merged_fields_prefer_the_response
            (Sample.env [Sample.cs] Sample.complete) 7 Sample.atManoa
            (snd (Sample.run Sample.complete)) _ Sample.complete _
            (Sample.fieldsOf (Sample.parsedOf Sample.complete))).
  - vm_compute. reflexivity.
  - lazy. reflexivity.
  - reflexivity.
  - lazy. reflexivity.
  - vm_compute. reflexivity.
  - apply (parse_distinct_keys (Sample.jsonOf Sample.complete)). vm_compute. reflexivity.
Defined.

(** C4, the claim as stated: the response names no institution, the
    matched template has one, and the stored institution is the campus's
    name, not the template's. *)
Lemma absent_institution_is_the_campus_name :
  findMatchingPathway "Computer Science, B.S." [Sample.cs] = Some Sample.cs /\
  institution Sample.cs = "University of Hawaii at Manoa" /\
  resolveCampus (campuses Sample.atManoa) "Manoa" = Some Sample.manoa /\
  campus.name Sample.manoa = "UH Manoa" /\
  fst (Sample.run "{}") = Ok tt /\
  exists doc,
    storedRoadmap (snd (Sample.run "{}")) 7 = Some (Some doc) /\
    field doc "institution" = VStr "UH Manoa" /\
    field doc "institution" <> VStr (institution Sample.cs).
Proof.
  repeat (split; [vm_compute; reflexivity|]).
  eexists. split; [vm_compute; reflexivity|]. split; [vm_compute; reflexivity|].
  vm_compute. discriminate.
Qed.

(** C5 at the complete response: the blank entry is gone, the others are
    stored as they came. *)
Lemma complete_response_semesters :
  exists doc,
    storedRoadmap (snd (Sample.run Sample.complete)) 7 = Some (Some doc) /\
    forall ys y ss sf,
      field doc "years" = VArr ys -> In y ys ->
      field y "semesters" = VArr ss -> In (VObj sf) ss ->
      exists acts miles,
        Val.assoc "activities" sf = Some (VArr (map VStr acts)) /\
        Val.assoc "milestones" sf = Some (VArr (map VStr miles)) /\
        Forall (fun s => nonBlank s = true) acts /\
        Forall (fun s => nonBlank s = true) miles.
Proof.
  eapply (persisted_semesters_hold_nonblank_strings
            (Sample.env [Sample.cs] Sample.complete) 7 Sample.atManoa
            (snd (Sample.run Sample.complete)) _ Sample.complete _
            (Sample.parsedOf Sample.complete)).
  - vm_compute. reflexivity.
  - lazy. reflexivity.
  - reflexivity.
  - lazy. reflexivity.
  - vm_compute. reflexivity.
Defined.

(** C5, the claim as stated: a response whose only semester has one
    activity, with blanks around it, and no milestone is accepted and
    stored as it is. *)
Lemma one_activity_and_no_milestone_are_persisted :
  fst (Sample.run Sample.sparse) = Ok tt /\
  storedRoadmap (snd (Sample.run Sample.sparse)) 7 =
    Some (Some (VObj [("program_name", VStr "Computer Science, B.S.");
                      ("institution", VStr "UH Manoa");
                      ("total_credits", VNum 120);
                      ("career_goal", VStr "Software Engineer");
                      ("interests", VArr [VStr "AI"]);
                      ("skills", VArr [VStr "Python"]);
                      ("years",
                       VArr [VObj [("semesters",
                                    VArr [VObj [("courses", VArr []);
                                                ("activities", VArr [VStr " Meet your advisor "]);
                                                ("milestones", VArr [])]])]])])) /\
  List.length [VStr " Meet your advisor "] < 2 /\
  Js.trim " Meet your advisor " <> " Meet your advisor ".
Proof.
  split; [vm_compute; reflexivity|]. split; [vm_compute; reflexivity|].
  split; [cbn; lia | vm_compute; discriminate].
Qed.

(** C7 at the response with an entry that has no string form. *)
Lemma unprintable_response_semesters :
  (forall sf,
      exists acts miles,
        normalizeSemester (VObj sf) =
          Ok (VObj (Val.put "milestones" (VArr (map VStr miles))
                            (Val.put "activities" (VArr (map VStr acts)) sf))) /\
        FieldNormalized (field (VObj sf) "activities") acts /\
        FieldNormalized (field (VObj sf) "milestones") miles) /\
  (forall v,
      normalizeParsed (Sample.parsedOf Sample.unprintable) = Ok v ->
      exists ys', field v "years" = VArr ys' /\
                  Forall2 YearNormalized (Sample.yearsOf (Sample.parsedOf Sample.unprintable)) ys').
Proof.
  apply (semester_fields_normalisation
           (Sample.parsedOf Sample.unprintable)
           (Sample.yearsOf (Sample.parsedOf Sample.unprintable))).
  vm_compute. reflexivity.
Defined.

(** C7, the claim as stated: an array holding a bare string and an object
    whose own [toString] is a number.  The object has no string form, the
    exception is caught, and the field becomes the empty list: the bare
    string, non-empty once trimmed, is not kept. *)
Lemma entry_without_string_form_empties_the_field :
  nonBlank "Join the ACM chapter" = true /\
  Val.toString (VObj [("toString", VNum 1)]) = None /\
  normalizeStringArray (VArr [VStr "Join the ACM chapter"; VObj [("toString", VNum 1)]]) = None /\
  option_map normalizeParsed (Json.parse Sample.unprintable) =
    Some (Ok (VObj [("years",
                     VArr [VObj [("semesters",
                                  VArr [VObj [("activities", VArr []);
                                              ("milestones", VArr [])]])]])])).
Proof. repeat split; vm_compute; reflexivity. Qed.

(** C8, the claim as stated: a response with two complete objects.  The
    first balanced object parses; what the code takes is the span from the
    first opening brace to the last closing brace, which does not parse,
    and the run throws. *)
Lemma two_objects_are_taken_as_one_span :
  firstBalancedObject Sample.twoObjects = Some Sample.firstObject /\
  Json.parse Sample.firstObject = Some (VObj [("years", VArr [])]) /\
  jsonMatch Sample.twoObjects = Some Sample.twoObjects /\
  jsonMatch Sample.twoObjects <> firstBalancedObject Sample.twoObjects /\
  Json.parse Sample.twoObjects = None /\
  fst (Sample.run Sample.twoObjects) = Throw SyntaxError.
Proof.
  repeat split; try (vm_compute; reflexivity). vm_compute. discriminate.
Qed.

(** The matcher on a catalog of two templates and a program name in
    another case. *)
Lemma matched_template_passes_the_policy :
  In Sample.cs [Sample.template "Biology, B.S." []; Sample.cs] /\
  (specTier 1 "computer science, b.s." Sample.cs = true \/
   specTier 2 "computer science, b.s." Sample.cs = true \/
   specTier 3 "computer science, b.s." Sample.cs = true).
Proof.
  apply (findMatchingPathway_sound "computer science, b.s."
                                   [Sample.template "Biology, B.S." []; Sample.cs] Sample.cs).
  vm_compute. reflexivity.
Defined.

(** A run for a profile that does not exist. *)
Lemma unknown_profile_run :
  profiles (snd (generateAndSaveRoadmap (Sample.env [Sample.cs] Sample.complete) 8
                                        Sample.atManoa)) =
  profiles Sample.atManoa.
Proof.
  apply (thrown_run_writes_nothing (Sample.env [Sample.cs] Sample.complete) 8 Sample.atManoa
                                   (NotFound "profile")).
  vm_compute. reflexivity.
Defined.

(* ================================================================== *)
(** ** The matcher of regular expressions *)

Section Matcher.

Local Open Scope string_scope.

Lemma matched_cons (p : string) (ps : list string) :
  Regex.matched (p :: ps) = p ++ Regex.matched ps.
Proof.
  unfold Regex.matched. destruct ps as [|p' ps]; cbn [String.concat].
  - now rewrite append_empty_r.
  - reflexivity.
Qed.

Lemma greedy_sound {A : Type} (cls : ascii -> bool) (k : string -> option A) (s : string) :
  forall p r,
    Regex.greedy cls k s = Some (p, r) ->
    exists rest, s = p ++ rest /\ allOf cls p = true /\ k rest = Some r.
Proof.
  induction s as [|a s IH]; intros p r H; cbn [Regex.greedy] in H.
  - destruct (k "") as [r0|] eqn:E; [|discriminate]. cbn in H. injection H as <- <-.
    now exists "".
  - destruct (cls a) eqn:Ea.
    + destruct (Regex.greedy cls k s) as [[p0 r0]|] eqn:Eg.
      * injection H as <- <-. destruct (IH _ _ eq_refl) as (rest & -> & Hall & Hk).
        exists rest. cbn. now rewrite Ea, Hall.
      * destruct (k (String a s)) as [r0|] eqn:E; [|discriminate]. cbn in H.
        injection H as <- <-. now exists (String a s).
    + destruct (k (String a s)) as [r0|] eqn:E; [|discriminate]. cbn in H.
      injection H as <- <-. now exists (String a s).
Qed.

(** A greedy class that can take all of [p], and no more, takes it when
    the rest of the pattern matches what follows. *)
Lemma greedy_complete {A : Type} (cls : ascii -> bool) (k : string -> option A)
      (p rest : string) (r : A) :
  allOf cls p = true -> stopsAt cls rest -> k rest = Some r ->
  Regex.greedy cls k (p ++ rest) = Some (p, r).
Proof.
  intros Hall Hstop Hk. induction p as [|a p IH]; cbn [append Regex.greedy].
  - destruct rest as [|c rest]; cbn [Regex.greedy]; [now rewrite Hk|].
    cbn in Hstop. now rewrite Hstop, Hk.
  - cbn in Hall. apply andb_true_iff in Hall as [Ha Hall].
    now rewrite Ha, (IH Hall).
Qed.

(** What a match consumed is the text of its atoms, each of its class. *)
Lemma matchAt_sound (r : Regex.regex) :
  forall s ps rest,
    Regex.matchAt r s = Some (ps, rest) ->
    s = Regex.matched ps ++ rest /\ Forall2 pieceOf r ps.
Proof.
  induction r as [|a r IH]; intros s ps rest H; cbn [Regex.matchAt] in H.
  - injection H as <- <-. split; [reflexivity | constructor].
  - destruct a as [cls|cls|cls|].
    + destruct s as [|c s]; [discriminate|]. destruct (cls c) eqn:Ec; [|discriminate].
      destruct (Regex.matchAt r s) as [[ps0 rest0]|] eqn:E; [|discriminate].
      cbn in H. injection H as <- <-. destruct (IH _ _ _ E) as [-> F].
      rewrite matched_cons. split; [reflexivity|]. constructor; [|exact F].
      exists c. auto.
    + destruct s as [|c s]; [discriminate|]. destruct (cls c) eqn:Ec; [|discriminate].
      destruct (Regex.greedy cls (Regex.matchAt r) s) as [[p [ps0 rest0]]|] eqn:E;
        [|discriminate].
      cbn in H. injection H as <- <-.
      destruct (greedy_sound _ _ _ _ _ E) as (rest1 & -> & Hall & Hk).
      destruct (IH _ _ _ Hk) as [-> F].
      rewrite matched_cons. split; [cbn; now rewrite append_assoc|].
      constructor; [|exact F]. split; [discriminate | cbn; now rewrite Ec, Hall].
    + destruct (Regex.greedy cls (Regex.matchAt r) s) as [[p [ps0 rest0]]|] eqn:E;
        [|discriminate].
      cbn in H. injection H as <- <-.
      destruct (greedy_sound _ _ _ _ _ E) as (rest1 & -> & Hall & Hk).
      destruct (IH _ _ _ Hk) as [-> F].
      rewrite matched_cons. split; [now rewrite append_assoc|].
      constructor; [exact Hall | exact F].
    + destruct s as [|c s]; [|discriminate].
      destruct (Regex.matchAt r "") as [[ps0 rest0]|] eqn:E; [|discriminate].
      cbn in H. injection H as <- <-. destruct (IH _ _ _ E) as [E' F].
      rewrite matched_cons. split; [exact E'|]. constructor; [reflexivity | exact F].
Qed.

(** Every text a global match returns is a match of the pattern at some
    place of the subject. *)
Lemma scan_In (r : Regex.regex) (s : string) :
  forall skip m,
    In m (Regex.scan r s skip) ->
    exists pre ps rest,
      s = pre ++ m ++ rest /\ m = Regex.matched ps /\
      Regex.matchAt r (m ++ rest) = Some (ps, rest).
Proof.
  induction s as [|c s IH]; intros skip m H; cbn [Regex.scan] in H.
  - destruct skip; [|destruct H].
    destruct (Regex.matchAt r "") as [[ps rest]|] eqn:E; [|destruct H].
    destruct H as [<- | []].
    destruct (matchAt_sound _ _ _ _ E) as [Es _].
    assert (rest = "") as -> by (destruct (Regex.matched ps); [now cbn in Es | discriminate]).
    exists "", ps, "". rewrite append_empty_r in Es. rewrite <- Es. auto.
  - assert (forall k, In m (Regex.scan r s k) ->
                      exists pre ps rest,
                        String c s = pre ++ m ++ rest /\ m = Regex.matched ps /\
                        Regex.matchAt r (m ++ rest) = Some (ps, rest)) as Hrec.
    { intros k Hk. destruct (IH _ _ Hk) as (pre & ps & rest & -> & Hm & Hat).
      exists (String c pre), ps, rest. auto. }
    destruct skip as [|k]; [|now apply (Hrec k)].
    destruct (Regex.matchAt r (String c s)) as [[ps rest]|] eqn:E; [|now apply (Hrec 0)].
    destruct H as [<- | H]; [|now apply (Hrec _ H)].
    destruct (matchAt_sound _ _ _ _ E) as [Es _].
    exists "", ps, rest. cbn [append]. rewrite <- Es. auto.
Qed.

End Matcher.

(* ================================================================== *)
(** ** The shape of extracted course codes *)

Section CodeShape.

Local Open Scope string_scope.

Ltac classes :=
  unfold Js.isUpper, Js.isDigit, Js.isWhiteSpace; cbv zeta;
  match goal with
  | |- context [nat_of_ascii ?c] => generalize (nat_of_ascii c)
  end;
  intros n H;
  repeat match goal with
         | H : _ && _ = true |- _ => apply andb_true_iff in H as [? ?]
         | H : _ || _ = true |- _ => apply orb_true_iff in H as [? | ?]
         | H : Nat.leb _ _ = true |- _ => apply Nat.leb_le in H
         | H : Nat.eqb _ _ = true |- _ => apply Nat.eqb_eq in H
         end;
  repeat match goal with
         | |- _ && _ = false => apply andb_false_iff
         | |- _ || _ = false => apply orb_false_iff; split
         end;
  rewrite ?Nat.leb_gt, ?Nat.eqb_neq; lia.

Lemma upper_not_blank (c : ascii) : Js.isUpper c = true -> Js.isWhiteSpace c = false.
Proof. classes. Qed.

Lemma digit_not_blank (c : ascii) : Js.isDigit c = true -> Js.isWhiteSpace c = false.
Proof. classes. Qed.

Lemma blank_not_upper (c : ascii) : Js.isWhiteSpace c = true -> Js.isUpper c = false.
Proof. classes. Qed.

Lemma digit_not_upper (c : ascii) : Js.isDigit c = true -> Js.isUpper c = false.
Proof. classes. Qed.

Lemma blank_not_digit (c : ascii) : Js.isWhiteSpace c = true -> Js.isDigit c = false.
Proof. classes. Qed.

Lemma upper_not_digit (c : ascii) : Js.isUpper c = true -> Js.isDigit c = false.
Proof. classes. Qed.

Lemma allOf_app (cls : ascii -> bool) (s t : string) :
  allOf cls (s ++ t) = allOf cls s && allOf cls t.
Proof.
  induction s as [|c s IH]; cbn [append allOf]; [reflexivity|].
  now rewrite IH, andb_assoc.
Qed.

(** A non-empty text ends with one of its characters. *)
Lemma last_char (s : string) :
  s <> "" -> exists s' c, s = s' ++ String c "".
Proof.
  induction s as [|a s IH]; [congruence|]. intros _.
  destruct s as [|b s].
  - now exists "", a.
  - destruct IH as (s' & c & E); [discriminate|]. exists (String a s'), c. cbn. now rewrite E.
Qed.

Lemma trimStart_black (s : string) : startsBlack s -> Js.trimStart s = s.
Proof.
  destruct s as [|c s]; cbn [startsBlack Js.trimStart]; [reflexivity|]. now intros ->.
Qed.

Lemma trimEnd_last_black (s : string) (c : ascii) :
  Js.isWhiteSpace c = false -> Js.trimEnd (s ++ String c "") = s ++ String c "".
Proof.
  intros Hc. rewrite trimEnd_app_black; cbn [Js.trimEnd]; rewrite Hc; [reflexivity | discriminate].
Qed.

(** The pattern of the extraction takes a text of the shape of a code. *)
Lemma courseCodeRe_shape (s : string) (ps : list string) (rest : string) :
  Regex.matchAt courseCodeRe s = Some (ps, rest) ->
  exists pre blank digits letters,
    courseCodeShape (Regex.matched ps) pre blank digits letters.
Proof.
  intros H. destruct (matchAt_sound _ _ _ _ H) as [_ F]. unfold courseCodeRe in F.
  inversion F as [|a1 p1 r1 ps1 P1 F1]; subst.
  inversion F1 as [|a2 p2 r2 ps2 P2 F2]; subst.
  inversion F2 as [|a3 p3 r3 ps3 P3 F3]; subst.
  inversion F3 as [|a4 p4 r4 ps4 A4 F4]; subst.
  inversion F4; subst. cbn [pieceOf] in P1, P2, P3, A4.
  destruct P1 as [N1 A1]. destruct P2 as [N2 A2]. destruct P3 as [N3 A3].
  exists p1, p2, p3, p4. rewrite !matched_cons.
  unfold Regex.matched. cbn [String.concat]. rewrite append_empty_r.
  repeat split; assumption.
Qed.

(** A text of the shape of a code has no white space around it. *)
Lemma courseCodeShape_trimmed (code pre blank digits letters : string) :
  courseCodeShape code pre blank digits letters -> Js.trim code = code.
Proof.
  intros (-> & Npre & Apre & _ & _ & Ndig & Adig & Alet). unfold Js.trim.
  assert (Js.trimStart (pre ++ blank ++ digits ++ letters) = pre ++ blank ++ digits ++ letters)
    as ->.
  { apply trimStart_black. destruct pre as [|c pre]; [congruence|]. cbn in *.
    apply andb_true_iff in Apre as [Hc _]. now apply upper_not_blank. }
  destruct (last_char (digits ++ letters)) as (s' & c & E).
  { destruct digits; [congruence | discriminate]. }
  assert (Js.isWhiteSpace c = false) as Hc.
  { assert (allOf (fun c => negb (Js.isWhiteSpace c)) (digits ++ letters) = true) as Hall.
    { rewrite allOf_app. apply andb_true_iff. split.
      - clear - Adig. induction digits as [|d ds IH]; [reflexivity|]. cbn in *.
        apply andb_true_iff in Adig as [Hd Hds]. now rewrite (digit_not_blank _ Hd), IH.
      - clear - Alet. induction letters as [|d ds IH]; [reflexivity|]. cbn in *.
        apply andb_true_iff in Alet as [Hd Hds]. now rewrite (upper_not_blank _ Hd), IH. }
    rewrite E, allOf_app in Hall. apply andb_true_iff in Hall as [_ Hall]. cbn in Hall.
    rewrite andb_true_r in Hall. now apply negb_true_iff. }
  rewrite <- !append_assoc. rewrite (append_assoc (pre ++ blank)), E.
  rewrite <- append_assoc. now apply trimEnd_last_black.
Qed.

(** A text of the shape of a code passes the anchored pattern of the
    lookup, which splits it into its letters and its number. *)
Lemma courseCodeShape_parses (code pre blank digits letters : string) :
  courseCodeShape code pre blank digits letters ->
  parseCourseCode code = Some (pre, digits ++ letters).
Proof.
  intros (-> & Npre & Apre & Nbl & Abl & Ndig & Adig & Alet).
  destruct pre as [|u pre]; [congruence|]. destruct blank as [|b blank]; [congruence|].
  destruct digits as [|d digits]; [congruence|].
  cbn [allOf] in Apre, Abl, Adig.
  apply andb_true_iff in Apre as [Hu Apre]. apply andb_true_iff in Abl as [Hb Abl].
  apply andb_true_iff in Adig as [Hd Adig].
  unfold parseCourseCode, courseQueryRe. cbn [append Regex.matchAt]. rewrite Hu.
  rewrite (greedy_complete Js.isUpper _ pre _
             ([String b blank; String d digits; letters; ""], "")); [reflexivity | exact Apre | |].
  { cbn. now apply blank_not_upper. }
  cbn [Regex.matchAt]. rewrite Hb.
  rewrite (greedy_complete Js.isWhiteSpace _ blank _
             ([String d digits; letters; ""], "")); [reflexivity | exact Abl | |].
  { cbn. now apply digit_not_blank. }
  cbn [Regex.matchAt]. rewrite Hd.
  rewrite (greedy_complete Js.isDigit _ digits _ ([letters; ""], "")); [reflexivity | exact Adig | |].
  { destruct letters as [|l letters]; [exact I|]. cbn in *.
    apply andb_true_iff in Alet as [Hl _]. now apply upper_not_digit. }
  cbn [Regex.matchAt]. rewrite <- (append_empty_r letters) at 1.
  rewrite (greedy_complete Js.isUpper _ letters "" ([""], "")); [reflexivity | exact Alet | exact I |].
  reflexivity.
Qed.

Lemma codesOf_shape (slot c : string) :
  In c (codesOf slot) ->
  exists pre blank digits letters,
    courseCodeShape c pre blank digits letters /\ Js.includes slot c = true.
Proof.
  unfold codesOf. intros H. apply in_map_iff in H as (m & <- & Hm).
  apply scan_In in Hm as (before & ps & rest & -> & E & Hat).
  destruct (courseCodeRe_shape _ _ _ Hat) as (pre & blank & digits & letters & Hshape).
  rewrite <- E in Hshape.
  exists pre, blank, digits, letters.
  rewrite (courseCodeShape_trimmed _ _ _ _ _ Hshape). split; [exact Hshape|].
  apply includes_iff. now exists before, rest.
Qed.

Lemma filterMap_all {A B : Type} (f : A -> option B) (xs : list A) :
  Forall (fun x => f x <> None) xs -> List.length (filterMap f xs) = List.length xs.
Proof.
  induction 1 as [|x xs Hx _ IH]; cbn [filterMap List.length]; [reflexivity|].
  destruct (f x); [cbn; now rewrite IH | congruence].
Qed.

End CodeShape.

(** Every code the extraction returns has the shape of a course code
    (letters A-Z, white space, digits, then possibly letters A-Z), carries
    no white space around it, and is split by the lookup into its letters
    and its number: the lookup discards none of the extracted codes. *)
Theorem extracted_codes_are_looked_up (t : PathwayTemplate) :
  Forall (fun c => exists pre blank digits letters,
                     courseCodeShape c pre blank digits letters /\
                     Js.trim c = c /\
                     parseCourseCode c = Some (pre, digits ++ letters))
         (extractPathwayCourses t) /\
  List.length (filterMap parseCourseCode (extractPathwayCourses t)) =
    List.length (extractPathwayCourses t).
Proof.
  assert (Forall (fun c => exists pre blank digits letters,
                     courseCodeShape c pre blank digits letters /\
                     Js.trim c = c /\
                     parseCourseCode c = Some (pre, digits ++ letters))
                 (extractPathwayCourses t)) as H.
  { apply Forall_forall. intros c Hc.
    apply extractPathwayCourses_In in Hc as (slot & _ & Hc).
    apply codesOf_shape in Hc as (pre & blank & digits & letters & Hshape & _).
    exists pre, blank, digits, letters. split; [exact Hshape|]. split.
    - eapply courseCodeShape_trimmed; exact Hshape.
    - eapply courseCodeShape_parses; exact Hshape. }
  split; [exact H|]. apply filterMap_all.
  eapply Forall_impl; [|exact H]. intros c (pre & blank & digits & letters & _ & _ & ->).
  discriminate.
Qed.

(** The extraction invents nothing: every code it returns stands, as it
    is, in the name of some slot of the template. *)
Theorem extracted_codes_occur_in_slots (t : PathwayTemplate) :
  Forall (fun c => exists slot, In slot (slotNames t) /\ Js.includes slot c = true)
         (extractPathwayCourses t).
Proof.
  apply Forall_forall. intros c Hc.
  apply extractPathwayCourses_In in Hc as (slot & Hslot & Hc).
  apply codesOf_shape in Hc as (_ & _ & _ & _ & _ & Hin). eauto.
Qed.

(* ================================================================== *)
(** ** Where the entries of the course map come from *)

Section Provenance.

Variable env : Env.

Lemma firstn_In {A : Type} (n : nat) (l : list A) (x : A) : In x (firstn n l) -> In x l.
Proof.
  intros H. rewrite <- (firstn_skipn n l). apply in_or_app. now left.
Qed.

Lemma survivors_In {A : Type} (fault : nat -> bool) (queries : list A) :
  forall n q, In q (survivors fault n queries) -> In q queries.
Proof.
  induction queries as [|q0 queries IH]; intros n q H; cbn [survivors] in H; [exact H|].
  destruct (fault n); [right; eauto|]. destruct H as [<- | H]; [now left | right; eauto].
Qed.

Lemma addCourses_source (rows : list course.row) :
  forall (m : CourseMap) (k : string) (info : CourseInfo),
    Val.assoc k (addCourses m rows) = Some info ->
    (exists row, In row rows /\ k = courseKey row /\ info = courseInfo row) \/
    Val.assoc k m = Some info.
Proof.
  unfold addCourses. induction rows as [|row rows IH]; intros m k info H; cbn [fold_left] in H.
  - now right.
  - apply IH in H as [(row' & Hin & Hk & Hi) | H].
    + left. exists row'. split; [now right | auto].
    + rewrite assoc_put in H. destruct (courseKey row =? k)%string eqn:E; [|now right].
      apply String.eqb_eq in E. injection H as <-. left. exists row. split; [now left | auto].
Qed.

Lemma addCourses_keys (rows : list course.row) (m : CourseMap) :
  NoDup (map fst m) -> NoDup (map fst (addCourses m rows)).
Proof.
  unfold addCourses. revert m. induction rows as [|row rows IH]; intros m H; cbn [fold_left].
  - exact H.
  - apply IH. now apply put_keys_NoDup.
Qed.

Lemma enrich_source (queries : list (string * string)) (rows : list course.row)
      (k : string) (info : CourseInfo) :
  Val.assoc k (enrich queries rows) = Some info ->
  exists query row, In query queries /\ In row (matchingCourses query rows) /\
                    k = courseKey row /\ info = courseInfo row.
Proof.
  unfold enrich.
  assert (forall m,
             Val.assoc k (fold_left (fun m query => addCourses m (matchingCourses query rows))
                                    queries m) = Some info ->
             (exists query row, In query queries /\ In row (matchingCourses query rows) /\
                                k = courseKey row /\ info = courseInfo row) \/
             Val.assoc k m = Some info) as G.
  { induction queries as [|query rest IH]; intros m H; cbn [fold_left] in H; [now right|].
    apply IH in H as [(q & row & Hq & Hrow & Hk & Hi) | H].
    - left. exists q, row. split; [now right | auto].
    - apply addCourses_source in H as [(row & Hrow & Hk & Hi) | H]; [|now right].
      left. exists query, row. split; [now left | auto]. }
  intros H. apply G in H as [H | H]; [exact H | discriminate].
Qed.

Lemma enrich_keys (queries : list (string * string)) (rows : list course.row) :
  NoDup (map fst (enrich queries rows)).
Proof.
  unfold enrich.
  assert (forall m, NoDup (map fst m) ->
                    NoDup (map fst (fold_left
                                      (fun m query => addCourses m (matchingCourses query rows))
                                      queries m))) as G.
  { induction queries as [|query rest IH]; intros m H; cbn [fold_left]; [exact H|].
    apply IH. now apply addCourses_keys. }
  apply G. constructor.
Qed.

End Provenance.

(** Every entry of the looked-up map, traced back to a requested code and
    a row of the campus. *)
Lemma lookup_sound (env : Env) (courseCodes : list string)
        (campusId : string) (w : World) :
  exists m,
    fst (getPathwayCoursesFromDB env courseCodes campusId w) = Ok m /\
    NoDup (map fst m) /\
    forall k info,
      Val.assoc k m = Some info ->
      exists requested pre number row,
        In requested courseCodes /\ parseCourseCode requested = Some (pre, number) /\
        In row (campusRows w campusId) /\
        In row (courseTable w) /\ course.campusId row = campusId /\
        course.coursePrefix row = pre /\ course.courseNumber row = number /\
        k = pre ++ " " ++ number /\ code info = k /\
        title info = course.courseTitle row /\
        description info = course.courseDesc row /\
        units info = course.numUnits row.
Proof.
  destruct (getPathwayCoursesFromDB_run env courseCodes campusId w) as (w' & E & _ & _).
  rewrite E. eexists. split; [reflexivity|]. split; [apply enrich_keys|].
  intros k info H.
  apply enrich_source in H as ([pre number] & row & Hq & Hrow & -> & ->).
  apply survivors_In in Hq.
  assert (exists c, In c courseCodes /\ parseCourseCode c = Some (pre, number))
    as (requested & Hcode & Hparse).
  { clear - Hq. induction courseCodes as [|c cs IH]; cbn [filterMap] in Hq; [destruct Hq|].
    destruct (parseCourseCode c) as [q|] eqn:Ec.
    - destruct Hq as [-> | Hq].
      + exists c. split; [now left | exact Ec].
      + destruct (IH Hq) as (c1 & Hin & Hp). exists c1. split; [now right | exact Hp].
    - destruct (IH Hq) as (c1 & Hin & Hp). exists c1. split; [now right | exact Hp]. }
  unfold matchingCourses in Hrow. apply filter_In in Hrow as [Hrow Hmatch].
  cbn [fst snd] in Hmatch. apply andb_true_iff in Hmatch as [Hp Hn].
  apply String.eqb_eq in Hp, Hn.
  pose proof Hrow as Hcap.
  unfold campusRows in Hrow. apply firstn_In, filter_In in Hrow as [Hrow Hc].
  apply String.eqb_eq in Hc.
  subst pre number. exists requested, (course.coursePrefix row), (course.courseNumber row), row.
  repeat split; auto.
Qed.

(** Whatever the lookup returns was asked for and belongs to the campus:
    every entry of the map is the title, description and units of a row
    among the first thousand rows of the course table for the requested
    campus, whose prefix and number are those of one of the requested
    codes; the key and the [code] of the entry are that prefix, one space
    and that number; and no key occurs twice. *)
Theorem lookup_entries_are_requested_courses (env : Env) (courseCodes : list string)
        (campusId : string) (w : World) :
  exists m,
    fst (getPathwayCoursesFromDB env courseCodes campusId w) = Ok m /\
    NoDup (map fst m) /\
    forall k info,
      Val.assoc k m = Some info ->
      exists requested pre number row,
        In requested courseCodes /\ parseCourseCode requested = Some (pre, number) /\
        In row (campusRows w campusId) /\
        In row (courseTable w) /\ course.campusId row = campusId /\
        course.coursePrefix row = pre /\ course.courseNumber row = number /\
        k = pre ++ " " ++ number /\ code info = k /\
        title info = course.courseTitle row /\
        description info = course.courseDesc row /\
        units info = course.numUnits row.
Proof. exact (lookup_sound env courseCodes campusId w). Qed.

(* ================================================================== *)
(** ** Resolving a campus *)

(** The campus lookup reads and never writes.  A campus it returns is a
    row of the table: one with the given identifier, or, when no row has
    that identifier, one whose name or one of whose aliases is the given
    text up to case.  It throws "not found" only when no row has the
    identifier, the name or an alias; any other failure is a fault of the
    store. *)
Theorem getCampusInfo_resolves (env : Env) (campusNameOrId : string) (w : World) :
  sameData w (snd (getCampusInfo env campusNameOrId w)) /\
  (forall c,
      fst (getCampusInfo env campusNameOrId w) = Ok c ->
      In c (campuses w) /\
      (campus.id c = campusNameOrId \/
       (forall c', In c' (campuses w) -> campus.id c' <> campusNameOrId) /\
       campusMatches campusNameOrId c = true)) /\
  (forall e,
      fst (getCampusInfo env campusNameOrId w) = Throw e ->
      (e = StoreFault /\ exists n, storeFault env n = true) \/
      (e = NotFound "campus" /\
       forall c, In c (campuses w) ->
                 campus.id c <> campusNameOrId /\ campusMatches campusNameOrId c = false)).
Proof.
  destruct (getCampusInfo_run env campusNameOrId w) as (r & w' & E & Hs & Hr).
  rewrite E. cbn [fst snd]. split; [exact Hs|].
  assert (forall c, resolveCampus (campuses w) campusNameOrId = Some c ->
                    In c (campuses w) /\
                    (campus.id c = campusNameOrId \/
                     (forall c', In c' (campuses w) -> campus.id c' <> campusNameOrId) /\
                     campusMatches campusNameOrId c = true)) as Hsome.
  { unfold resolveCampus. intros c H.
    destruct (filter (fun c => (campus.id c =? campusNameOrId)%string) (campuses w))
      as [|c0 l] eqn:Ef.
    - destruct (filter (campusMatches campusNameOrId) (campuses w)) as [|c1 l1] eqn:Em;
        [discriminate|]. injection H as <-.
      assert (In c1 (filter (campusMatches campusNameOrId) (campuses w))) as Hin
          by (rewrite Em; now left).
      apply filter_In in Hin as [Hin Hm]. split; [exact Hin|]. right. split; [|exact Hm].
      intros c' Hc' Hid.
      assert (In c' (filter (fun c => (campus.id c =? campusNameOrId)%string) (campuses w)))
        as Habs by (apply filter_In; split; [exact Hc' | now apply String.eqb_eq]).
      rewrite Ef in Habs. destruct Habs.
    - injection H as <-.
      assert (In c0 (filter (fun c => (campus.id c =? campusNameOrId)%string) (campuses w)))
        as Hin by (rewrite Ef; now left).
      apply filter_In in Hin as [Hin Hid]. apply String.eqb_eq in Hid. auto. }
  assert (resolveCampus (campuses w) campusNameOrId = None ->
          forall c, In c (campuses w) ->
                    campus.id c <> campusNameOrId /\ campusMatches campusNameOrId c = false)
    as Hnone.
  { unfold resolveCampus. intros H c Hc.
    destruct (filter (fun c => (campus.id c =? campusNameOrId)%string) (campuses w))
      as [|c0 l] eqn:Ef; [|discriminate].
    destruct (filter (campusMatches campusNameOrId) (campuses w)) as [|c1 l1] eqn:Em;
      [|discriminate].
    split.
    - intros Hid.
      assert (In c (filter (fun c => (campus.id c =? campusNameOrId)%string) (campuses w)))
        as Habs by (apply filter_In; split; [exact Hc | now apply String.eqb_eq]).
      rewrite Ef in Habs. destruct Habs.
    - destruct (campusMatches campusNameOrId c) eqn:Hm; [|reflexivity].
      assert (In c (filter (campusMatches campusNameOrId) (campuses w))) as Habs
          by (apply filter_In; auto).
      rewrite Em in Habs. destruct Habs. }
  split.
  - intros c ->. destruct Hr as [[Hr _] | Hr]; [discriminate|].
    destruct (resolveCampus (campuses w) campusNameOrId) as [c0|] eqn:Er; [|discriminate].
    injection Hr as ->. now apply Hsome.
  - intros e ->. destruct Hr as [[Hr Hf] | Hr].
    + injection Hr as ->. now left.
    + destruct (resolveCampus (campuses w) campusNameOrId) as [c0|] eqn:Er; [discriminate|].
      injection Hr as ->. right. split; [reflexivity|]. now apply Hnone.
Qed.

(* ================================================================== *)
(** ** What a run may touch *)

Section Frame.

Variable env : Env.
Variable R : World -> World -> Prop.

Hypothesis R_refl : forall w, R w w.
Hypothesis R_trans : forall w1 w2 w3, R w1 w2 -> R w2 w3 -> R w1 w3.
Hypothesis R_tick : forall w, R w (tick w).
Hypothesis R_call :
  forall w prompt,
    R w {| profiles := profiles w; campuses := campuses w; courseTable := courseTable w;
           storeOps := storeOps w; modelCalls := prompt :: modelCalls w |}.

Lemma keeps_ret {A : Type} (a : A) : keeps R (ret a).
Proof. intros w. apply R_refl. Qed.

Lemma keeps_throw {A : Type} (e : error) : keeps R (@throw A e).
Proof. intros w. apply R_refl. Qed.

Lemma keeps_lift {A : Type} (r : result A) : keeps R (lift r).
Proof. intros w. apply R_refl. Qed.

Lemma keeps_read {A : Type} (f : World -> result A) : keeps R (fun w => (f w, w)).
Proof. intros w. apply R_refl. Qed.

Lemma keeps_bind {A B : Type} (m : M A) (k : A -> M B) :
  keeps R m -> (forall a, keeps R (k a)) -> keeps R (bind m k).
Proof.
  intros Hm Hk w. unfold bind. specialize (Hm w).
  destruct (m w) as [[a|e] w1]; cbn [snd] in *.
  - eapply R_trans; [exact Hm | apply Hk].
  - exact Hm.
Qed.

Lemma keeps_tryCatch {A : Type} (m : M A) (h : error -> M A) :
  keeps R m -> (forall e, keeps R (h e)) -> keeps R (tryCatch m h).
Proof.
  intros Hm Hh w. unfold tryCatch. specialize (Hm w).
  destruct (m w) as [[a|e] w1]; cbn [snd] in *.
  - exact Hm.
  - eapply R_trans; [exact Hm | apply Hh].
Qed.

Lemma keeps_storeOp : keeps R (storeOp env).
Proof. intros w. unfold storeOp. destruct (storeFault env (storeOps w)); apply R_tick. Qed.

Lemma keeps_selectProfile (profileId : Z) : keeps R (selectProfile env profileId).
Proof. apply keeps_bind; [apply keeps_storeOp | intros _; apply keeps_read]. Qed.

Lemma keeps_getCampusInfo (campusNameOrId : string) :
  keeps R (getCampusInfo env campusNameOrId).
Proof.
  unfold getCampusInfo, selectCampusById, selectAllCampuses.
  apply keeps_bind; [apply keeps_bind; [apply keeps_storeOp | intros _; apply keeps_read]|].
  intros byId. apply keeps_bind.
  - destruct (List.length byId =? 0); [|apply keeps_ret].
    apply keeps_bind; [|intros; apply keeps_ret].
    apply keeps_bind; [apply keeps_storeOp | intros _; apply keeps_read].
  - intros [|c found]; [apply keeps_throw | apply keeps_ret].
Qed.

Lemma keeps_lookupCourses (queries : list (string * string)) (campusId : string) :
  forall m, keeps R (lookupCourses env queries campusId m).
Proof.
  induction queries as [|query rest IH]; intros m; cbn [lookupCourses]; [apply keeps_ret|].
  apply keeps_bind; [|intros; apply IH].
  apply keeps_tryCatch; [|intros; apply keeps_ret].
  apply keeps_bind; [|intros; apply keeps_ret].
  unfold selectCourses. apply keeps_bind; [apply keeps_storeOp | intros _; apply keeps_read].
Qed.

Lemma keeps_getPathwayCoursesFromDB (courseCodes : list string) (campusId : string) :
  keeps R (getPathwayCoursesFromDB env courseCodes campusId).
Proof.
  unfold getPathwayCoursesFromDB.
  destruct (List.length courseCodes =? 0); [apply keeps_ret|].
  destruct (List.length (filterMap parseCourseCode courseCodes) =? 0); [apply keeps_ret|].
  apply keeps_lookupCourses.
Qed.

Lemma keeps_processPathwayWithAI (t : PathwayTemplate) (courseData : CourseMap)
      (p : profile.row) :
  keeps R (processPathwayWithAI env t courseData p).
Proof.
  unfold processPathwayWithAI. apply keeps_bind.
  - intros w. unfold callModel. cbn [snd]. apply R_call.
  - intros text. destruct (jsonMatch text) as [json|]; [|apply keeps_throw].
    destruct (JSON_parse env json); [apply keeps_lift | apply keeps_throw].
Qed.

Variable profileId : Z.

Hypothesis R_write :
  forall w newRoadmap,
    R w {| profiles := writeRoadmap env profileId newRoadmap (profiles w);
           campuses := campuses w; courseTable := courseTable w;
           storeOps := storeOps w; modelCalls := modelCalls w |}.

Lemma keeps_updateProfile (newRoadmap : option value) :
  keeps R (updateProfile env profileId newRoadmap).
Proof.
  unfold updateProfile. apply keeps_bind; [apply keeps_storeOp|].
  intros _ w. cbn [snd]. apply R_write.
Qed.

Lemma keeps_generateAndSaveRoadmap : keeps R (generateAndSaveRoadmap env profileId).
Proof.
  unfold generateAndSaveRoadmap.
  apply keeps_bind; [apply keeps_selectProfile|].
  intros [|p found]; [apply keeps_throw|].
  destruct (falsyStr (profile.college p) || falsyStr (profile.program p));
    [apply keeps_throw|].
  apply keeps_bind; [apply keeps_getCampusInfo|]. intros c.
  destruct (negb (campus.id c =? "uh_manoa")%string); [apply keeps_updateProfile|].
  apply keeps_bind.
  { unfold loadPathwayTemplates. destruct (pathwayFile env); [apply keeps_ret | apply keeps_throw]. }
  intros T.
  destruct (findMatchingPathway (orEmpty (profile.program p)) T) as [t|];
    [|apply keeps_updateProfile].
  apply keeps_bind; [apply keeps_getPathwayCoursesFromDB|]. intros courseData.
  apply keeps_bind; [apply keeps_processPathwayWithAI|]. intros v.
  apply keeps_bind; [apply keeps_lift|]. intros doc.
  apply keeps_updateProfile.
Qed.

End Frame.

Section Touches.

Variable env : Env.
Variable profileId : Z.

Lemma unchanged_rows (rows : list profile.row) :
  Forall2 (fun r r' => sameButRoadmap r r' /\ (profile.id r <> profileId -> r' = r)) rows rows.
Proof.
  induction rows as [|r rows IH]; constructor; [|exact IH].
  split; [repeat split | reflexivity].
Qed.

Lemma touchesOnly_refl (w : World) : touchesOnly profileId w w.
Proof.
  repeat split; [lia | now exists [] | apply unchanged_rows].
Qed.

Lemma touchesOnly_trans (w1 w2 w3 : World) :
  touchesOnly profileId w1 w2 -> touchesOnly profileId w2 w3 -> touchesOnly profileId w1 w3.
Proof.
  intros (Hc & Ht & Ho & [l Hm] & Hp) (Hc' & Ht' & Ho' & [l' Hm'] & Hp').
  repeat split; try congruence; [lia | | ].
  - exists (l' ++ l)%list. rewrite Hm', Hm. apply app_assoc.
  - revert Hp Hp'. generalize (profiles w1) (profiles w2) (profiles w3).
    intros rows1 rows2 rows3 H12. revert rows3.
    induction H12 as [|r1 r2 rows1 rows2 [Hs Hk] H12 IH]; intros rows3 H23;
      inversion H23 as [|? r3 ? rows3' [Hs' Hk'] H23']; subst; constructor.
    + split.
      * unfold sameButRoadmap in *. intuition congruence.
      * intros Hid. rewrite Hk' by (rewrite (Hk Hid); exact Hid). now apply Hk.
    + now apply IH.
Qed.

Lemma touchesOnly_tick (w : World) : touchesOnly profileId w (tick w).
Proof.
  repeat split; [cbn; lia | now exists [] | apply unchanged_rows].
Qed.

Lemma touchesOnly_call (w : World) (prompt : Prompt) :
  touchesOnly profileId w
              {| profiles := profiles w; campuses := campuses w; courseTable := courseTable w;
                 storeOps := storeOps w; modelCalls := prompt :: modelCalls w |}.
Proof.
  repeat split; [cbn; lia | now exists [prompt] | apply unchanged_rows].
Qed.

Lemma touchesOnly_write (w : World) (newRoadmap : option value) :
  touchesOnly profileId w
              {| profiles := writeRoadmap env profileId newRoadmap (profiles w);
                 campuses := campuses w; courseTable := courseTable w;
                 storeOps := storeOps w; modelCalls := modelCalls w |}.
Proof.
  repeat split; [cbn; lia | now exists [] |]. cbn [profiles].
  unfold writeRoadmap. induction (profiles w) as [|r rows IH]; cbn [map]; constructor;
    [|exact IH].
  destruct (profile.id r =? profileId)%Z eqn:E.
  - split; [repeat split|]. intros Hid. apply Z.eqb_eq in E. contradiction.
  - split; [repeat split | reflexivity].
Qed.

End Touches.

(** Whatever a run returns or throws, it leaves the campus table and the
    course table as they were and neither adds, removes nor reorders a
    profile row; a row of another profile is untouched, and of a row of
    the given profile only the roadmap and its time stamp can differ.
    Store operations and model calls already made stay in the record. *)
Theorem run_touches_only_the_roadmap (env : Env) (profileId : Z) (w : World) :
  touchesOnly profileId w (snd (generateAndSaveRoadmap env profileId w)).
Proof.
  apply (keeps_generateAndSaveRoadmap env (touchesOnly profileId)).
  - apply touchesOnly_refl.
  - apply touchesOnly_trans.
  - apply touchesOnly_tick.
  - apply touchesOnly_call.
  - apply touchesOnly_write.
Qed.

(* ================================================================== *)
(** ** Errors and their causes *)

Section Causes.

Variable env : Env.

Lemma get_throws (v : value) (k : string) (e : error) :
  Val.get v k = Throw e -> e = TypeError.
Proof.
  destruct v; cbn [Val.get]; try discriminate; try congruence.
  destruct (Val.assoc k fields); discriminate.
Qed.

Lemma set_throws (v : value) (k : string) (x : value) (e : error) :
  Val.set v k x = Throw e -> e = TypeError.
Proof. destruct v; cbn [Val.set]; try discriminate; congruence. Qed.

Lemma mapR_throws {A B : Type} (f : A -> result B) (xs : list A) (e : error) :
  (forall x e, f x = Throw e -> e = TypeError) ->
  mapR f xs = Throw e -> e = TypeError.
Proof.
  intros Hf. induction xs as [|x xs IH]; cbn [mapR]; [discriminate|].
  destruct (f x) as [y|e0] eqn:Ex; cbn [rbind].
  - destruct (mapR f xs) as [ys|e1]; cbn [rbind]; [discriminate|].
    intros [= <-]. now apply IH.
  - intros [= <-]. eapply Hf, Ex.
Qed.

Lemma normalizeSemester_throws (s : value) (e : error) :
  normalizeSemester s = Throw e -> e = TypeError.
Proof.
  unfold normalizeSemester.
  destruct (Val.get s "activities") as [a|e0] eqn:Ea; cbn [rbind];
    [|intros [= <-]; eapply get_throws, Ea].
  destruct (Val.set s "activities" (normalizedField a)) as [s1|e0] eqn:Es; cbn [rbind];
    [|intros [= <-]; eapply set_throws, Es].
  destruct (Val.get s1 "milestones") as [m|e0] eqn:Em; cbn [rbind];
    [|intros [= <-]; eapply get_throws, Em].
  apply set_throws.
Qed.

Lemma normalizeYear_throws (y : value) (e : error) :
  normalizeYear y = Throw e -> e = TypeError.
Proof.
  unfold normalizeYear.
  destruct (Val.get y "semesters") as [sems|e0] eqn:Eg; cbn [rbind];
    [|intros [= <-]; eapply get_throws, Eg].
  destruct (Val.or sems (VArr [])) as [| |b|n|str|ss|fields]; try congruence.
  - destruct (mapR normalizeSemester (Val.chars str)) as [ss'|e0] eqn:Em; cbn [rbind];
      [discriminate|].
    intros [= <-]. eapply mapR_throws; [apply normalizeSemester_throws | exact Em].
  - destruct (mapR normalizeSemester ss) as [ss'|e0] eqn:Em; cbn [rbind].
    + destruct (Val.truthy sems); [apply set_throws | discriminate].
    + intros [= <-]. eapply mapR_throws; [apply normalizeSemester_throws | exact Em].
Qed.

Lemma normalizeParsed_throws (parsed : value) (e : error) :
  normalizeParsed parsed = Throw e -> e = TypeError.
Proof.
  unfold normalizeParsed. destruct (Val.truthy parsed); [|discriminate].
  destruct (Val.get parsed "years") as [years|e0] eqn:Eg; cbn [rbind];
    [|intros [= <-]; eapply get_throws, Eg].
  destruct years as [| |b|n|str|ys|fields]; try discriminate.
  destruct (mapR normalizeYear ys) as [ys'|e0] eqn:Em; cbn [rbind].
  - apply set_throws.
  - intros [= <-]. eapply mapR_throws; [apply normalizeYear_throws | exact Em].
Qed.

Lemma finalRoadmap_throws (v : value) (t : PathwayTemplate) (c : campus.row)
      (p : profile.row) (e : error) :
  finalRoadmap v t c p = Throw e -> e = TypeError.
Proof.
  unfold finalRoadmap. destruct (Val.ownProperties v) as [own|]; [|congruence].
  destruct (Val.get v "years") as [years|e0] eqn:E1; cbn [rbind];
    [|intros [= <-]; eapply get_throws, E1].
  destruct (Val.get v "program_name") as [pn|e0] eqn:E2; cbn [rbind];
    [|intros [= <-]; eapply get_throws, E2].
  destruct (Val.get v "institution") as [inst|e0] eqn:E3; cbn [rbind];
    [|intros [= <-]; eapply get_throws, E3].
  destruct (Val.get v "total_credits") as [tc|e0] eqn:E4; cbn [rbind];
    [|intros [= <-]; eapply get_throws, E4].
  discriminate.
Qed.

Lemma finalRoadmap_object (v : value) (t : PathwayTemplate) (c : campus.row)
      (p : profile.row) (doc : value) :
  finalRoadmap v t c p = Ok doc ->
  exists fields years,
    doc = VObj fields /\ Val.assoc "years" fields = Some years /\ Val.truthy years = true.
Proof.
  unfold finalRoadmap. destruct (Val.ownProperties v) as [own|]; [|discriminate].
  destruct (Val.get v "years") as [years|]; [|discriminate]. cbn [rbind].
  destruct (Val.get v "program_name") as [pn|]; [|discriminate]. cbn [rbind].
  destruct (Val.get v "institution") as [inst|]; [|discriminate]. cbn [rbind].
  destruct (Val.get v "total_credits") as [tc|]; [|discriminate]. cbn [rbind].
  intros [= <-]. do 2 eexists. split; [reflexivity|]. split; [apply assoc_put_same|].
  unfold Val.or. destruct (Val.truthy years) eqn:E; [exact E | reflexivity].
Qed.

Lemma synthesis_throws (t : PathwayTemplate) (c : campus.row) (p : profile.row)
      (prompt : Prompt) (e : error) :
  modelFaultsOnly env ->
  synthesize env t c p prompt = Throw e ->
  synthesisFault env t c p prompt e /\
  (e = ModelFault \/ e = NoJsonFound \/ e = SyntaxError \/ e = TypeError).
Proof.
  intros Hmodel. unfold synthesize, respond.
  destruct (generateText env prompt) as [text|e0] eqn:Et; cbn [rbind].
  2:{ intros [= <-]. pose proof (Hmodel _ _ Et) as ->. split; [exact Et | now left]. }
  destruct (jsonMatch text) as [json|] eqn:Ej; cbn [rbind].
  2:{ intros [= <-]. split; [exists text; auto | tauto]. }
  destruct (JSON_parse env json) as [parsed|] eqn:Ep; cbn [rbind].
  2:{ intros [= <-]. split; [exists text, json; auto | tauto]. }
  destruct (normalizeParsed parsed) as [v|e0] eqn:En; cbn [rbind].
  - intros H. pose proof (finalRoadmap_throws _ _ _ _ _ H) as ->.
    split; [|tauto]. exists text, json, parsed. repeat split; auto. right. eauto.
  - intros [= <-]. pose proof (normalizeParsed_throws _ _ En) as ->.
    split; [|tauto]. exists text, json, parsed. repeat split; auto.
Qed.

End Causes.

(** An error tells what went wrong.  Provided the model raises faults of
    its own only, a run that throws "profile not found" had no row for the
    profile; "missing fields", a row without a college or a program;
    "campus not found", a row with both and a college that is no campus
    identifier, name or alias; a catalog fault (the file cannot be read or
    decoded), a profile of the supported campus; a store fault, a failed
    store operation; and a model fault, "no JSON found", a syntax error of
    the response or a type error, a profile of the supported campus with a
    matching template whose synthesis failed at the model, at the search
    for the braces, at the parse, or at the normalisation or the merge of
    the parsed response. *)
Theorem thrown_error_names_its_cause (env : Env) (profileId : Z) (w : World) (e : error)
        (Hmodel : modelFaultsOnly env)
        (Hrun : fst (generateAndSaveRoadmap env profileId w) = Throw e) :
  causeOf env w profileId e.
Proof.
  pose proof Hrun as H. unfold generateAndSaveRoadmap in H.
  rewrite bind_run, selectProfile_run in H.
  destruct (storeFault env (storeOps w)) eqn:F0.
  { injection H as <-. cbn. eauto. }
  destruct (filter (fun r => (profile.id r =? profileId)%Z) (profiles w)) as [|p l] eqn:Ef;
    cbn [firstn] in H.
  { injection H as <-. left. split; [reflexivity|]. unfold lookupProfile. now rewrite Ef. }
  assert (lookupProfile (profiles w) profileId = Some p) as Hp
      by (unfold lookupProfile; now rewrite Ef).
  destruct (falsyStr (profile.college p) || falsyStr (profile.program p)) eqn:Efalsy.
  { injection H as <-. exists p. auto. }
  apply orb_false_iff in Efalsy as [Hcol Hprog].
  rewrite bind_run in H.
  destruct (getCampusInfo_run env (orEmpty (profile.college p)) (tick w))
    as (rc & w1 & Ec & Hs1 & Hrc).
  rewrite Ec in H.
  destruct Hrc as [[-> Hf] | ->].
  { injection H as <-. exact Hf. }
  cbn [campuses tick] in H.
  destruct (resolveCampus (campuses w) (orEmpty (profile.college p))) as [c|] eqn:Er.
  2:{ injection H as <-. right. split; [reflexivity|]. exists p. auto. }
  assert (Resolved w profileId p c) as Hres by (repeat split; assumption).
  assert (forall newRoadmap,
             fst (updateProfile env profileId newRoadmap w1) = Throw e ->
             causeOf env w profileId e) as Hupdate.
  { intros newRoadmap Hu.
    destruct (updateProfile_run env profileId newRoadmap w1) as (w2 & _ & _ & _ & _ & Hcase).
    destruct (storeFault env (storeOps w1)) eqn:F1; destruct Hcase as [Eu _];
      rewrite Eu in Hu; [|discriminate].
    injection Hu as <-. cbn. eauto. }
  destruct (negb (campus.id c =? "uh_manoa")%string) eqn:Eid; [now apply (Hupdate None)|].
  apply negb_false_iff, String.eqb_eq in Eid.
  rewrite bind_run in H. unfold loadPathwayTemplates in H.
  destruct (pathwayFile env) as [T|] eqn:ET.
  2:{ injection H as <-. exists p, c. auto. }
  unfold ret in H.
  destruct (findMatchingPathway (orEmpty (profile.program p)) T) as [t|] eqn:Efind;
    [|now apply (Hupdate None)].
  assert (Matched env p c t) as Hmatch by (split; eauto).
  rewrite bind_run in H.
  destruct (getPathwayCoursesFromDB_run env (extractPathwayCourses t) (campus.id c) w1)
    as (w2 & Eg & _ & _).
  rewrite Eg in H. rewrite bind_run in H.
  match type of H with
  | context [processPathwayWithAI env t ?cd p w2] =>
      destruct (processPathwayWithAI_run env t cd p w2) as (w3 & Ep & _);
      remember cd as courseData eqn:Ecd
  end.
  rewrite Ep in H.
  assert (forall e', synthesize env t c p (buildPrompt t courseData p) = Throw e' ->
                     causeOf env w profileId e') as Hsyn.
  { intros e' Hs. destruct (synthesis_throws env _ _ _ _ _ Hmodel Hs) as [Hfault Hkind].
    destruct Hkind as [-> | [-> | [-> | ->]]]; exists p, c, t, courseData; auto. }
  destruct (respond env (buildPrompt t courseData p)) as [v|e0] eqn:Eresp.
  2:{ injection H as <-. apply Hsyn. unfold synthesize. now rewrite Eresp. }
  rewrite bind_run in H. unfold lift in H.
  destruct (finalRoadmap v t c p) as [doc|e0] eqn:Efinal.
  2:{ injection H as <-. apply Hsyn. unfold synthesize. rewrite Eresp. exact Efinal. }
  destruct (updateProfile_run env profileId (Some doc) w3) as (w4 & _ & _ & _ & _ & Hcase).
  destruct (storeFault env (storeOps w3)) eqn:F3; destruct Hcase as [Eu _];
    rewrite Eu in H; [|discriminate].
  injection H as <-. cbn. eauto.
Qed.

(** The model calls of a run: none, or one whose course data is what the
    lookup returned for the codes of the matched template. *)
Lemma run_calls (env : Env) (profileId : Z) (w : World) :
  modelCalls (snd (generateAndSaveRoadmap env profileId w)) = modelCalls w \/
  exists p c t w1 courseData,
    Resolved w profileId p c /\ Matched env p c t /\ sameData w w1 /\
    fst (getPathwayCoursesFromDB env (extractPathwayCourses t) (campus.id c) w1) =
      Ok courseData /\
    modelCalls (snd (generateAndSaveRoadmap env profileId w)) =
      buildPrompt t courseData p :: modelCalls w.
Proof.
  destruct (generateAndSaveRoadmap env profileId w) as [r w'] eqn:H. cbn [snd].
  unfold generateAndSaveRoadmap in H.
  rewrite bind_run, selectProfile_run in H.
  destruct (storeFault env (storeOps w)) eqn:F0.
  { injection H as <- <-. now left. }
  destruct (filter (fun r => (profile.id r =? profileId)%Z) (profiles w)) as [|p l] eqn:Ef;
    cbn [firstn] in H.
  { injection H as <- <-. now left. }
  assert (lookupProfile (profiles w) profileId = Some p) as Hp
      by (unfold lookupProfile; now rewrite Ef).
  destruct (falsyStr (profile.college p) || falsyStr (profile.program p)) eqn:Efalsy.
  { injection H as <- <-. now left. }
  apply orb_false_iff in Efalsy as [Hcol Hprog].
  rewrite bind_run in H.
  destruct (getCampusInfo_run env (orEmpty (profile.college p)) (tick w))
    as (rc & w1 & Ec & Hs1 & Hrc).
  rewrite Ec in H.
  assert (sameData w w1) as Hw1
      by (eapply sameData_trans; [apply sameData_tick | exact Hs1]).
  assert (modelCalls w1 = modelCalls w) as Hm1 by apply Hw1.
  destruct Hrc as [[-> Hf] | ->].
  { injection H as <- <-. now left. }
  cbn [campuses tick] in H.
  destruct (resolveCampus (campuses w) (orEmpty (profile.college p))) as [c|] eqn:Er.
  2:{ injection H as <- <-. now left. }
  assert (Resolved w profileId p c) as Hres by (repeat split; assumption).
  assert (forall newRoadmap w0,
             modelCalls w0 = modelCalls w1 ->
             modelCalls (snd (updateProfile env profileId newRoadmap w0)) = modelCalls w1)
    as Hupdate.
  { intros newRoadmap w0 H0.
    destruct (updateProfile_run env profileId newRoadmap w0) as (w2 & _ & _ & _ & Hm2 & Hcase).
    destruct (storeFault env (storeOps w0)); destruct Hcase as [Eu _]; rewrite Eu;
      cbn [snd]; congruence. }
  destruct (negb (campus.id c =? "uh_manoa")%string) eqn:Eid.
  { left. rewrite <- Hm1, <- (Hupdate None w1 eq_refl), H. reflexivity. }
  apply negb_false_iff, String.eqb_eq in Eid.
  rewrite bind_run in H. unfold loadPathwayTemplates in H.
  destruct (pathwayFile env) as [T|] eqn:ET.
  2:{ injection H as <- <-. now left. }
  unfold ret in H.
  destruct (findMatchingPathway (orEmpty (profile.program p)) T) as [t|] eqn:Efind.
  2:{ left. rewrite <- Hm1, <- (Hupdate None w1 eq_refl), H. reflexivity. }
  assert (Matched env p c t) as Hmatch by (split; eauto).
  rewrite bind_run in H.
  destruct (getPathwayCoursesFromDB_run env (extractPathwayCourses t) (campus.id c) w1)
    as (w2 & Eg & _ & Hw2).
  rewrite Eg in H. rewrite bind_run in H.
  match type of H with
  | context [processPathwayWithAI env t ?cd p w2] =>
      destruct (processPathwayWithAI_run env t cd p w2) as (w3 & Ep & Hw3m & _);
      remember cd as courseData eqn:Ecd
  end.
  rewrite Ep in H.
  assert (modelCalls w3 = buildPrompt t courseData p :: modelCalls w) as Hm3.
  { rewrite Hw3m. f_equal. destruct Hw2 as (_ & _ & _ & ->). exact Hm1. }
  right. exists p, c, t, w1, courseData.
  split; [exact Hres|]. split; [exact Hmatch|]. split; [exact Hw1|].
  split; [now rewrite Eg|].
  destruct (respond env (buildPrompt t courseData p)) as [v|e0].
  2:{ injection H as <- <-. exact Hm3. }
  rewrite bind_run in H. unfold lift in H.
  destruct (finalRoadmap v t c p) as [doc|e0].
  2:{ injection H as <- <-. exact Hm3. }
  destruct (updateProfile_run env profileId (Some doc) w3) as (w4 & _ & _ & _ & Hm4 & Hcase).
  destruct (storeFault env (storeOps w3)); destruct Hcase as [Eu _];
    rewrite Eu in H; injection H as <- <-; congruence.
Qed.

(** The model is called at most once in a run, and only for a profile
    whose college resolves to the supported campus and whose program
    matches a template of the catalog.  The prompt of that call carries
    that template, the program of the profile as it is stored, and no
    course but rows of the course table of the supported campus whose
    prefix and number are those of a code extracted from the template. *)
Theorem model_is_called_at_most_once (env : Env) (profileId : Z) (w : World) :
  modelCalls (snd (generateAndSaveRoadmap env profileId w)) = modelCalls w \/
  exists p c t courseData,
    Resolved w profileId p c /\ Matched env p c t /\
    modelCalls (snd (generateAndSaveRoadmap env profileId w)) =
      buildPrompt t courseData p :: modelCalls w /\
    prompt_template (buildPrompt t courseData p) = t /\
    Some (prompt_program (buildPrompt t courseData p)) = profile.program p /\
    forall k info,
      Val.assoc k courseData = Some info ->
      exists requested row,
        In requested (extractPathwayCourses t) /\
        parseCourseCode requested = Some (course.coursePrefix row, course.courseNumber row) /\
        In row (courseTable w) /\ course.campusId row = "uh_manoa" /\
        info = courseInfo row.
Proof.
  destruct (run_calls env profileId w) as [H | (p & c & t & w1 & cd & Hres & Hmatch & Hw1 & Hcd & Hm)];
    [now left | right].
  exists p, c, t, cd.
  split; [exact Hres|]. split; [exact Hmatch|]. split; [exact Hm|]. split; [reflexivity|].
  split.
  - destruct Hres as (_ & _ & Hp & _). unfold falsyStr in Hp.
    cbn [buildPrompt prompt_program].
    destruct (profile.program p) as [x|]; [|discriminate]. cbn [orEmpty]. unfold orElse.
    now rewrite Hp.
  - intros k info Hk.
    destruct (lookup_sound env (extractPathwayCourses t) (campus.id c) w1)
      as (m & Em & _ & Hsound).
    rewrite Em in Hcd. injection Hcd as ->.
    destruct (Hsound k info Hk)
      as (requested & pre & number & row & Hin & Hparse & _ & Hrow & Hcampus & Hpre & Hnum &
          Hkey & Hcode & Htitle & Hdesc & Hunits).
    exists requested, row.
    split; [exact Hin|]. split; [now rewrite Hpre, Hnum|].
    split; [destruct Hw1 as (_ & _ & <- & _); exact Hrow|].
    split; [rewrite Hcampus; apply Hmatch|].
    destruct info as [icode ititle idesc iunits]. cbn in Hcode, Htitle, Hdesc, Hunits.
    unfold courseInfo, courseKey. subst. reflexivity.
Qed.

(** A run that returns has stamped the profile: its row existed, its time
    stamp is the current time, and its roadmap is either null or an
    object with a truthy [years] property. *)
Theorem returned_run_stamps_the_profile (env : Env) (profileId : Z) (w : World)
        (Hrun : fst (generateAndSaveRoadmap env profileId w) = Ok tt) :
  (exists p, lookupProfile (profiles w) profileId = Some p) /\
  storedUpdatedAt (snd (generateAndSaveRoadmap env profileId w)) profileId = Some (now env) /\
  (storedRoadmap (snd (generateAndSaveRoadmap env profileId w)) profileId = Some None \/
   exists fields years,
     storedRoadmap (snd (generateAndSaveRoadmap env profileId w)) profileId =
       Some (Some (VObj fields)) /\
     Val.assoc "years" fields = Some years /\ Val.truthy years = true).
Proof.
  destruct (generateAndSaveRoadmap env profileId w) as [r w'] eqn:E.
  cbn [fst snd] in *. subst r. apply generateAndSaveRoadmap_outcome in E.
  inversion E as [| p c w0 Hres _ Hp _ | | p c t cd doc w0 Hres _ _ Hsyn Hp]; subst.
  - destruct Hres as (Hl & _). split; [eauto|].
    unfold storedUpdatedAt, storedRoadmap. rewrite Hp, lookupProfile_written, Hl.
    split; [reflexivity | left; reflexivity].
  - destruct Hres as (Hl & _). split; [eauto|].
    unfold storedUpdatedAt, storedRoadmap. rewrite Hp, lookupProfile_written, Hl.
    split; [reflexivity|]. right.
    unfold synthesize in Hsyn.
    destruct (respond env (buildPrompt t cd p)) as [v|]; [|discriminate]. cbn [rbind] in Hsyn.
    destruct (finalRoadmap_object _ _ _ _ _ Hsyn) as (fields & years & -> & Hy & Ht).
    exists fields, years. repeat split; assumption.
Qed.

(* ================================================================== *)
(** ** The final document, key by key *)

Section Spread.

Lemma spread_keys_NoDup {A : Type} (other literal : list (string * A)) :
  NoDup (map fst literal) ->
  NoDup (map fst (fold_left (fun o kv => Val.put (fst kv) (snd kv) o) other literal)).
Proof.
  revert literal. induction other as [|kv other IH]; intros literal H; cbn [fold_left];
    [exact H|].
  apply IH. now apply put_keys_NoDup.
Qed.

Lemma defaults_keys (t : PathwayTemplate) (c : campus.row) (p : profile.row) (x y z : value) :
  map fst (("program_name", x) :: ("institution", y) :: ("total_credits", z) ::
           skipn 3 (defaults t c p)) =
  ["program_name"; "institution"; "total_credits"; "career_goal"; "interests"; "skills"].
Proof. reflexivity. Qed.

Lemma literal_keys_NoDup :
  NoDup ["program_name"; "institution"; "total_credits"; "career_goal"; "interests"; "skills"].
Proof.
  repeat (constructor; [cbn [In]; intros H; repeat (destruct H as [H|H]; [discriminate H|]);
                        exact H|]).
  constructor.
Qed.

End Spread.

(** The document handed to the store, for a response that is an object:
    the response wins on every key it has, [years] apart; the template,
    the campus and the profile only fill in the keys it lacks, and no
    other key appears; [years] is the response's when truthy and the
    empty array otherwise; no key occurs twice. *)
Theorem final_document_is_the_response_over_defaults
        (fields : list (string * value)) (t : PathwayTemplate) (c : campus.row)
        (p : profile.row)
        (Hkeys : NoDup (map fst fields)) :
  exists doc,
    finalRoadmap (VObj fields) t c p = Ok (VObj doc) /\
    NoDup (map fst doc) /\
    Val.assoc "years" doc = Some (Val.or (field (VObj fields) "years") (VArr [])) /\
    forall k, k <> "years" ->
              Val.assoc k doc = match Val.assoc k fields with
                                | Some x => Some x
                                | None => Val.assoc k (defaults t c p)
                                end.
Proof.
  unfold finalRoadmap. cbn [Val.ownProperties Val.get].
  assert (forall k, match Val.assoc k fields with
                    | Some x => Ok x
                    | None => Ok VUndefined
                    end = Ok (orDefault (Val.assoc k fields) VUndefined)) as Hget
      by (intros k; now destruct (Val.assoc k fields)).
  rewrite !Hget. cbn [rbind]. eexists. split; [reflexivity|].
  pose proof (remove_keys_NoDup "years" fields Hkeys) as Hnd'.
  split; [|split].
  - apply put_keys_NoDup, spread_keys_NoDup.
    change (NoDup (map fst (("program_name",
                              Val.or (orDefault (Val.assoc "program_name" fields) VUndefined)
                                     (VStr (program_name t))) ::
                            ("institution",
                              Val.or (orDefault (Val.assoc "institution" fields) VUndefined)
                                     (VStr (campus.name c))) ::
                            ("total_credits",
                              Val.or (orDefault (Val.assoc "total_credits" fields) VUndefined)
                                     (VNum (total_credits t))) ::
                            skipn 3 (defaults t c p)))).
    rewrite defaults_keys. apply literal_keys_NoDup.
  - rewrite assoc_put_same. unfold field. cbn [Val.get].
    now destruct (Val.assoc "years" fields).
  - intros k Hk. rewrite assoc_put_other by congruence.
    rewrite (assoc_spread _ _ _ Hnd'), assoc_remove by exact Hk.
    destruct (Val.assoc k fields) as [x|] eqn:Ek; [reflexivity|].
    unfold defaults. cbn [Val.assoc].
    destruct ("program_name" =? k)%string eqn:E1.
    { apply String.eqb_eq in E1. subst k. now rewrite Ek. }
    destruct ("institution" =? k)%string eqn:E2.
    { apply String.eqb_eq in E2. subst k. now rewrite Ek. }
    destruct ("total_credits" =? k)%string eqn:E3.
    { apply String.eqb_eq in E3. subst k. now rewrite Ek. }
    reflexivity.
Qed.

(* ================================================================== *)
(** ** Normalising twice *)

Section Idempotence.

Lemma put_present {A : Type} (k : string) (v : A) (m : list (string * A)) :
  Val.assoc k m = Some v -> Val.put k v m = m.
Proof.
  induction m as [|[k0 v0] m IH]; cbn [Val.assoc Val.put]; [discriminate|].
  destruct (k0 =? k)%string.
  - now intros [= ->].
  - intros H. now rewrite IH.
Qed.

Lemma mapO_entryText_strings (l : list string) : mapO entryText (map VStr l) = Some l.
Proof.
  induction l as [|s l IH]; cbn [map mapO entryText]; [reflexivity|]. now rewrite IH.
Qed.

Lemma filter_twice {A : Type} (f : A -> bool) (l : list A) :
  filter f (filter f l) = filter f l.
Proof.
  induction l as [|x l IH]; cbn [filter]; [reflexivity|].
  destruct (f x) eqn:E; cbn [filter]; [rewrite E, IH|]; auto.
Qed.

Lemma normalizedField_strings (l : list string) :
  normalizedField (VArr (map VStr l)) = VArr (map VStr (filter nonBlank l)).
Proof.
  unfold normalizedField, normalizeStringArray. cbn [Val.truthy negb].
  now rewrite mapO_entryText_strings.
Qed.

Lemma normalizedField_twice (x : value) :
  normalizedField (normalizedField x) = normalizedField x.
Proof.
  unfold normalizedField at 2 3.
  destruct (normalizeStringArray x) as [strings|] eqn:E.
  - rewrite normalizedField_strings.
    unfold normalizeStringArray in E. destruct (negb (Val.truthy x)); [discriminate|].
    destruct x; try discriminate.
    destruct (mapO entryText items); [|discriminate]. injection E as <-.
    now rewrite filter_twice.
  - apply normalizedField_strings.
Qed.

Lemma get_object (fields : list (string * value)) (k : string) :
  Val.get (VObj fields) k = Ok (orDefault (Val.assoc k fields) VUndefined).
Proof. cbn [Val.get]. now destruct (Val.assoc k fields). Qed.

Lemma normalizeSemester_twice (s s' : value) :
  normalizeSemester s = Ok s' -> normalizeSemester s' = Ok s'.
Proof.
  destruct s as [| |b|n|str|items|sf]; try discriminate.
  - cbn. now intros [= <-].
  - unfold normalizeSemester. rewrite get_object. cbn [rbind Val.set].
    rewrite get_object. cbn [rbind]. rewrite assoc_put_other by discriminate.
    set (a := normalizedField (orDefault (Val.assoc "activities" sf) VUndefined)).
    set (m := normalizedField (orDefault (Val.assoc "milestones" sf) VUndefined)).
    intros [= <-].
    rewrite get_object, assoc_put_other, assoc_put_same by discriminate.
    cbn [rbind orDefault Val.set].
    assert (normalizedField a = a) as -> by apply normalizedField_twice.
    rewrite (put_present "activities" a)
      by (rewrite assoc_put_other by discriminate; apply assoc_put_same).
    rewrite get_object, assoc_put_same. cbn [rbind orDefault].
    assert (normalizedField m = m) as -> by apply normalizedField_twice.
    rewrite (put_present "milestones" m) by apply assoc_put_same.
    reflexivity.
Qed.

Lemma mapR_twice {A : Type} (f : A -> result A) :
  (forall x y, f x = Ok y -> f y = Ok y) ->
  forall xs ys, mapR f xs = Ok ys -> mapR f ys = Ok ys.
Proof.
  intros Hf. induction xs as [|x xs IH]; intros ys; cbn [mapR].
  - now intros [= <-].
  - destruct (f x) as [y|] eqn:Ex; [|discriminate]. cbn [rbind].
    destruct (mapR f xs) as [ys0|]; [|discriminate]. cbn [rbind].
    intros [= <-]. cbn [mapR]. rewrite (Hf _ _ Ex). cbn [rbind].
    rewrite (IH ys0 eq_refl). reflexivity.
Qed.

Lemma normalizeYear_twice (y y' : value) :
  normalizeYear y = Ok y' -> normalizeYear y' = Ok y'.
Proof.
  intros H. pose proof H as H0. unfold normalizeYear in H.
  destruct (Val.get y "semesters") as [sems|] eqn:Eg; [|discriminate]. cbn [rbind] in H.
  destruct (Val.or sems (VArr [])) as [| |b|n|str|ss|fields] eqn:Eor; try discriminate.
  - destruct (mapR normalizeSemester (Val.chars str)); [|discriminate].
    cbn [rbind] in H. injection H as <-. exact H0.
  - destruct (mapR normalizeSemester ss) as [ss'|] eqn:Em; [|discriminate].
    cbn [rbind] in H.
    destruct (Val.truthy sems) eqn:Et; [|injection H as <-; exact H0].
    unfold Val.or in Eor. rewrite Et in Eor. subst sems.
    destruct y as [| |b|n|str|items|yf]; try discriminate.
    cbn [Val.set] in H. injection H as <-.
    unfold normalizeYear. cbn [Val.get]. rewrite assoc_put_same. cbn [rbind Val.or Val.truthy].
    rewrite (mapR_twice _ normalizeSemester_twice _ _ Em). cbn [rbind Val.set].
    rewrite (put_present "semesters") by apply assoc_put_same. reflexivity.
Qed.

Lemma normalizeParsed_twice (parsed v : value) :
  normalizeParsed parsed = Ok v -> normalizeParsed v = Ok v.
Proof.
  intros H. pose proof H as H0. unfold normalizeParsed in H.
  destruct (Val.truthy parsed) eqn:Et; [|injection H as <-; exact H0].
  destruct (Val.get parsed "years") as [years|] eqn:Eg; [|discriminate]. cbn [rbind] in H.
  destruct years as [| |b|n|str|ys|fields]; try (injection H as <-; exact H0).
  destruct (mapR normalizeYear ys) as [ys'|] eqn:Em; [|discriminate]. cbn [rbind] in H.
  destruct parsed as [| |b|n|str|items|pf]; try discriminate.
  cbn [Val.set] in H. injection H as <-.
  unfold normalizeParsed. cbn [Val.truthy Val.get]. rewrite assoc_put_same. cbn [rbind].
  rewrite (mapR_twice _ normalizeYear_twice _ _ Em). cbn [rbind Val.set].
  rewrite (put_present "years") by apply assoc_put_same. reflexivity.
Qed.

End Idempotence.

(** Normalising is idempotent: a response that has been normalised is
    left as it is by a second normalisation, and the same holds of one
    [activities] or [milestones] field. *)
Theorem normalisation_is_idempotent (parsed x : value) :
  rbind (normalizeParsed parsed) normalizeParsed = normalizeParsed parsed /\
  normalizedField (normalizedField x) = normalizedField x.
Proof.
  split; [|apply normalizedField_twice].
  destruct (normalizeParsed parsed) as [v|e] eqn:E; cbn [rbind]; [|reflexivity].
  exact (normalizeParsed_twice _ _ E).
Qed.

(* ================================================================== *)
(** ** Degenerate names *)

Section Degenerate.

Lemma includes_empty (s : string) : Js.includes s "" = true.
Proof. apply includes_iff. now exists "", s. Qed.

Lemma find_none_all {A : Type} (f : A -> bool) (l : list A) :
  (forall x, In x l -> f x = false) -> find f l = None.
Proof.
  induction l as [|x l IH]; intros H; cbn [find]; [reflexivity|].
  rewrite (H x) by now left. apply IH. intros y Hy. apply H. now right.
Qed.

End Degenerate.

(** For a program name that is blank (empty, or white space only) the
    matcher returns the first template of the catalog, provided no
    template has a blank name: every template name contains the empty
    string. *)
Theorem blank_program_name_takes_the_first_template
        (programName : string) (t : PathwayTemplate) (templates : list PathwayTemplate)
        (Hblank : normalize programName = "")
        (Hnamed : forall t', In t' (t :: templates) -> normalize (program_name t') <> "") :
  findMatchingPathway programName (t :: templates) = Some t.
Proof.
  rewrite findMatchingPathway_tiers.
  rewrite (find_none_all (codeTier 1 programName)).
  - cbn [find]. unfold codeTier at 1. rewrite Hblank, includes_empty. reflexivity.
  - intros t' Hin. unfold codeTier. rewrite Hblank. apply String.eqb_neq. now apply Hnamed.
Qed.

(** A template whose name is empty matches every program: when the
    catalog holds one, the matcher never returns null. *)
Theorem unnamed_template_matches_every_program
        (programName : string) (t : PathwayTemplate) (templates : list PathwayTemplate)
        (Hin : In t templates)
        (Hname : program_name t = "") :
  exists t', findMatchingPathway programName templates = Some t'.
Proof.
  destruct (findMatchingPathway programName templates) as [t'|] eqn:E; [eauto|].
  destruct (first_hit programName templates) as [_ [Hnone _]].
  destruct (Hnone E t Hin) as (_ & _ & H3).
  unfold codeTier in H3. rewrite Hname in H3. cbn [Js.toLowerCase] in H3.
  rewrite includes_empty in H3. discriminate.
Qed.

(* ================================================================== *)
(** ** What the lookup finds *)

Section Found.

Lemma survivors_all {A : Type} (fault : nat -> bool) (queries : list A) :
  (forall n, fault n = false) -> forall n, survivors fault n queries = queries.
Proof.
  intros H. induction queries as [|q queries IH]; intros n; cbn [survivors]; [reflexivity|].
  now rewrite H, IH.
Qed.

Lemma filterMap_In {A B : Type} (f : A -> option B) (xs : list A) (x : A) (y : B) :
  In x xs -> f x = Some y -> In y (filterMap f xs).
Proof.
  intros Hin Hf. induction xs as [|x0 xs IH]; [destruct Hin|]. cbn [filterMap].
  destruct Hin as [-> | Hin].
  - rewrite Hf. now left.
  - destruct (f x0); [right|]; now apply IH.
Qed.

End Found.

(** With a working store, a requested code that has a row for the campus
    is found, provided the campus has no more than a thousand rows (the
    query fetches no more): the map has an entry under the prefix, one
    space and the number, with that text as its [code]. *)
Theorem requested_courses_are_found (env : Env) (courseCodes : list string)
        (campusId : string) (w : World) (requested pre number : string) (row : course.row)
        (Hstore : noFaults env)
        (Hcap : List.length (filter (fun c => (course.campusId c =? campusId)%string)
                                    (courseTable w)) <= 1000)
        (Hin : In requested courseCodes)
        (Hparse : parseCourseCode requested = Some (pre, number))
        (Hrow : In row (courseTable w))
        (Hcampus : course.campusId row = campusId)
        (Hpre : course.coursePrefix row = pre)
        (Hnum : course.courseNumber row = number) :
  exists m info,
    fst (getPathwayCoursesFromDB env courseCodes campusId w) = Ok m /\
    Val.assoc (pre ++ " " ++ number) m = Some info /\
    code info = pre ++ " " ++ number.
Proof.
  destruct (getPathwayCoursesFromDB_run env courseCodes campusId w) as (w' & E & _ & _).
  rewrite E. cbn [fst]. rewrite (survivors_all _ _ Hstore).
  assert (exists info,
             Val.assoc (pre ++ " " ++ number)
                       (enrich (filterMap parseCourseCode courseCodes) (campusRows w campusId)) =
             Some info) as [info Hinfo].
  { apply enrich_assoc. exists (pre, number), row.
    split; [eapply filterMap_In; eassumption|]. split.
    - unfold matchingCourses. apply filter_In. split.
      + unfold campusRows. rewrite firstn_all2 by exact Hcap.
        apply filter_In. split; [exact Hrow | now apply String.eqb_eq].
      + cbn [fst snd]. apply andb_true_iff. split; now apply String.eqb_eq.
    - unfold courseKey. now rewrite Hpre, Hnum. }
  exists (enrich (filterMap parseCourseCode courseCodes) (campusRows w campusId)), info.
  split; [reflexivity|]. split; [exact Hinfo|].
  apply enrich_source in Hinfo as (query & row' & _ & _ & Hk & ->).
  cbn [courseInfo code]. now rewrite <- Hk.
Qed.

(* ================================================================== *)
(** ** Case and padding of the program name *)

Section Padding.

Local Open Scope string_scope.

Lemma toLowerCase_app (s t : string) :
  Js.toLowerCase (s ++ t) = Js.toLowerCase s ++ Js.toLowerCase t.
Proof.
  induction s as [|c s IH]; cbn [append Js.toLowerCase]; [reflexivity|]. now rewrite IH.
Qed.

Lemma lowerChar_blank (c : ascii) : Js.isWhiteSpace c = true -> Js.lowerChar c = c.
Proof.
  intros H. unfold Js.lowerChar. rewrite (blank_not_upper c H). cbn [orb].
  unfold Js.isWhiteSpace in H. cbv zeta in *.
  destruct (Nat.leb 192 (nat_of_ascii c)) eqn:E; [|reflexivity].
  apply Nat.leb_le in E.
  apply orb_true_iff in H as [H | H]; [apply orb_true_iff in H as [H | H]|].
  - apply andb_true_iff in H as [_ H]. apply Nat.leb_le in H. lia.
  - apply Nat.eqb_eq in H. lia.
  - apply Nat.eqb_eq in H. lia.
Qed.

Lemma toLowerCase_blank (s : string) :
  allOf Js.isWhiteSpace s = true -> Js.toLowerCase s = s.
Proof.
  induction s as [|c s IH]; cbn [allOf Js.toLowerCase]; [reflexivity|].
  intros H. apply andb_true_iff in H as [Hc Hs]. now rewrite (lowerChar_blank c Hc), IH.
Qed.

Lemma trimStart_blank_app (l s : string) :
  allOf Js.isWhiteSpace l = true -> Js.trimStart (l ++ s) = Js.trimStart s.
Proof.
  induction l as [|c l IH]; cbn [allOf append Js.trimStart]; [reflexivity|].
  intros H. apply andb_true_iff in H as [Hc Hl]. rewrite Hc. now apply IH.
Qed.

Lemma trimEnd_blank (r : string) : allOf Js.isWhiteSpace r = true -> Js.trimEnd r = "".
Proof.
  induction r as [|c r IH]; cbn [allOf Js.trimEnd]; [reflexivity|].
  intros H. apply andb_true_iff in H as [Hc Hr]. now rewrite (IH Hr), Hc.
Qed.

Lemma trim_app_blank (s r : string) :
  allOf Js.isWhiteSpace r = true -> Js.trim (s ++ r) = Js.trim s.
Proof.
  intros Hr. unfold Js.trim. induction s as [|c s IH]; cbn [append].
  - rewrite <- (append_empty_r r) at 1. rewrite trimStart_blank_app by exact Hr. reflexivity.
  - cbn [Js.trimStart]. destruct (Js.isWhiteSpace c); [exact IH|].
    change (String c (s ++ r)) with (String c s ++ r).
    apply trimEnd_app_blank. now apply trimEnd_blank.
Qed.

Lemma normalize_padded (l s r : string) :
  allOf Js.isWhiteSpace l = true -> allOf Js.isWhiteSpace r = true ->
  normalize (l ++ s ++ r) = normalize s.
Proof.
  intros Hl Hr. unfold normalize. rewrite !toLowerCase_app.
  rewrite (toLowerCase_blank l Hl), (toLowerCase_blank r Hr).
  unfold Js.trim at 1. rewrite trimStart_blank_app by exact Hl.
  now apply trim_app_blank.
Qed.

End Padding.

(** The matcher ignores the case of the program name and the white space
    around it: two program names that differ only in the case of their
    letters and in leading and trailing white space get the same
    template, or none. *)
Theorem matching_ignores_case_and_padding
        (p q l r : string) (templates : list PathwayTemplate)
        (Hcase : Js.toLowerCase q = Js.toLowerCase p)
        (Hl : allOf Js.isWhiteSpace l = true)
        (Hr : allOf Js.isWhiteSpace r = true) :
  findMatchingPathway (l ++ q ++ r) templates = findMatchingPathway p templates.
Proof.
  assert (normalize (l ++ q ++ r) = normalize p) as H
      by (rewrite (normalize_padded l q r Hl Hr); unfold normalize; now rewrite Hcase).
  unfold findMatchingPathway. unfold normalize in H. now rewrite H.
Qed.

(* ================================================================== *)
(** ** Further worked runs *)

(** The refused request: the error names the answer without braces. *)
Lemma refusal_names_its_cause :
  causeOf (Sample.env [Sample.cs] Sample.refusal) Sample.atManoa 7 NoJsonFound.
Proof.
  apply (thrown_error_names_its_cause (Sample.env [Sample.cs] Sample.refusal) 7
                                      Sample.atManoa NoJsonFound).
  - intros prompt e H. cbn in H. discriminate H.
  - vm_compute. reflexivity.
Defined.

(** The run on the complete response. *)
Lemma complete_run_stamps_the_profile :
  (exists p, lookupProfile (profiles Sample.atManoa) 7 = Some p) /\
  storedUpdatedAt (snd (generateAndSaveRoadmap (Sample.env [Sample.cs] Sample.complete) 7
                                               Sample.atManoa)) 7 = Some 200%Z /\
  (storedRoadmap (snd (generateAndSaveRoadmap (Sample.env [Sample.cs] Sample.complete) 7
                                              Sample.atManoa)) 7 = Some None \/
   exists fields years,
     storedRoadmap (snd (generateAndSaveRoadmap (Sample.env [Sample.cs] Sample.complete) 7
                                                Sample.atManoa)) 7 =
       Some (Some (VObj fields)) /\
     Val.assoc "years" fields = Some years /\ Val.truthy years = true).
Proof.
  apply (returned_run_stamps_the_profile (Sample.env [Sample.cs] Sample.complete) 7
                                         Sample.atManoa).
  vm_compute. reflexivity.
Defined.

(** A response that names a career of its own and has [null] for years. *)
Lemma career_of_the_response_wins :
  exists doc,
    finalRoadmap (VObj [("years", VNull); ("career_goal", VStr "Researcher")])
                 Sample.cs Sample.manoa (Sample.student (Some "Manoa")) = Ok (VObj doc) /\
    NoDup (map fst doc) /\
    Val.assoc "years" doc =
      Some (Val.or (field (VObj [("years", VNull); ("career_goal", VStr "Researcher")]) "years")
                   (VArr [])) /\
    forall k, k <> "years" ->
              Val.assoc k doc =
              match Val.assoc k [("years", VNull); ("career_goal", VStr "Researcher")] with
              | Some x => Some x
              | None => Val.assoc k (defaults Sample.cs Sample.manoa
                                              (Sample.student (Some "Manoa")))
              end.
Proof.
  apply (final_document_is_the_response_over_defaults
           [("years", VNull); ("career_goal", VStr "Researcher")]
           Sample.cs Sample.manoa (Sample.student (Some "Manoa"))).
  cbn [map fst]. constructor.
  - cbn [In]. intros [H | []]. discriminate H.
  - constructor; [intros [] | constructor].
Defined.

(** A program name of three spaces against a catalog of two templates. *)
Lemma three_spaces_match_the_first_template :
  findMatchingPathway "   " [Sample.cs; Sample.template "Biology, B.S." []] = Some Sample.cs.
Proof.
  apply (blank_program_name_takes_the_first_template
           "   " Sample.cs [Sample.template "Biology, B.S." []]).
  - vm_compute. reflexivity.
  - intros t' [<- | [<- | []]]; vm_compute; discriminate.
Defined.

(** A catalog with a template that has no name. *)
Lemma unnamed_template_is_a_match :
  exists t',
    findMatchingPathway "Computer Science, B.S."
                        [Sample.template "Biology, B.S." []; Sample.template "" []] = Some t'.
Proof.
  apply (unnamed_template_matches_every_program
           "Computer Science, B.S." (Sample.template "" [])
           [Sample.template "Biology, B.S." []; Sample.template "" []]).
  - right. left. reflexivity.
  - reflexivity.
Defined.

(** The lookup of one code against the sample course table. *)
Lemma ics111_is_found :
  exists m info,
    fst (getPathwayCoursesFromDB (Sample.env [Sample.cs] Sample.complete)
                                 ["ICS 111"; "FW"] "uh_manoa" Sample.atManoa) = Ok m /\
    Val.assoc ("ICS" ++ " " ++ "111") m = Some info /\
    code info = "ICS" ++ " " ++ "111".
Proof.
  apply (requested_courses_are_found (Sample.env [Sample.cs] Sample.complete)
                                     ["ICS 111"; "FW"] "uh_manoa" Sample.atManoa
                                     "ICS 111" "ICS" "111" Sample.ics111).
  - intros n. reflexivity.
  - apply Nat.leb_le. vm_compute. reflexivity.
  - left. reflexivity.
  - vm_compute. reflexivity.
  - left. reflexivity.
  - reflexivity.
  - reflexivity.
  - reflexivity.
Defined.

(** The program name in capitals and with spaces around it. *)
Lemma padded_capitals_match_the_same_template :
  findMatchingPathway (" " ++ "COMPUTER SCIENCE, B.S." ++ "  ")
                      [Sample.template "Biology, B.S." []; Sample.cs] =
  findMatchingPathway "Computer Science, B.S." [Sample.template "Biology, B.S." []; Sample.cs].
Proof.
  apply (matching_ignores_case_and_padding
           "Computer Science, B.S." "COMPUTER SCIENCE, B.S." " " "  "
           [Sample.template "Biology, B.S." []; Sample.cs]).
  - vm_compute. reflexivity.
  - reflexivity.
  - reflexivity.
Defined.
